(** * datazone: the job-processing pipeline, embedded and verified

    A shallow embedding of the parts of the datazone repository that its
    specification makes claims about:

    - [schemas/scraperapi.schema.ts]   (module [Schema])
    - [services/data-processor.ts]     (module [Processor])
    - the tables of [db/schema/products.ts] the pipeline writes (module [Db])
    - [services/usage-tracker.ts]      (module [Usage])
    - [services/scraperapi-client.ts] and [services/amazon-collector.ts]
                                       (module [Collector])
    - [services/scheduler.ts]          (module [Scheduler])
    - [workers/collection-worker.ts]   (module [Worker])

    Module [Outside] gathers what the pipeline only calls (the HTTP
    endpoint, the queue, the random identifiers, the database driver's
    failures, the other clients of the database); module [Spec] holds the
    vocabulary of the specification and the data of its scenarios.

    JavaScript values are modelled as the code uses them: strings are
    sequences of UTF-16 code units, numbers that measure something (prices,
    ratings) are exact rationals extended with NaN and the two infinities,
    numbers that count something (lengths, limits, page numbers, call
    counters) are integers.  Database tables are lists of rows, statements
    are functions on them, and asynchronous code is a state-and-exception
    monad over the persistent world. *)

From Stdlib Require Import ZArith QArith Qcanon List String Ascii Bool Lia.
From Stdlib Require Import DecimalString.
Import ListNotations.

Local Open Scope Z_scope.
Local Open Scope list_scope.

(* ================================================================== *)
(** * JavaScript strings and numbers *)
(* ================================================================== *)

Module JS.

(** A string is its sequence of UTF-16 code units. *)
Definition jsstring := list N.

(** An ASCII literal, read as code units. *)
Definition str (s : string) : jsstring :=
  map N_of_ascii (list_ascii_of_string s).

(** [a === b] on strings. *)
Fixpoint eqb (a b : jsstring) : bool :=
  match a, b with
  | [], [] => true
  | x :: a', y :: b' => N.eqb x y && eqb a' b'
  | _, _ => false
  end.

Fixpoint startsWith (p s : jsstring) : bool :=
  match p, s with
  | [], _ => true
  | x :: p', y :: s' => N.eqb x y && startsWith p' s'
  | _ :: _, [] => false
  end.

(** [s.includes(p)] *)
Fixpoint includes (s p : jsstring) : bool :=
  startsWith p s ||
  match s with
  | [] => false
  | _ :: s' => includes s' p
  end.

(** The characters matched by [\s] and removed by [trim]: WhiteSpace and
    LineTerminator of ECMA-262. *)
Definition isWhiteSpace (c : N) : bool :=
  ((9 <=? c) && (c <=? 13) || (c =? 32) || (c =? 160) || (c =? 5760)
   || (8192 <=? c) && (c <=? 8202)
   || (c =? 8232) || (c =? 8233) || (c =? 8239) || (c =? 8287)
   || (c =? 12288) || (c =? 65279))%N.

Fixpoint trimStart (s : jsstring) : jsstring :=
  match s with
  | c :: s' => if isWhiteSpace c then trimStart s' else s
  | [] => []
  end.

Definition trimEnd (s : jsstring) : jsstring := rev (trimStart (rev s)).

Definition trim (s : jsstring) : jsstring := trimEnd (trimStart s).

(** [s.replace(/\s+/g, " ")]: every maximal run of white space becomes one
    space. *)
Fixpoint collapseFrom (inRun : bool) (s : jsstring) : jsstring :=
  match s with
  | [] => []
  | c :: s' =>
      if isWhiteSpace c
      then (if inRun then [] else [32%N]) ++ collapseFrom true s'
      else c :: collapseFrom false s'
  end.

Definition collapseSpaces (s : jsstring) : jsstring := collapseFrom false s.

(** A string is falsy exactly when it is empty. *)
Definition truthyStr (s : jsstring) : bool :=
  match s with [] => false | _ => true end.

(** [a || b] on an optional string: the first that is defined and
    non-empty. *)
Definition orStr (a : option jsstring) (b : option jsstring) : option jsstring :=
  match a with
  | Some s => if truthyStr s then a else b
  | None => b
  end.

(** ** Numbers

    A number is NaN, an infinity or an exact rational.  The rounding of
    IEEE doubles, their overflow and the sign of zero are not modelled:
    a decimal literal and the result of parsing the same digits denote the
    same rational here, as they denote the same double in JavaScript. *)
Inductive number : Type :=
  | NaN
  | Inf (negative : bool)
  | Fin (q : Qc).

Definition ofZ (z : Z) : number := Fin (Q2Qc (inject_Z z)).

(** The decimal [m * 10^k]. *)
Definition decimal (m k : Z) : number :=
  Fin (Q2Qc (inject_Z m * Qpower (10 # 1) k)).

Definition isNaN (n : number) : bool :=
  match n with NaN => true | _ => false end.

(** [a < b]; false as soon as one side is NaN. *)
Definition lt (a b : number) : bool :=
  match a, b with
  | NaN, _ | _, NaN => false
  | Inf true, Inf true => false
  | Inf true, _ => true
  | _, Inf true => false
  | Inf false, _ => false
  | Fin _, Inf false => true
  | Fin p, Fin q => match (p ?= q)%Qc with Lt => true | _ => false end
  end.

Definition gt (a b : number) : bool := lt b a.

(** [a <= b] and [a >= b]; false as soon as one side is NaN. *)
Definition le (a b : number) : bool :=
  match a, b with
  | NaN, _ | _, NaN => false
  | _, _ => negb (lt b a)
  end.

Definition ge (a b : number) : bool := le b a.

Definition eqNum (a b : number) : bool :=
  match a, b with
  | Fin p, Fin q => match (p ?= q)%Qc with Eq => true | _ => false end
  | Inf x, Inf y => Bool.eqb x y
  | _, _ => false
  end.

Definition max (a b : number) : number :=
  match a, b with
  | NaN, _ | _, NaN => NaN
  | _, _ => if lt a b then b else a
  end.

Definition min (a b : number) : number :=
  match a, b with
  | NaN, _ | _, NaN => NaN
  | _, _ => if lt b a then b else a
  end.

(** A number is falsy exactly when it is zero or NaN. *)
Definition truthyNum (n : number) : bool :=
  match n with
  | NaN => false
  | Inf _ => true
  | Fin q => negb (eqNum n (ofZ 0))
  end.

(** ** parseFloat

    Leading white space is skipped, then the longest prefix that is a
    StrDecimalLiteral is read: an optional sign, then [Infinity] or decimal
    digits with an optional fraction and an optional exponent.  No such
    prefix gives NaN. *)
Definition isDigit (c : N) : bool := ((48 <=? c) && (c <=? 57))%N.

Fixpoint takeDigits (s : jsstring) : list N * jsstring :=
  match s with
  | c :: s' =>
      if isDigit c
      then let (d, r) := takeDigits s' in (c :: d, r)
      else ([], s)
  | [] => ([], [])
  end.

Definition digitsValue (d : list N) : Z :=
  fold_left (fun acc c => 10 * acc + Z.of_N (c - 48)) d 0.

(** The exponent part [e], [e+] or [e-] followed by at least one digit;
    zero when there is none. *)
Definition exponentPart (s : jsstring) : Z :=
  match s with
  | c :: r =>
      if ((c =? 101) || (c =? 69))%N then
        match r with
        | 43%N :: r' =>
            match fst (takeDigits r') with [] => 0 | d => digitsValue d end
        | 45%N :: r' =>
            match fst (takeDigits r') with [] => 0 | d => - digitsValue d end
        | _ =>
            match fst (takeDigits r) with [] => 0 | d => digitsValue d end
        end
      else 0
  | [] => 0
  end.

Definition negate (n : number) : number :=
  match n with
  | NaN => NaN
  | Inf b => Inf (negb b)
  | Fin q => Fin (- q)%Qc
  end.

Definition parseUnsigned (s : jsstring) : number :=
  if startsWith (str "Infinity") s then Inf false
  else
    let (ip, r1) := takeDigits s in
    let (fp, r2) :=
      match r1 with
      | 46%N :: r => takeDigits r
      | _ => ([], r1)
      end in
    match ip, fp with
    | [], [] => NaN
    | _, _ =>
        decimal (digitsValue (ip ++ fp))
                (exponentPart r2 - Z.of_nat (List.length fp))
    end.

Definition parseFloat (s : jsstring) : number :=
  match trimStart s with
  | 43%N :: r => parseUnsigned r
  | 45%N :: r => negate (parseUnsigned r)
  | t => parseUnsigned t
  end.

(** [String(n)] for an integer, and [padStart(2, "0")]. *)
Definition ofInt (z : Z) : jsstring := str (NilZero.string_of_int (Z.to_int z)).

Definition padStart2 (s : jsstring) : jsstring :=
  match s with
  | [] => str "00"
  | [c] => 48%N :: s
  | _ => s
  end.

(** A [Date], as far as the code reads it: the instant, and the local
    year and zero-based month. *)
Record Date : Type := { getTime : Z; getFullYear : Z; getMonth : Z }.

(** A thrown value.  Database drivers put the SQLSTATE code on the error or
    on its cause. *)
Record Cause : Type := {
  c_message : option jsstring;
  c_code : option jsstring;
  c_detail : option jsstring
}.

Record JsError : Type := {
  e_name : jsstring;
  e_message : jsstring;
  e_code : option jsstring;
  e_cause : option Cause
}.

(** [new Error(msg)] *)
Definition Error (msg : jsstring) : JsError :=
  {| e_name := str "Error"; e_message := msg; e_code := None; e_cause := None |}.

(** [String(e)], that is [Error.prototype.toString]. *)
Definition errorToString (e : JsError) : jsstring :=
  match e_name e, e_message e with
  | [], m => m
  | n, [] => n
  | n, m => n ++ str ": " ++ m
  end.

(** What a call does: it returns or it throws. *)
Inductive outcome (A : Type) : Type :=
  | Return (a : A)
  | Throws (e : JsError).

Arguments Return {A} a.
Arguments Throws {A} e.

End JS.

Import JS.


(* ================================================================== *)
(** * schemas/scraperapi.schema.ts and types/scraperapi.ts *)
(* ================================================================== *)

Module Schema.

(** A value of unknown type, as far as [parsePriceString] looks at it. *)
Inductive unknown : Type :=
  | UNum (n : number)
  | UStr (s : jsstring)
  | UOther.

(** The characters [parsePriceString] removes before parsing: the dollar
    sign (36), the comma (44), the euro (8364), pound (163), yen (165) and
    rupee (8377) signs, and white space. *)
Definition isPriceNoise (c : N) : bool :=
  ((c =? 36) || (c =? 44) || (c =? 8364) || (c =? 163) || (c =? 165)
   || (c =? 8377))%N || isWhiteSpace c.

Definition cleanPrice (price : jsstring) : jsstring :=
  filter (fun c => negb (isPriceNoise c)) price.

Definition parsePriceString (price : unknown) : option number :=
  match price with
  | UNum n => Some n
  | UStr s =>
      let cleaned := cleanPrice s in
      let parsed := parseFloat cleaned in
      if isNaN parsed then None else Some parsed
  | UOther => None
  end.

(** ** rawProductSchema: the shape zod accepts, as a type *)

Record PriceObject : Type := {
  po_current : number;
  po_original : option number;
  po_currency : option jsstring
}.

Inductive RawPrice : Type :=
  | PriceNum (n : number)
  | PriceStr (s : jsstring)
  | PriceObj (o : PriceObject).

Inductive StrOrNum : Type :=
  | IsStr (s : jsstring)
  | IsNum (n : number).

Definition toUnknown (v : StrOrNum) : unknown :=
  match v with
  | IsStr s => UStr s
  | IsNum n => UNum n
  end.

Record Rating : Type := { value : number; count : number }.

Inductive RawRating : Type :=
  | RatingNum (n : number)
  | RatingObj (r : Rating).

Record Seller : Type := { s_name : jsstring; s_rating : option number }.

Inductive RawSeller : Type :=
  | SellerStr (s : jsstring)
  | SellerObj (o : Seller).

Record RawProduct : Type := {
  r_asin : option jsstring;
  r_title : option jsstring;
  r_name : option jsstring;
  r_productName : option jsstring;
  r_description : option jsstring;
  r_price : option RawPrice;
  r_pricing : option StrOrNum;
  r_list_price : option StrOrNum;
  r_currentPrice : option number;
  r_originalPrice : option number;
  r_currency : option jsstring;
  r_images : option (list jsstring);
  r_image : option jsstring;
  r_imageUrls : option (list jsstring);
  r_rating : option RawRating;
  r_averageRating : option number;
  r_reviewCount : option number;
  r_availability : option jsstring;
  r_seller : option RawSeller;
  r_sellerName : option jsstring;
  r_specifications : option (list (jsstring * jsstring));
  r_features : option (list jsstring);
  r_brand : option jsstring;
  r_category : option jsstring
}.

(** ** ProductData (types/scraperapi.ts) *)

Record Price : Type := {
  current : number;
  original : option number;
  currency : jsstring
}.

Record ProductData : Type := {
  asin : jsstring;
  title : jsstring;
  description : option jsstring;
  price : option Price;
  images : option (list jsstring);
  rating : option Rating;
  availability : option jsstring;
  seller : option Seller;
  specifications : option (list (jsstring * jsstring));
  features : option (list jsstring);
  brand : option jsstring;
  category : option jsstring
}.

(** The refinement: the ASIN is present, a non-empty string, and not
    empty after [trim]. *)
Definition hasValidAsin (data : RawProduct) : bool :=
  match r_asin data with
  | Some a => truthyStr a && negb (eqb (trim a) [])
  | None => false
  end.

(** Priority order: pricing > price > currentPrice.  The pair is
    (currentPrice, originalPrice) after the first chain of tests. *)
Definition extractCurrent (data : RawProduct) : option number * option number :=
  match r_pricing data with
  | Some p => (parsePriceString (toUnknown p), None)
  | None =>
      match r_price data with
      | Some (PriceNum n) => (Some n, None)
      | Some (PriceStr s) => (parsePriceString (UStr s), None)
      | Some (PriceObj o) => (Some (po_current o), po_original o)
      | None =>
          match r_currentPrice data with
          | Some n => (Some n, None)
          | None => (None, None)
          end
      end
  end.

(** [!originalPrice] *)
Definition falsyOptNum (o : option number) : bool :=
  match o with
  | Some n => negb (truthyNum n)
  | None => true
  end.

Definition extractOriginal (data : RawProduct) (originalPrice : option number)
  : option number :=
  if falsyOptNum originalPrice then
    match r_list_price data with
    | Some l => parsePriceString (toUnknown l)
    | None =>
        match r_originalPrice data with
        | Some n => Some n
        | None => originalPrice
        end
    end
  else originalPrice.

Definition normalizePrice (data : RawProduct) : option Price :=
  let (currentPrice, originalPrice0) := extractCurrent data in
  let originalPrice := extractOriginal data originalPrice0 in
  match currentPrice with
  | Some c =>
      Some {| current := c;
              original := originalPrice;
              currency := match orStr (r_currency data) (Some (str "USD")) with
                          | Some s => s
                          | None => str "USD"
                          end |}
  | None => None
  end.

(** [data.reviewCount || 0] *)
Definition countOrZero (o : option number) : number :=
  match o with
  | Some n => if truthyNum n then n else ofZ 0
  | None => ofZ 0
  end.

Definition normalizeRating (data : RawProduct) : option Rating :=
  match r_rating data with
  | Some (RatingNum n) =>
      Some {| value := n; count := countOrZero (r_reviewCount data) |}
  | Some (RatingObj r) => Some r
  | None =>
      match r_averageRating data with
      | Some a => Some {| value := a; count := countOrZero (r_reviewCount data) |}
      | None => None
      end
  end.

Definition normalizeSeller (data : RawProduct) : option Seller :=
  match r_seller data with
  | Some (SellerStr s) => Some {| s_name := s; s_rating := None |}
  | Some (SellerObj o) => Some o
  | None =>
      match r_sellerName data with
      | Some n => if truthyStr n then Some {| s_name := n; s_rating := None |} else None
      | None => None
      end
  end.

Definition normalizeImages (data : RawProduct) : list jsstring :=
  match r_images data with
  | Some l => l
  | None =>
      match r_imageUrls data with
      | Some l => l
      | None =>
          match r_image data with
          | Some i => if truthyStr i then [i] else []
          | None => []
          end
      end
  end.

Definition normalizeTitle (data : RawProduct) : jsstring :=
  match orStr (orStr (orStr (r_title data) (r_name data)) (r_productName data))
              (Some (str "Untitled Product")) with
  | Some t => t
  | None => str "Untitled Product"
  end.

(** [productDataSchema.safeParse]: [None] is a validation failure. *)
Definition productDataSchema (data : RawProduct) : option ProductData :=
  if hasValidAsin data then
    Some {| asin := match r_asin data with Some a => a | None => [] end;
            title := normalizeTitle data;
            description := r_description data;
            price := normalizePrice data;
            images := Some (normalizeImages data);
            rating := normalizeRating data;
            availability := r_availability data;
            seller := normalizeSeller data;
            specifications := r_specifications data;
            features := r_features data;
            brand := r_brand data;
            category := r_category data |}
  else None.

(** The raw product [{asin, price}], and [{asin, pricing, price}]. *)
Definition withPrice (a : jsstring) (p : RawPrice) : RawProduct :=
  {| r_asin := Some a; r_title := None; r_name := None; r_productName := None;
     r_description := None; r_price := Some p; r_pricing := None;
     r_list_price := None; r_currentPrice := None; r_originalPrice := None;
     r_currency := None; r_images := None; r_image := None;
     r_imageUrls := None; r_rating := None; r_averageRating := None;
     r_reviewCount := None; r_availability := None; r_seller := None;
     r_sellerName := None; r_specifications := None; r_features := None;
     r_brand := None; r_category := None |}.

Definition withPricing (a : jsstring) (pr : StrOrNum) (p : RawPrice) : RawProduct :=
  {| r_asin := Some a; r_title := None; r_name := None; r_productName := None;
     r_description := None; r_price := Some p; r_pricing := Some pr;
     r_list_price := None; r_currentPrice := None; r_originalPrice := None;
     r_currency := None; r_images := None; r_image := None;
     r_imageUrls := None; r_rating := None; r_averageRating := None;
     r_reviewCount := None; r_availability := None; r_seller := None;
     r_sellerName := None; r_specifications := None; r_features := None;
     r_brand := None; r_category := None |}.

(** ** reviewDataSchema

    The input is an object of unknown fields; a missing key reads as
    undefined. *)
Inductive jsval : Type :=
  | VUndefined
  | VNull
  | VBool (b : bool)
  | VNum (n : number)
  | VStr (s : jsstring)
  | VObject.

Record RawReview : Type := {
  rr_rating : jsval;
  rr_title : jsval;
  rr_text : jsval;
  rr_author : jsval;
  rr_date : jsval;
  rr_verified : jsval;
  rr_helpfulCount : jsval
}.

Record ReviewData : Type := {
  rv_rating : number;
  rv_title : option jsstring;
  rv_text : jsstring;
  rv_author : jsstring;
  rv_date : option jsstring;
  rv_verified : option bool;
  rv_helpfulCount : option number
}.

(** [z.union([z.number().min(1).max(5), z.string().transform(...)])]:
    the first member that accepts the value wins; [None] when neither
    does.  [z.number()] refuses NaN. *)
Definition clampRating (val : jsstring) : number :=
  let num := parseFloat val in
  if isNaN num then ofZ 0 else max (ofZ 1) (min (ofZ 5) num).

Definition ratingField (v : jsval) : option number :=
  match v with
  | VNum n => if negb (isNaN n) && ge n (ofZ 1) && le n (ofZ 5) then Some n else None
  | VStr s => Some (clampRating s)
  | _ => None
  end.

(** [z.string().optional().or(z.undefined())] *)
Definition optionalString (v : jsval) : option (option jsstring) :=
  match v with
  | VUndefined => Some None
  | VStr s => Some (Some s)
  | _ => None
  end.

(** [z.string().or(z.undefined()).default(d)] *)
Definition stringWithDefault (d : jsstring) (v : jsval) : option jsstring :=
  match v with
  | VUndefined => Some d
  | VStr s => Some s
  | _ => None
  end.

(** [z.boolean().optional().or(z.undefined())] *)
Definition optionalBool (v : jsval) : option (option bool) :=
  match v with
  | VUndefined => Some None
  | VBool b => Some (Some b)
  | _ => None
  end.

(** [z.union([z.number(), z.string()]).optional().transform(...)] *)
Definition helpfulCountField (v : jsval) : option (option number) :=
  match v with
  | VUndefined => Some None
  | VNum n => if isNaN n then None else Some (Some n)
  | VStr s => let num := parseFloat s in
              Some (if isNaN num then None else Some num)
  | _ => None
  end.

(** [data.x || undefined] on an optional string. *)
Definition nonEmpty (o : option jsstring) : option jsstring := orStr o None.

(** [reviewDataSchema.safeParse]: [None] is a validation failure, which
    rejects the review. *)
Definition reviewDataSchema (r : RawReview) : option ReviewData :=
  match ratingField (rr_rating r), optionalString (rr_title r),
        stringWithDefault [] (rr_text r),
        stringWithDefault (str "Anonymous") (rr_author r),
        optionalString (rr_date r), optionalBool (rr_verified r),
        helpfulCountField (rr_helpfulCount r) with
  | Some rating, Some title, Some text, Some author, Some date,
    Some verified, Some helpful =>
      Some {| rv_rating := rating;
              rv_title := nonEmpty title;
              rv_text := text;
              rv_author := if truthyStr author then author else str "Anonymous";
              rv_date := nonEmpty date;
              rv_verified := Some (match verified with Some b => b | None => false end);
              rv_helpfulCount := helpful |}
  | _, _, _, _, _, _, _ => None
  end.

(** The review [{rating, text}]. *)
Definition reviewOf (rating : jsval) (text : jsstring) : RawReview :=
  {| rr_rating := rating; rr_title := VUndefined; rr_text := VStr text;
     rr_author := VUndefined; rr_date := VUndefined;
     rr_verified := VUndefined; rr_helpfulCount := VUndefined |}.

Record ReviewsResponse : Type := {
  reviews : list ReviewData;
  averageRating : number;
  totalReviews : number
}.

End Schema.

Import Schema.

(* ================================================================== *)
(** * services/data-processor.ts *)
(* ================================================================== *)

Module Processor.

Record ProcessedPrice : Type := {
  pp_id : jsstring;
  pp_productId : jsstring;
  pp_price : number;
  pp_originalPrice : option number;
  pp_currency : jsstring;
  pp_availability : option jsstring;
  pp_sellerName : option jsstring;
  pp_sellerRating : option number;
  pp_primeEligible : bool
}.

Record ProcessedReview : Type := {
  pr_id : jsstring;
  pr_productId : jsstring;
  pr_rating : number;
  pr_title : option jsstring;
  pr_text : jsstring;
  pr_author : jsstring;
  pr_date : option Date;
  pr_verified : bool;
  pr_helpfulCount : number
}.

(** [text.trim().replace(/\s+/g, " ")] *)
Definition normalizeText (text : jsstring) : jsstring :=
  collapseSpaces (trim text).

(** [x ? normalizeText(x) : undefined] *)
Definition normalizeOpt (o : option jsstring) : option jsstring :=
  match o with
  | Some s => if truthyStr s then Some (normalizeText s) else None
  | None => None
  end.

(** [processPrice]; [nanoid] is the identifier drawn for the new row and
    [None] is [null]. *)
Definition processPrice (nanoid : jsstring) (productData : ProductData)
    (productId : jsstring) : option ProcessedPrice :=
  match price productData with
  | None => None
  | Some p =>
      Some {| pp_id := nanoid;
              pp_productId := productId;
              pp_price := current p;
              pp_originalPrice := original p;
              pp_currency := if truthyStr (currency p) then currency p else str "USD";
              pp_availability := normalizeOpt (availability productData);
              pp_sellerName := option_map s_name (seller productData);
              pp_sellerRating := match seller productData with
                                 | Some s => s_rating s
                                 | None => None
                                 end;
              pp_primeEligible := false |}
  end.

(** [validateRating]; [None] stands for the thrown error, which its only
    caller catches and logs. *)
Definition validateRating (rating : number) : option number :=
  if lt rating (ofZ 1) || gt rating (ofZ 5) then None else Some rating.

(** The first filter of [processReviews]. *)
Definition keepReview (review : ReviewData) : bool :=
  if negb (truthyStr (rv_text review)) || eqb (trim (rv_text review)) [] then false
  else if negb (truthyNum (rv_rating review))
          || lt (rv_rating review) (ofZ 1) || gt (rv_rating review) (ofZ 5)
  then false
  else true.

Section Reviews.

(** [nanoid k] is the [k]-th identifier drawn; [parseDate] is the private
    date parser, which relies on the host's [Date] parsing and never
    throws. *)
Variable nanoid : nat -> jsstring.
Variable parseDate : jsstring -> option Date.

(** The body of the [map] callback; [None] is the [null] of its [catch]. *)
Definition toProcessed (k : nat) (productId : jsstring) (review : ReviewData)
  : option ProcessedReview :=
  match validateRating (rv_rating review) with
  | None => None
  | Some r =>
      Some {| pr_id := nanoid k;
              pr_productId := productId;
              pr_rating := r;
              pr_title := normalizeOpt (rv_title review);
              pr_text := normalizeText (rv_text review);
              pr_author := normalizeText (if truthyStr (rv_author review)
                                          then rv_author review
                                          else str "Anonymous");
              pr_date := match rv_date review with
                         | Some d => if truthyStr d then parseDate d else None
                         | None => None
                         end;
              pr_verified := match rv_verified review with
                             | Some b => b
                             | None => false
                             end;
              pr_helpfulCount := match rv_helpfulCount review with
                                 | Some n => if truthyNum n then n else ofZ 0
                                 | None => ofZ 0
                                 end |}
  end.

Fixpoint mapReviews (k : nat) (productId : jsstring) (l : list ReviewData)
  : list (option ProcessedReview) :=
  match l with
  | [] => []
  | review :: l' => toProcessed k productId review :: mapReviews (S k) productId l'
  end.

Fixpoint dropNull (l : list (option ProcessedReview)) : list ProcessedReview :=
  match l with
  | [] => []
  | Some r :: l' => r :: dropNull l'
  | None :: l' => dropNull l'
  end.

Definition processReviews (reviewsData : ReviewsResponse) (productId : jsstring)
  : list ProcessedReview :=
  dropNull (mapReviews 0 productId (filter keepReview (reviews reviewsData))).

End Reviews.

End Processor.

Import Processor.

(* ================================================================== *)
(** * The database (packages/db/src/schema/products.ts) and the world *)
(* ================================================================== *)

Module Db.

(** [jobStatusEnum] and [jobTypeEnum]; a queue payload may carry a type
    outside the enumeration, which only the worker's [default] branch
    sees. *)
Inductive JobStatus : Type := pending | running | completed | failed | suspended.

Inductive JobType : Type :=
  | T_product
  | T_search
  | T_review
  | T_price_update
  | T_other (s : jsstring).

Definition statusEqb (a b : JobStatus) : bool :=
  match a, b with
  | pending, pending | running, running | completed, completed
  | failed, failed | suspended, suspended => true
  | _, _ => false
  end.

(** [JobData] (services/job-queue.ts). *)
Record JobData : Type := {
  jd_asin : option jsstring;
  jd_keyword : option jsstring;
  jd_limit : option Z;
  jd_country : option jsstring;
  jd_type : JobType
}.

(** The [input] column: a job payload, or the [{asin, cronPattern}] of a
    scheduled update. *)
Inductive JobInput : Type :=
  | InputData (d : JobData)
  | InputSchedule (asin cronPattern : jsstring).

(** A row of [scrape_jobs]. *)
Record JobRow : Type := {
  job_id : jsstring;
  job_type : JobType;
  status : JobStatus;
  input : option JobInput;
  output : option jsstring;
  error : option jsstring;
  isScheduled : bool;
  apiCallsUsed : Z;
  startedAt : option Date;
  completedAt : option Date;
  createdAt : Date;
  updatedAt : Date
}.

(** The object given to [.set(...)] on [scrape_jobs]: the columns it
    names. *)
Record JobPatch : Type := {
  set_status : option JobStatus;
  set_error : option jsstring;
  set_startedAt : option Date;
  set_completedAt : option Date;
  set_updatedAt : option Date
}.

Definition orElse {A : Type} (new : option A) (old : A) : A :=
  match new with Some a => a | None => old end.

Definition orKeep {A : Type} (new : option A) (old : option A) : option A :=
  match new with Some a => Some a | None => old end.

Definition applyPatch (p : JobPatch) (r : JobRow) : JobRow :=
  {| job_id := job_id r;
     job_type := job_type r;
     status := orElse (set_status p) (status r);
     input := input r;
     output := output r;
     error := orKeep (set_error p) (error r);
     isScheduled := isScheduled r;
     apiCallsUsed := apiCallsUsed r;
     startedAt := orKeep (set_startedAt p) (startedAt r);
     completedAt := orKeep (set_completedAt p) (completedAt r);
     createdAt := createdAt r;
     updatedAt := orElse (set_updatedAt p) (updatedAt r) |}.

(** A row of [products]. *)
Record ProductRow : Type := {
  p_id : jsstring;
  p_asin : jsstring;
  p_title : jsstring;
  p_description : option jsstring;
  p_brand : option jsstring;
  p_category : option jsstring;
  p_images : list jsstring;
  p_rating : option number;
  p_reviewCount : number;
  p_availability : option jsstring;
  p_currency : jsstring;
  p_specifications : list (jsstring * jsstring);
  p_features : list jsstring;
  p_createdAt : Date;
  p_updatedAt : Date
}.

(** A row of [api_usage]. *)
Record UsageRow : Type := {
  u_id : jsstring;
  month : jsstring;
  callsUsed : Z;
  callsLimit : Z;
  u_createdAt : Date;
  u_updatedAt : Date
}.

(** A request sent to the scraping API. *)
Inductive ApiCall : Type :=
  | ProductCall (asin : jsstring)
  | ReviewsCall (asin : jsstring) (page : Z).

(** What the collector has done, in order: a call of its
    [checkUsageLimit], a request sent by its client, a call of its
    [trackUsage]. *)
Inductive Event : Type :=
  | LimitChecked
  | Request (c : ApiCall)
  | UsageTracked (calls : Z).

(** Everything a call can read or change: the wall clock ([new Date()]
    reads [now]; it does not move during one call), the five tables the
    pipeline writes, the number of random identifiers drawn so far and the
    collector's events so far. *)
Record World : Type := {
  now : Date;
  scrapeJobs : list JobRow;
  products : list ProductRow;
  prices : list ProcessedPrice;
  reviewRows : list ProcessedReview;
  apiUsage : list UsageRow;
  drawn : nat;
  trace : list Event
}.

Definition withJobs (f : list JobRow -> list JobRow) (w : World) : World :=
  {| now := now w; scrapeJobs := f (scrapeJobs w); products := products w;
     prices := prices w; reviewRows := reviewRows w; apiUsage := apiUsage w;
     drawn := drawn w; trace := trace w |}.

Definition withUsage (f : list UsageRow -> list UsageRow) (w : World) : World :=
  {| now := now w; scrapeJobs := scrapeJobs w; products := products w;
     prices := prices w; reviewRows := reviewRows w; apiUsage := f (apiUsage w);
     drawn := drawn w; trace := trace w |}.

Definition withDrawn (w : World) : World :=
  {| now := now w; scrapeJobs := scrapeJobs w; products := products w;
     prices := prices w; reviewRows := reviewRows w; apiUsage := apiUsage w;
     drawn := S (drawn w); trace := trace w |}.

Definition withEvent (e : Event) (w : World) : World :=
  {| now := now w; scrapeJobs := scrapeJobs w; products := products w;
     prices := prices w; reviewRows := reviewRows w; apiUsage := apiUsage w;
     drawn := drawn w; trace := trace w ++ [e] |}.

(** ** Statements on [scrape_jobs] *)

Definition idIs (id : jsstring) (r : JobRow) : bool := eqb (job_id r) id.

Definition statusIs (s : JobStatus) (r : JobRow) : bool := statusEqb (status r) s.

(** [select().from(scrapeJobs).where(eq(scrapeJobs.id, id)).limit(1)] *)
Definition selectJob (id : jsstring) (t : list JobRow) : list JobRow :=
  firstn 1 (filter (idIs id) t).

(** [update(scrapeJobs).set(p).where(c)] *)
Definition updateJobs (c : JobRow -> bool) (p : JobPatch) (t : list JobRow)
  : list JobRow :=
  map (fun r => if c r then applyPatch p r else r) t.

(** The primary key: is there a row with this id? *)
Definition hasJob (id : jsstring) (t : list JobRow) : bool :=
  existsb (idIs id) t.

(** How many rows carry this id. *)
Definition countJobs (id : jsstring) (t : list JobRow) : nat :=
  List.length (filter (idIs id) t).

(** A statement another client of the database issues on [scrape_jobs]:
    the insert of a producer (scheduler.ts), or an update (the suspend and
    resume routes, the scheduler's cancellation, another worker).  Nothing
    in the repository deletes from this table.  A refused insert leaves the
    table as it is; its error goes to that client. *)
Inductive Stmt : Type :=
  | InsertJob (row : JobRow)
  | UpdateJobs (c : JobRow -> bool) (p : JobPatch).

Definition exec (s : Stmt) (t : list JobRow) : list JobRow :=
  match s with
  | InsertJob row => if hasJob (job_id row) t then t else t ++ [row]
  | UpdateJobs c p => updateJobs c p t
  end.

Definition execAll (l : list Stmt) (t : list JobRow) : list JobRow :=
  fold_left (fun t s => exec s t) l t.

(** [select().from(products).where(eq(products.asin, asin)).limit(1)] *)
Definition selectProduct (asin : jsstring) (t : list ProductRow) : list ProductRow :=
  firstn 1 (filter (fun r => eqb (p_asin r) asin) t).

(** ** Asynchronous code: state that survives a throw *)

Definition Async (A : Type) : Type := World -> outcome A * World.

Definition ret {A : Type} (a : A) : Async A := fun w => (Return a, w).

Definition throw {A : Type} (e : JsError) : Async A := fun w => (Throws e, w).

Definition bind {A B : Type} (m : Async A) (k : A -> Async B) : Async B :=
  fun w =>
    match m w with
    | (Return a, w') => k a w'
    | (Throws e, w') => (Throws e, w')
    end.

(** [try { m } catch (e) { h e }] *)
Definition tryCatch {A : Type} (m : Async A) (h : JsError -> Async A) : Async A :=
  fun w =>
    match m w with
    | (Return a, w') => (Return a, w')
    | (Throws e, w') => h e w'
    end.

Definition get : Async World := fun w => (Return w, w).

Definition modify (f : World -> World) : Async unit := fun w => (Return tt, f w).

(** A call whose result the outside world decides. *)
Definition lift {A : Type} (o : outcome A) : Async A := fun w => (o, w).

End Db.

Import Db.

Declare Scope async_scope.
Delimit Scope async_scope with async.
Notation "x <- m ;; k" := (bind m (fun x => k))
  (at level 61, m at next level, right associativity) : async_scope.
Notation "m ;;; k" := (bind m (fun _ => k))
  (at level 61, right associativity) : async_scope.

Local Open Scope async_scope.

(* ================================================================== *)
(** * What the outside decides *)
(* ================================================================== *)

Module Outside.

(** An answer of the product endpoint that is not the JSON [null]: its
    body as [{ ...response }] copies it, when it has the types of
    [rawProductSchema] ([None] when some field does not), and the ASIN
    nested under [product_information].  An answer that is no object (a
    number, a string, a boolean, an array) has none of these fields. *)
Record ProductResponse : Type := {
  body : option RawProduct;
  product_information_asin : option jsstring
}.

(** The collaborators the pipeline only calls:
    - [randomId k]: the [k]-th identifier of [crypto.randomUUID] or [nanoid];
    - [productEndpoint]: [makeRequest] on the product endpoint, retries
      included, which throws when they are used up; [None] is a body that
      parses to the JSON [null];
    - [getProductReviews]: the client's review call, which catches every
      failure and answers the empty page instead;
    - [insertFault]: a failure of the worker's insert that is not a
      constraint violation (connection lost, statement refused);
    - [uniqueViolation id]: the error the driver raises when an insert
      meets a row with the same primary key;
    - [invalidType s]: the error the driver raises when an insert into
      [scrape_jobs] carries the type [s], which is not a value of the
      enumeration [job_type];
    - [storeReal n]: what a [real] column keeps of the number [n], that is
      the nearest single-precision value, or the driver's error when [n] is
      out of that type's range;
    - [removeJob]: [JobQueue.removeJob], that is BullMQ's removal;
    - [others k]: the statements other clients of the database get
      executed while the worker waits at its [k]-th await. *)
Record t : Type := {
  randomId : nat -> jsstring;
  productEndpoint : jsstring -> outcome (option ProductResponse);
  getProductReviews : jsstring -> Z -> ReviewsResponse;
  insertFault : option JsError;
  uniqueViolation : jsstring -> JsError;
  invalidType : jsstring -> JsError;
  storeReal : number -> outcome number;
  removeJob : jsstring -> outcome unit;
  others : nat -> list Stmt
}.

End Outside.

Import Outside.

(* ================================================================== *)
(** * services/usage-tracker.ts *)
(* ================================================================== *)

Module Usage.

Record UsageTracker : Type := {
  monthlyLimit : Z;
  currentMonth : jsstring
}.

(** [getCurrentMonth], given what [new Date()] returned. *)
Definition getCurrentMonth (d : Date) : jsstring :=
  ofInt (getFullYear d) ++ str "-" ++ padStart2 (ofInt (getMonth d + 1)).

(** The constructor: it reads the clock. *)
Definition newUsageTracker (limit : Z) : Async UsageTracker :=
  w <- get ;;
  ret {| monthlyLimit := limit; currentMonth := getCurrentMonth (now w) |}.

Definition selectUsage (m : jsstring) (t : list UsageRow) : list UsageRow :=
  firstn 1 (filter (fun r => eqb (month r) m) t).

(** [getCurrentUsage]: the row of [this.currentMonth], created when
    missing. *)
Definition getCurrentUsage (o : Outside.t) (this : UsageTracker) : Async UsageRow :=
  w <- get ;;
  match selectUsage (currentMonth this) (apiUsage w) with
  | r :: _ => ret r
  | [] =>
      let newRecord := {| u_id := randomId o (drawn w);
                          month := currentMonth this;
                          callsUsed := 0;
                          callsLimit := monthlyLimit this;
                          u_createdAt := now w;
                          u_updatedAt := now w |} in
      modify withDrawn ;;;
      modify (withUsage (fun t => t ++ [newRecord])) ;;;
      ret newRecord
  end.

(** [recordUsage].  The counters are integers without bound here, while
    the column [calls_used] is a 32-bit integer: the database refuses an
    update that leaves its range, so what is said of the count written
    holds for counts in that range. *)
Definition recordUsage (o : Outside.t) (this : UsageTracker) (calls : Z) : Async unit :=
  usage <- getCurrentUsage o this ;;
  w <- get ;;
  modify (withUsage (map (fun r =>
    if eqb (u_id r) (u_id usage)
    then {| u_id := u_id r; month := month r;
            callsUsed := callsUsed usage + calls;
            callsLimit := callsLimit r;
            u_createdAt := u_createdAt r; u_updatedAt := now w |}
    else r))).

Definition canMakeCall (o : Outside.t) (this : UsageTracker) : Async bool :=
  usage <- getCurrentUsage o this ;;
  ret (callsUsed usage <? callsLimit usage).

Definition getRemainingCalls (o : Outside.t) (this : UsageTracker) : Async Z :=
  usage <- getCurrentUsage o this ;;
  ret (Z.max 0 (callsLimit usage - callsUsed usage)).

Record UsageStats : Type := {
  st_month : jsstring;
  st_callsUsed : Z;
  st_callsLimit : Z;
  st_remaining : Z;
  st_percentageUsed : number
}.

(** [(used / limit) * 100] *)
Definition percentage (used limit : Z) : number :=
  if limit =? 0 then
    (if used =? 0 then NaN else Inf (used <? 0))
  else Fin (Q2Qc (inject_Z used / inject_Z limit * inject_Z 100)).

Definition getUsageStats (o : Outside.t) (this : UsageTracker) : Async UsageStats :=
  usage <- getCurrentUsage o this ;;
  ret {| st_month := month usage;
         st_callsUsed := callsUsed usage;
         st_callsLimit := callsLimit usage;
         st_remaining := callsLimit usage - callsUsed usage;
         st_percentageUsed := percentage (callsUsed usage) (callsLimit usage) |}.

End Usage.

Import Usage.

(* ================================================================== *)
(** * services/scraperapi-client.ts and services/amazon-collector.ts *)
(* ================================================================== *)

Module Collector.

Definition withAsin (a : option jsstring) (r : RawProduct) : RawProduct :=
  {| r_asin := a; r_title := r_title r; r_name := r_name r;
     r_productName := r_productName r; r_description := r_description r;
     r_price := r_price r; r_pricing := r_pricing r;
     r_list_price := r_list_price r; r_currentPrice := r_currentPrice r;
     r_originalPrice := r_originalPrice r; r_currency := r_currency r;
     r_images := r_images r; r_image := r_image r;
     r_imageUrls := r_imageUrls r; r_rating := r_rating r;
     r_averageRating := r_averageRating r; r_reviewCount := r_reviewCount r;
     r_availability := r_availability r; r_seller := r_seller r;
     r_sellerName := r_sellerName r; r_specifications := r_specifications r;
     r_features := r_features r; r_brand := r_brand r;
     r_category := r_category r |}.

(** [if (!a && b) a = b] *)
Definition fallback (a b : option jsstring) : option jsstring :=
  match a with
  | Some (_ :: _) => a
  | _ => match b with
         | Some (_ :: _) => b
         | _ => a
         end
  end.

(** The object without a field: what [{ ...response }] is for the JSON
    [null]. *)
Definition noFields : RawProduct :=
  {| r_asin := None; r_title := None; r_name := None; r_productName := None;
     r_description := None; r_price := None; r_pricing := None;
     r_list_price := None; r_currentPrice := None; r_originalPrice := None;
     r_currency := None; r_images := None; r_image := None;
     r_imageUrls := None; r_rating := None; r_averageRating := None;
     r_reviewCount := None; r_availability := None; r_seller := None;
     r_sellerName := None; r_specifications := None; r_features := None;
     r_brand := None; r_category := None |}.

(** The error of [response.reviews] when [response] is [null]. *)
Definition nullResponse : JsError :=
  {| e_name := str "TypeError";
     e_message := str "Cannot read properties of null (reading 'reviews')";
     e_code := None;
     e_cause := None |}.

(** [ScraperAPIClient.getProductByASIN]: [None] is [null].  For the JSON
    [null] the copy of the response has no field, so that the requested
    ASIN is validated alone; when that succeeds the read of
    [response.reviews] throws.  The reviews the client attaches to a
    validated product under [_reviews] are read only by the part of the
    product handler that [Worker.Rest] leaves abstract, and are not carried
    here. *)
Definition getProductByASIN (o : Outside.t) (asin : jsstring)
  : Async (option ProductData) :=
  modify (withEvent (Request (ProductCall asin))) ;;;
  response <- lift (productEndpoint o asin) ;;
  match response with
  | None =>
      match productDataSchema (withAsin (fallback None (Some asin)) noFields) with
      | None => ret None
      | Some _ => throw nullResponse
      end
  | Some response =>
      match body response with
      | None => ret None
      | Some raw =>
          let nested := fallback (r_asin raw) (product_information_asin response) in
          let requested := fallback nested (Some asin) in
          ret (productDataSchema (withAsin requested raw))
      end
  end.

(** The collector holds the client and, optionally, a usage tracker. *)
Record AmazonCollector : Type := { usageTracker : option UsageTracker }.

Definition checkUsageLimit (o : Outside.t) (this : AmazonCollector) : Async unit :=
  modify (withEvent LimitChecked) ;;;
  match usageTracker this with
  | None => ret tt
  | Some tracker =>
      ok <- canMakeCall o tracker ;;
      if ok then ret tt
      else throw (Error (str
        "API usage limit reached. Please wait until next month or upgrade plan."))
  end.

Definition trackUsage (o : Outside.t) (this : AmazonCollector) (calls : Z) : Async unit :=
  modify (withEvent (UsageTracked calls)) ;;;
  match usageTracker this with
  | Some tracker => recordUsage o tracker calls
  | None => ret tt
  end.

Definition collectProductByASIN (o : Outside.t) (this : AmazonCollector)
    (asin : jsstring) : Async (option ProductData) :=
  checkUsageLimit o this ;;;
  product <- getProductByASIN o asin ;;
  trackUsage o this 1 ;;;
  ret product.

Definition collectPriceHistory := collectProductByASIN.

(** One review request, as the collector sees it. *)
Definition fetchReviews (o : Outside.t) (asin : jsstring) (page : Z)
  : Async ReviewsResponse :=
  modify (withEvent (Request (ReviewsCall asin page))) ;;;
  ret (getProductReviews o asin page).

(** [l.slice(0, e)] *)
Definition slice0 {A : Type} (l : list A) (e : Z) : list A :=
  let len := Z.of_nat (List.length l) in
  let final := if e <? 0 then Z.max (len + e) 0 else Z.min e len in
  firstn (Z.to_nat final) l.

(** [options.limit] as a condition: defined and not zero. *)
Definition truthyLimit (limit : option Z) : option Z :=
  match limit with
  | Some 0 => None
  | l => l
  end.

(** The [while] loop of [collectReviews].  [fuel] bounds the iterations
    the model may unfold; [None] says it ran out before the loop ended. *)
Fixpoint reviewsLoop (fuel : nat) (o : Outside.t) (this : AmazonCollector)
    (asin : jsstring) (limit : Z) (currentPage : Z)
    (allReviews : list ReviewData) : Async (option (list ReviewData)) :=
  if (Z.of_nat (List.length allReviews) <? limit) && (currentPage <=? 5) then
    match fuel with
    | O => ret None
    | S fuel' =>
        checkUsageLimit o this ;;;
        pageResponse <- fetchReviews o asin currentPage ;;
        trackUsage o this 1 ;;;
        let allReviews' := allReviews ++ reviews pageResponse in
        if (Z.of_nat (List.length (reviews pageResponse)) =? 0)
        then ret (Some allReviews')
        else reviewsLoop fuel' o this asin limit (currentPage + 1) allReviews'
    end
  else ret (Some allReviews).

Definition collectReviews (fuel : nat) (o : Outside.t) (this : AmazonCollector)
    (asin : jsstring) (limit : option Z) : Async (option ReviewsResponse) :=
  checkUsageLimit o this ;;;
  response <- fetchReviews o asin 1 ;;
  trackUsage o this 1 ;;;
  match truthyLimit limit with
  | Some l =>
      if Z.of_nat (List.length (reviews response)) <? l then
        r <- reviewsLoop fuel o this asin l 2 (reviews response) ;;
        match r with
        | None => ret None
        | Some allReviews =>
            ret (Some {| reviews := slice0 allReviews l;
                         averageRating := averageRating response;
                         totalReviews := totalReviews response |})
        end
      else
        ret (Some {| reviews := slice0 (reviews response) l;
                     averageRating := averageRating response;
                     totalReviews := totalReviews response |})
  | None => ret (Some response)
  end.

(** Review requests sent between two worlds. *)
Definition isReviewsCall (e : Event) : bool :=
  match e with Request (ReviewsCall _ _) => true | _ => false end.

Definition pagesFetched (before after : World) : Z :=
  Z.of_nat (List.length (filter isReviewsCall (trace after)))
  - Z.of_nat (List.length (filter isReviewsCall (trace before))).

(** One round of the collector for a page of reviews. *)
Definition round (asin : jsstring) (page : Z) : list Event :=
  [LimitChecked; Request (ReviewsCall asin page); UsageTracked 1].

(** The rounds for pages [first], [first + 1], ... ([n] of them). *)
Fixpoint rounds (asin : jsstring) (first : Z) (n : nat) : list Event :=
  match n with
  | O => []
  | S n' => round asin first ++ rounds asin (first + 1) n'
  end.

(** The reviews of pages [first], [first + 1], ... ([n] of them), as the
    client returns them. *)
Fixpoint pagesFrom (o : Outside.t) (asin : jsstring) (first : Z) (n : nat)
  : list ReviewData :=
  match n with
  | O => []
  | S n' => reviews (getProductReviews o asin first) ++ pagesFrom o asin (first + 1) n'
  end.

End Collector.

Import Collector.

(* ================================================================== *)
(** * services/scheduler.ts *)
(* ================================================================== *)

Module Scheduler.

Definition cancelledPatch (d : Date) : JobPatch :=
  {| set_status := Some failed;
     set_error := Some (str "Cancelled by user");
     set_startedAt := None;
     set_completedAt := Some d;
     set_updatedAt := None |}.

(** [cancelScheduledJob]: the job leaves the queue, then the update whose
    condition is [eq(scrapeJobs.status, "pending")]. *)
Definition cancelScheduledJob (o : Outside.t) (jobId : jsstring) : Async unit :=
  lift (removeJob o jobId) ;;;
  w <- get ;;
  modify (withJobs (updateJobs (statusIs pending) (cancelledPatch (now w)))).

End Scheduler.

Import Scheduler.

(* ================================================================== *)
(** * workers/collection-worker.ts *)
(* ================================================================== *)

Module Worker.

(** The pattern of [extractPostgresErrorCode] tried at the head of [s]:
    [code:], white space, a double quote (code unit 34), one or more
    characters other than a double quote, a double quote. *)
Fixpoint takeNonQuote (s : jsstring) : jsstring * jsstring :=
  match s with
  | c :: s' =>
      if (c =? 34)%N then ([], s)
      else let (g, r) := takeNonQuote s' in (c :: g, r)
  | [] => ([], [])
  end.

Definition matchCodeAt (s : jsstring) : option jsstring :=
  if startsWith (str "code:") s then
    match trimStart (skipn 5 s) with
    | 34%N :: r =>
        match takeNonQuote r with
        | (c :: g, 34%N :: _) => Some (c :: g)
        | _ => None
        end
    | _ => None
    end
  else None.

(** The leftmost match, if any. *)
Fixpoint extractPostgresErrorCode (detail : jsstring) : option jsstring :=
  match matchCodeAt detail with
  | Some g => Some g
  | None =>
      match detail with
      | [] => None
      | _ :: d' => extractPostgresErrorCode d'
      end
  end.

(** The classification of a failed insert in [processJob]. *)
Definition causeField (f : Cause -> option jsstring) (e : JsError) : option jsstring :=
  match e_cause e with
  | Some c => f c
  | None => None
  end.

Definition errorMessageOf (insertError : JsError) : jsstring :=
  match fallback (Some (e_message insertError)) (causeField c_message insertError) with
  | Some (c :: m) => c :: m
  | _ => errorToString insertError
  end.

Definition errorCodeOf (insertError : JsError) : option jsstring :=
  match fallback (e_code insertError) (causeField c_code insertError) with
  | Some (c :: code) => Some (c :: code)
  | _ =>
      match causeField c_detail insertError with
      | Some (c :: detail) => extractPostgresErrorCode (c :: detail)
      | _ => None
      end
  end.

Definition isDuplicateKey (insertError : JsError) : bool :=
  let errorMessage := errorMessageOf insertError in
  let errorString := errorToString insertError in
  let errorCode := errorCodeOf insertError in
  match errorCode with
  | Some code => eqb code (str "23505")
  | None => false
  end
  || includes errorMessage (str "duplicate key")
  || includes errorMessage (str "23505")
  || includes errorString (str "duplicate key")
  || includes errorString (str "23505").

(** The job handed over by the queue. *)
Record Job : Type := { id : jsstring; data : JobData }.

Definition runningPatch (d : Date) : JobPatch :=
  {| set_status := Some running;
     set_error := None;
     set_startedAt := Some d;
     set_completedAt := None;
     set_updatedAt := Some d |}.

Definition completedPatch (d : Date) : JobPatch :=
  {| set_status := Some completed;
     set_error := None;
     set_startedAt := None;
     set_completedAt := Some d;
     set_updatedAt := Some d |}.

Definition failedPatch (msg : jsstring) (d : Date) : JobPatch :=
  {| set_status := Some failed;
     set_error := Some msg;
     set_startedAt := None;
     set_completedAt := Some d;
     set_updatedAt := Some d |}.

(** The row the worker inserts for a job it sees for the first time. *)
Definition newRunningRow (job : Job) (d : Date) : JobRow :=
  {| job_id := id job;
     job_type := jd_type (data job);
     status := running;
     input := Some (InputData (data job));
     output := None;
     error := None;
     isScheduled := false;
     apiCallsUsed := 0;
     startedAt := Some d;
     completedAt := None;
     createdAt := d;
     updatedAt := d |}.

(** While the worker waits for a statement, other clients' statements
    run. *)
Definition await (o : Outside.t) (k : nat) : Async unit :=
  modify (withJobs (execAll (others o k))).

Definition markRunning (jobId : jsstring) : Async unit :=
  w <- get ;;
  modify (withJobs (updateJobs (idIs jobId) (runningPatch (now w)))).

(** [db.insert(scrapeJobs).values(row)]: refused by a fault, or because
    the row's type is not a value of the enumeration [job_type], or by the
    primary key when a row with this id is there. *)
Definition insertJob (o : Outside.t) (row : JobRow) : Async unit :=
  fun w =>
    match insertFault o with
    | Some e => (Throws e, w)
    | None =>
        match job_type row with
        | T_other s => (Throws (invalidType o s), w)
        | _ =>
            if hasJob (job_id row) (scrapeJobs w)
            then (Throws (uniqueViolation o (job_id row)), w)
            else (Return tt, withJobs (fun t => t ++ [row]) w)
        end
    end.

(** The [catch (insertError)] block. *)
Definition onInsertError (o : Outside.t) (jobId : jsstring) (insertError : JsError)
  : Async unit :=
  if isDuplicateKey insertError then
    await o 2 ;;;
    w <- get ;;
    match selectJob jobId (scrapeJobs w) with
    | _ :: _ => await o 3 ;;; markRunning jobId
    | [] => throw insertError
    end
  else throw insertError.

(** The dequeue-time protocol of [processJob], lines 78-146.  The result
    says whether the job goes on ([false] is the early [return] of a
    suspended job).  Other clients' statements run between the worker's
    own: after the look-up (await 1), after a refused insert (await 2), and
    after the second look-up (await 3). *)
Definition reconcile (o : Outside.t) (job : Job) : Async bool :=
  let jobId := id job in
  w <- get ;;
  match selectJob jobId (scrapeJobs w) with
  | existing :: _ =>
      if statusIs suspended existing then ret false
      else
        await o 1 ;;;
        markRunning jobId ;;;
        ret true
  | [] =>
      await o 1 ;;;
      w1 <- get ;;
      tryCatch (insertJob o (newRunningRow job (now w1)))
               (onInsertError o jobId) ;;;
      ret true
  end.

(** ** The handlers *)

Definition requireAsin (what : string) (d : JobData) : Async jsstring :=
  match jd_asin d with
  | Some (c :: a) => ret (c :: a)
  | _ => throw (Error (str "ASIN is required for " ++ str what ++ str " job"))
  end.

Definition fetchFailed (asin : jsstring) : JsError :=
  Error (str "Failed to fetch product data for ASIN: " ++ asin ++ str
    ". Product validation failed or product not found. ScraperAPI have returned invalid data.").

Definition notFound (asin : jsstring) : JsError :=
  Error (str "Product with ASIN " ++ asin ++ str " not found").

(** What this development leaves abstract: the part of [processProductJob]
    that follows a validated product (lines 222-355: upsert, price
    snapshot, reviews), [processSearchJob] and [processReviewJob]. *)
Record Rest : Type := {
  persistProduct : JobData -> ProductData -> Async unit;
  processSearchJob : JobData -> Async unit;
  processReviewJob : JobData -> Async unit
}.

Record CollectionWorker : Type := {
  collector : AmazonCollector;
  rest : Rest
}.

Definition processProductJob (o : Outside.t) (this : CollectionWorker)
    (d : JobData) : Async unit :=
  asin <- requireAsin "product" d ;;
  w <- get ;;
  let existingProduct := selectProduct asin (products w) in
  productData <- collectProductByASIN o (collector this) asin ;;
  match productData with
  | None =>
      match existingProduct with
      | _ :: _ => ret tt
      | [] => throw (fetchFailed asin)
      end
  | Some pd => persistProduct (rest this) d pd
  end.

Definition withPrices (f : list ProcessedPrice -> list ProcessedPrice) (w : World)
  : World :=
  {| now := now w; scrapeJobs := scrapeJobs w; products := products w;
     prices := f (prices w); reviewRows := reviewRows w; apiUsage := apiUsage w;
     drawn := drawn w; trace := trace w |}.

Definition typeError (msg : string) : JsError :=
  {| e_name := str "TypeError"; e_message := str msg; e_code := None;
     e_cause := None |}.

(** What a nullable [real] column keeps. *)
Definition storeOptional (o : Outside.t) (n : option number) : outcome (option number) :=
  match n with
  | None => Return None
  | Some x =>
      match storeReal o x with
      | Return v => Return (Some v)
      | Throws e => Throws e
      end
  end.

(** [db.insert(prices).values(price)]: the columns [price],
    [original_price] and [seller_rating] are [real]; the row is refused when
    one of them is out of range. *)
Definition insertPrice (o : Outside.t) (p : ProcessedPrice) : Async unit :=
  match storeReal o (pp_price p) with
  | Throws e => throw e
  | Return kept =>
      match storeOptional o (pp_originalPrice p) with
      | Throws e => throw e
      | Return keptOriginal =>
          match storeOptional o (pp_sellerRating p) with
          | Throws e => throw e
          | Return keptRating =>
              modify (withPrices (fun t => t ++
                [{| pp_id := pp_id p;
                    pp_productId := pp_productId p;
                    pp_price := kept;
                    pp_originalPrice := keptOriginal;
                    pp_currency := pp_currency p;
                    pp_availability := pp_availability p;
                    pp_sellerName := pp_sellerName p;
                    pp_sellerRating := keptRating;
                    pp_primeEligible := pp_primeEligible p |}]))
          end
      end
  end.

Definition processPriceUpdateJob (o : Outside.t) (this : CollectionWorker)
    (d : JobData) : Async unit :=
  asin <- requireAsin "price update" d ;;
  w <- get ;;
  match selectProduct asin (products w) with
  | [] => throw (notFound asin)
  | productRecord :: _ =>
      productData <- collectPriceHistory o (collector this) asin ;;
      match productData with
      | None => throw (typeError "Cannot read properties of null (reading 'price')")
      | Some pd =>
          w' <- get ;;
          match processPrice (randomId o (drawn w')) pd (p_id productRecord) with
          | Some p =>
              modify withDrawn ;;;
              insertPrice o p
          | None => ret tt
          end
      end
  end.

Definition withProducts (f : list ProductRow -> list ProductRow) (w : World)
  : World :=
  {| now := now w; scrapeJobs := scrapeJobs w; products := f (products w);
     prices := prices w; reviewRows := reviewRows w; apiUsage := apiUsage w;
     drawn := drawn w; trace := trace w |}.

Definition dispatch (o : Outside.t) (this : CollectionWorker) (d : JobData)
  : Async unit :=
  match jd_type d with
  | T_product => processProductJob o this d
  | T_search => processSearchJob (rest this) d
  | T_review => processReviewJob (rest this) d
  | T_price_update => processPriceUpdateJob o this d
  | T_other s => throw (Error (str "Unknown job type: " ++ s))
  end.

(** [if (dbJobId) update ... where id = dbJobId] *)
Definition finalize (dbJobId : jsstring) (p : Date -> JobPatch) : Async unit :=
  if truthyStr dbJobId then
    w <- get ;;
    modify (withJobs (updateJobs (idIs dbJobId) (p (now w))))
  else ret tt.

Definition processJob (o : Outside.t) (this : CollectionWorker) (job : Job)
  : Async unit :=
  let dbJobId := id job in
  tryCatch
    (proceed <- reconcile o job ;;
     if proceed then
       dispatch o this (data job) ;;;
       finalize dbJobId completedPatch
     else ret tt)
    (fun error =>
       finalize dbJobId (failedPatch (e_message error)) ;;;
       throw error).

End Worker.

Import Worker.

(* ================================================================== *)
(** * The specification's vocabulary, and the data of its scenarios *)
(* ================================================================== *)

Module Spec.

(** Every field of a raw review but its rating is accepted by its member
    of [reviewDataSchema]. *)
Definition otherFieldsAccepted (r : RawReview) : bool :=
  match optionalString (rr_title r), stringWithDefault [] (rr_text r),
        stringWithDefault (str "Anonymous") (rr_author r),
        optionalString (rr_date r), optionalBool (rr_verified r),
        helpfulCountField (rr_helpfulCount r) with
  | Some _, Some _, Some _, Some _, Some _, Some _ => true
  | _, _, _, _, _, _ => false
  end.

(** The specification's reason to exclude a review: its rating lies
    outside [1,5], or its text is empty or white space only. *)
Definition ratingInRange (r : ReviewData) : bool :=
  ge (rv_rating r) (ofZ 1) && le (rv_rating r) (ofZ 5).

Definition blankText (r : ReviewData) : bool := eqb (trim (rv_text r)) [].

Definition excluded (r : ReviewData) : bool :=
  negb (ratingInRange r) || blankText r.

Definition B000000000 : jsstring := str "B000000000".

(** [{current: 50, original: 75, currency: "EUR"}] *)
Definition structuredPrice : PriceObject :=
  {| po_current := ofZ 50; po_original := Some (ofZ 75);
     po_currency := Some (str "EUR") |}.

(** Two instants a day apart, in two calendar months. *)
Definition jan31 : Date :=
  {| getTime := 1738324800000; getFullYear := 2025; getMonth := 0 |}.

Definition feb01 : Date :=
  {| getTime := 1738411200000; getFullYear := 2025; getMonth := 1 |}.

(** A world with empty tables, and an outside in which nothing fails and
    nobody else touches the database: the product endpoint answers with a
    body that does not validate, every page of reviews is empty, the
    driver reports a violated primary key and a type outside the
    enumeration the way node-postgres does, and the numbers of the
    scenarios, which are single-precision values, are kept as they are. *)
Definition emptyWorld (d : Date) : World :=
  {| now := d; scrapeJobs := []; products := []; prices := [];
     reviewRows := []; apiUsage := []; drawn := 0; trace := [] |}.

Definition emptyPage : ReviewsResponse :=
  {| reviews := []; averageRating := ofZ 0; totalReviews := ofZ 0 |}.

Definition pgUniqueViolation (id : jsstring) : JsError :=
  {| e_name := str "error";
     e_message := str "duplicate key value violates unique constraint scrape_jobs_pkey";
     e_code := Some (str "23505");
     e_cause := None |}.

Definition pgInvalidType (s : jsstring) : JsError :=
  {| e_name := str "error";
     e_message := str "invalid input value for enum job_type: " ++ 34%N :: s ++ [34%N];
     e_code := Some (str "22P02");
     e_cause := None |}.

Definition quiet : Outside.t :=
  {| randomId := fun k => str "id-" ++ ofInt (Z.of_nat k);
     productEndpoint := fun _ =>
       Return (Some {| body := None; product_information_asin := None |});
     getProductReviews := fun _ _ => emptyPage;
     insertFault := None;
     uniqueViolation := pgUniqueViolation;
     invalidType := pgInvalidType;
     storeReal := fun n => Return n;
     removeJob := fun _ => Return tt;
     others := fun _ => [] |}.

(** The error of an exhausted quota. *)
Definition quotaExceeded : JsError :=
  Error (str "API usage limit reached. Please wait until next month or upgrade plan.").

(** What a call of the collector leaves alone: the clock and every table
    but [api_usage]. *)
Definition untouched (w w' : World) : Prop :=
  now w' = now w /\ scrapeJobs w' = scrapeJobs w /\ products w' = products w
  /\ prices w' = prices w /\ reviewRows w' = reviewRows w.

(** The claim's stopping rule for [collectReviews], after [n] pages: the
    accumulated reviews meet the limit, or the page just fetched (not the
    first) is empty, or five pages have been fetched. *)
Definition pageOf (o : Outside.t) (asin : jsstring) (n : nat) : list ReviewData :=
  reviews (getProductReviews o asin (Z.of_nat n)).

Definition accumulated (o : Outside.t) (asin : jsstring) (n : nat) : Z :=
  Z.of_nat (List.length (pagesFrom o asin 1 n)).

Definition isEmpty {A : Type} (l : list A) : bool :=
  match l with [] => true | _ => false end.

Definition stopsAt (o : Outside.t) (asin : jsstring) (limit : Z) (n : nat) : bool :=
  (limit <=? accumulated o asin n)
  || ((2 <=? n)%nat && isEmpty (pageOf o asin n))
  || (n =? 5)%nat.

(** The number of pages the rule asks for: the first of 1, ..., 5 at which
    it stops. *)
Definition pagesToFetch (o : Outside.t) (asin : jsstring) (limit : Z) : nat :=
  match find (stopsAt o asin limit) (seq 1 5) with
  | Some n => n
  | None => 5
  end.

(** The scenario of the first page holding one review and the limit
    being zero or three: the outside [onePage], in which page 1 has the
    review [aReview] and every other page is empty. *)
Definition aReview : ReviewData :=
  {| rv_rating := ofZ 5; rv_title := None; rv_text := str "Great";
     rv_author := str "Anonymous"; rv_date := None;
     rv_verified := Some false; rv_helpfulCount := None |}.

Definition pageWith (l : list ReviewData) : ReviewsResponse :=
  {| reviews := l; averageRating := ofZ 5; totalReviews := ofZ 1 |}.

Definition onePage : Outside.t :=
  {| randomId := randomId quiet;
     productEndpoint := productEndpoint quiet;
     getProductReviews := fun _ page => if page =? 1 then pageWith [aReview] else emptyPage;
     insertFault := None;
     uniqueViolation := uniqueViolation quiet;
     invalidType := invalidType quiet;
     storeReal := storeReal quiet;
     removeJob := removeJob quiet;
     others := others quiet |}.

Definition noTracker : AmazonCollector := {| usageTracker := None |}.

(** The primary key of [scrape_jobs]: no two rows share an id. *)
Definition keyed (t : list JobRow) : Prop := NoDup (map job_id t).

(** What the worker's reconciliation leaves alone: everything but
    [scrape_jobs]. *)
Definition onlyJobs (w w' : World) : Prop :=
  now w' = now w /\ products w' = products w /\ prices w' = prices w
  /\ reviewRows w' = reviewRows w /\ apiUsage w' = apiUsage w
  /\ drawn w' = drawn w /\ trace w' = trace w.

(** A row as a producer inserts it (scheduler.ts), but for its status. *)
Definition rowOf (id : jsstring) (st : JobStatus) (d : Date) : JobRow :=
  {| job_id := id; job_type := T_product; status := st;
     input := None; output := None; error := None; isScheduled := false;
     apiCallsUsed := 0; startedAt := None; completedAt := None;
     createdAt := d; updatedAt := d |}.

Definition withRows (t : list JobRow) : World :=
  withJobs (fun _ => t) (emptyWorld jan31).

(** The product job for B000000000, queued under the id ["1"]. *)
Definition productJob : Job :=
  {| id := str "1";
     data := {| jd_asin := Some B000000000; jd_keyword := None; jd_limit := None;
                jd_country := None; jd_type := T_product |} |}.

(** An outside in which a producer inserts the record of job ["1"] while
    the worker is between its look-up and its own insert. *)
Definition racing : Outside.t :=
  {| randomId := randomId quiet;
     productEndpoint := productEndpoint quiet;
     getProductReviews := getProductReviews quiet;
     insertFault := None;
     uniqueViolation := pgUniqueViolation;
     invalidType := invalidType quiet;
     storeReal := storeReal quiet;
     removeJob := removeJob quiet;
     others := fun k => match k with
                        | 1%nat => [InsertJob (rowOf (str "1") pending jan31)]
                        | _ => []
                        end |}.

(** An outside in which the worker's insert fails because the connection
    is lost. *)
Definition connectionLost : JsError := Error (str "Connection terminated unexpectedly").

Definition disconnected : Outside.t :=
  {| randomId := randomId quiet;
     productEndpoint := productEndpoint quiet;
     getProductReviews := getProductReviews quiet;
     insertFault := Some connectionLost;
     uniqueViolation := pgUniqueViolation;
     invalidType := invalidType quiet;
     storeReal := storeReal quiet;
     removeJob := removeJob quiet;
     others := fun _ => [] |}.

(** A worker without a usage tracker whose abstract handlers do
    nothing. *)
Definition idleRest : Rest :=
  {| persistProduct := fun _ _ => ret tt;
     processSearchJob := fun _ => ret tt;
     processReviewJob := fun _ => ret tt |}.

Definition plainWorker : CollectionWorker :=
  {| collector := noTracker; rest := idleRest |}.

(** A stored product with the ASIN B000000000. *)
Definition storedProduct : ProductRow :=
  {| p_id := str "p1"; p_asin := B000000000; p_title := str "Stored";
     p_description := None; p_brand := None; p_category := None;
     p_images := []; p_rating := None; p_reviewCount := ofZ 0;
     p_availability := None; p_currency := str "USD";
     p_specifications := []; p_features := [];
     p_createdAt := jan31; p_updatedAt := jan31 |}.

Definition withStoredProduct : World :=
  withProducts (fun _ => [storedProduct]) (emptyWorld jan31).

(** The worlds of the scenario of the product job for B000000000 on an
    empty database: after the dequeue-time protocol, and after the fetch
    that yields no validated product. *)
Definition started : World := snd (reconcile quiet productJob (emptyWorld jan31)).

Definition fetched : World :=
  snd (collectProductByASIN quiet noTracker B000000000 started).

End Spec.

Import Spec.

(* ================================================================== *)
(** * services/data-processor.ts: identifiers, text and products *)
(* ================================================================== *)

Module Entity.

(** ** toUpperCase

    Upper-casing maps each code point on its own, and a code unit below
    128 is a code point of its own: the letters [a]-[z] go to [A]-[Z] and
    every other ASCII unit stays.  What becomes of a maximal run of units
    from 128 on (letters with accents, ligatures, surrogate pairs) is the
    host's business: [host] is that map. *)
Definition asciiUpper (c : N) : N :=
  if ((97 <=? c) && (c <=? 122))%N then (c - 32)%N else c.

Definition flush (host : jsstring -> jsstring) (run : jsstring) : jsstring :=
  match run with
  | [] => []
  | _ => host run
  end.

Fixpoint upperFrom (host : jsstring -> jsstring) (run s : jsstring) : jsstring :=
  match s with
  | [] => flush host run
  | c :: s' =>
      if (c <? 128)%N
      then flush host run ++ asciiUpper c :: upperFrom host [] s'
      else upperFrom host (run ++ [c]) s'
  end.

Definition toUpperCase (host : jsstring -> jsstring) (s : jsstring) : jsstring :=
  upperFrom host [] s.

(** The pattern of an ASIN: [B], then nine of [A]-[Z] and [0]-[9], and
    nothing else. *)
Definition isUpperAlnum (c : N) : bool :=
  ((65 <=? c) && (c <=? 90) || (48 <=? c) && (c <=? 57))%N.

Definition matchesAsin (s : jsstring) : bool :=
  match s with
  | 66%N :: rest => (List.length rest =? 9)%nat && forallb isUpperAlnum rest
  | _ => false
  end.

Section WithHost.

(** [host]: the host's upper-casing outside ASCII; [isURL]: does
    [new URL(img)] accept the string. *)
Variable host : jsstring -> jsstring.
Variable isURL : jsstring -> bool.

(** [validateASIN]; the parameter is typed as a string. *)
Definition validateASIN (asin : jsstring) : outcome jsstring :=
  if negb (truthyStr asin)
  then Throws (Error (str "Invalid ASIN: must be a non-empty string"))
  else
    let cleaned := toUpperCase host (trim asin) in
    if matchesAsin cleaned
    then Return cleaned
    else Throws (Error (str "Invalid ASIN format: " ++ asin)).

(** [isValidASIN]; [None] is [undefined] or [null]. *)
Definition isValidASIN (asin : option jsstring) : bool :=
  match asin with
  | Some (c :: a) => matchesAsin (toUpperCase host (trim (c :: a)))
  | _ => false
  end.

Definition normalizeImages (images : list jsstring) : list jsstring :=
  filter isURL images.

Record ProcessedProduct : Type := {
  pd_id : jsstring;
  pd_asin : jsstring;
  pd_title : jsstring;
  pd_description : option jsstring;
  pd_brand : option jsstring;
  pd_category : option jsstring;
  pd_images : list jsstring;
  pd_rating : option number;
  pd_reviewCount : number;
  pd_availability : option jsstring;
  pd_currency : jsstring;
  pd_specifications : list (jsstring * jsstring);
  pd_features : list jsstring
}.

(** [processProduct]; [nanoid] is the identifier [nanoid()] would draw,
    used when no [productId] is given. *)
Definition processProduct (nanoid : jsstring) (data : ProductData)
    (productId : option jsstring) : outcome ProcessedProduct :=
  let id := match productId with
            | Some (c :: i) => c :: i
            | _ => nanoid
            end in
  match validateASIN (asin data) with
  | Throws e => Throws e
  | Return a =>
      Return {| pd_id := id;
                pd_asin := a;
                pd_title := normalizeText (title data);
                pd_description := normalizeOpt (description data);
                pd_brand := normalizeOpt (brand data);
                pd_category := normalizeOpt (category data);
                pd_images := normalizeImages
                               (match images data with Some l => l | None => [] end);
                pd_rating := option_map value (rating data);
                pd_reviewCount := match rating data with
                                  | Some r => if truthyNum (count r) then count r else ofZ 0
                                  | None => ofZ 0
                                  end;
                pd_availability := normalizeOpt (availability data);
                pd_currency := match price data with
                               | Some p => if truthyStr (currency p) then currency p
                                           else str "USD"
                               | None => str "USD"
                               end;
                pd_specifications := match specifications data with
                                     | Some l => l
                                     | None => []
                                     end;
                pd_features := match features data with
                               | Some l => l
                               | None => []
                               end |}
  end.

End WithHost.

(** ** The shape of normalized text *)

(** [trimEnd], by recursion from the front. *)
Fixpoint trimEndR (s : jsstring) : jsstring :=
  match s with
  | [] => []
  | c :: s' =>
      match trimEndR s' with
      | [] => if isWhiteSpace c then [] else [c]
      | r => c :: r
      end
  end.

(** Text is tidy from a position on when the only white space in it is the
    space (32), no two spaces are adjacent, none is last, and, when
    [afterSpace], none is first. *)
Fixpoint tidyFrom (afterSpace : bool) (s : jsstring) : bool :=
  match s with
  | [] => negb afterSpace
  | c :: s' =>
      if (c =? 32)%N then negb afterSpace && tidyFrom true s'
      else negb (isWhiteSpace c) && tidyFrom false s'
  end.

Definition isTidy (s : jsstring) : bool :=
  match s with
  | [] => true
  | _ => tidyFrom true s
  end.

(** The last code unit is not white space (true of the empty text). *)
Fixpoint endsClean (s : jsstring) : bool :=
  match s with
  | [] => true
  | [c] => negb (isWhiteSpace c)
  | _ :: s' => endsClean s'
  end.

(** The host of a machine that upper-cases nothing outside ASCII. *)
Definition plainHost (run : jsstring) : jsstring := run.

End Entity.

Import Entity.

(* ================================================================== *)
(** * schemas/scraperapi.schema.ts: the response schemas, and
      services/scraperapi-client.ts *)
(* ================================================================== *)

Module Client.

(** ** parseInt(s, 10)

    Leading white space is skipped, then an optional sign and the longest
    run of decimal digits are read; no digit gives NaN. *)
Definition parseInt10 (s : jsstring) : number :=
  match trimStart s with
  | 43%N :: r =>
      match fst (takeDigits r) with [] => NaN | d => ofZ (digitsValue d) end
  | 45%N :: r =>
      match fst (takeDigits r) with [] => NaN | d => ofZ (- digitsValue d) end
  | t =>
      match fst (takeDigits t) with [] => NaN | d => ofZ (digitsValue d) end
  end.

(** ** searchResponseSchema *)

Record RawSearch : Type := {
  rs_products : option (list RawProduct);
  rs_totalResults : option number;
  rs_query : option jsstring
}.

Record SearchResponse : Type := {
  sr_products : list ProductData;
  sr_totalResults : number;
  sr_query : jsstring
}.

Definition isSome {A : Type} (o : option A) : bool :=
  match o with Some _ => true | None => false end.

(** The loop of the transform: each raw product is validated on its own;
    the valid ones are kept, the others counted. *)
Fixpoint validProducts (rawProducts : list RawProduct) : list ProductData :=
  match rawProducts with
  | [] => []
  | rawProduct :: l =>
      match productDataSchema rawProduct with
      | Some p => p :: validProducts l
      | None => validProducts l
      end
  end.

Fixpoint skippedCount (rawProducts : list RawProduct) : nat :=
  match rawProducts with
  | [] => 0
  | rawProduct :: l =>
      match productDataSchema rawProduct with
      | Some _ => skippedCount l
      | None => S (skippedCount l)
      end
  end.

Definition searchResponseSchema (data : RawSearch) : SearchResponse :=
  let rawProducts := match rs_products data with Some l => l | None => [] end in
  let valid := validProducts rawProducts in
  {| sr_products := valid;
     sr_totalResults := match rs_totalResults data with
                        | Some n => n
                        | None => ofZ (Z.of_nat (List.length valid))
                        end;
     sr_query := match rs_query data with Some q => q | None => [] end |}.

(** ** reviewsResponseSchema *)

Record ReviewsBody : Type := {
  rb_reviews : option (list RawReview);
  rb_averageRating : jsval;
  rb_totalReviews : jsval
}.

(** [z.array(reviewDataSchema)]: every element has to validate. *)
Fixpoint allReviews (l : list RawReview) : option (list ReviewData) :=
  match l with
  | [] => Some []
  | r :: l' =>
      match reviewDataSchema r, allReviews l' with
      | Some d, Some ds => Some (d :: ds)
      | _, _ => None
      end
  end.

(** [z.union([z.number(), z.string()]).optional().transform(...).default(0)]
    with [parse] the parser its transform applies to a string. *)
Definition numberOrZero (parse : jsstring -> number) (v : jsval) : option number :=
  match v with
  | VUndefined => Some (ofZ 0)
  | VNum n => if isNaN n then None else Some n
  | VStr s => let num := parse s in Some (if isNaN num then ofZ 0 else num)
  | _ => None
  end.

Definition reviewsResponseSchema (data : ReviewsBody) : option ReviewsResponse :=
  match allReviews (match rb_reviews data with Some l => l | None => [] end),
        numberOrZero parseFloat (rb_averageRating data),
        numberOrZero parseInt10 (rb_totalReviews data) with
  | Some rs, Some avg, Some total =>
      Some {| reviews := rs; averageRating := avg; totalReviews := total |}
  | _, _, _ => None
  end.

(** ** ScraperAPIClient.getProductReviews

    [answer] is what [makeRequest] did: it threw, or it returned a body,
    which has the types of the schema or does not ([None]). *)
Definition noReviews : ReviewsResponse :=
  {| reviews := []; averageRating := ofZ 0; totalReviews := ofZ 0 |}.

Definition getProductReviewsFrom (answer : outcome (option ReviewsBody))
  : ReviewsResponse :=
  match answer with
  | Return (Some response) =>
      match reviewsResponseSchema response with
      | Some validated => validated
      | None => noReviews
      end
  | Return None => noReviews
  | Throws _ => noReviews
  end.

(** ** ScraperAPIClient.searchProducts

    The body of the search endpoint's answer, as far as the client looks
    at it.  A field that should hold the items is falsy, or holds
    something that is not an array, or an array, whose elements have the
    types of [rawProductSchema] or do not ([None]). *)
Inductive ItemsField : Type :=
  | Falsy
  | NotAnArray
  | Items (l : list (option RawProduct)).

Record SearchObject : Type := {
  so_products : ItemsField;
  so_results : ItemsField;
  so_totalResults : jsval;
  so_total : jsval;
  so_query : jsval
}.

(** Not an object (null and undefined included), an array, or an
    object. *)
Inductive SearchBody : Type :=
  | NotAnObject
  | BareArray (l : list (option RawProduct))
  | AnObject (o : SearchObject).

Definition truthyVal (v : jsval) : bool :=
  match v with
  | VUndefined | VNull => false
  | VBool b => b
  | VNum n => truthyNum n
  | VStr s => truthyStr s
  | VObject => true
  end.

(** [a || b] *)
Definition orVal (a b : jsval) : jsval := if truthyVal a then a else b.

(** [a ?? b] *)
Definition nullish (a b : jsval) : jsval :=
  match a with
  | VUndefined | VNull => b
  | _ => a
  end.

Definition truthyItems (f : ItemsField) : bool :=
  match f with Falsy => false | _ => true end.

Definition itemsOf (f : ItemsField) : list (option RawProduct) :=
  match f with Items l => l | _ => [] end.

Definition lengthVal {A : Type} (l : list A) : jsval :=
  VNum (ofZ (Z.of_nat (List.length l))).

(** The object handed to the schema. *)
Record ParsedResponse : Type := {
  parsed_products : list (option RawProduct);
  parsed_totalResults : jsval;
  parsed_query : jsval
}.

Definition safeDefaults (query : jsstring) : SearchResponse :=
  {| sr_products := []; sr_totalResults := ofZ 0; sr_query := query |}.

Definition emptyParsed (query : jsstring) : ParsedResponse :=
  {| parsed_products := []; parsed_totalResults := VNum (ofZ 0); parsed_query := VStr query |}.

Definition parsedResponse (response : SearchBody) (query : jsstring) : ParsedResponse :=
  match response with
  | NotAnObject => emptyParsed query
  | BareArray l =>
      {| parsed_products := l; parsed_totalResults := lengthVal l; parsed_query := VStr query |}
  | AnObject o =>
      if truthyItems (so_results o) && negb (truthyItems (so_products o)) then
        {| parsed_products := itemsOf (so_results o);
           parsed_totalResults := orVal (so_totalResults o)
                                (orVal (so_total o) (lengthVal (itemsOf (so_results o))));
           parsed_query := orVal (so_query o) (VStr query) |}
      else if negb (truthyItems (so_products o)) && negb (truthyItems (so_results o)) then
        emptyParsed query
      else
        {| parsed_products := itemsOf (so_products o);
           parsed_totalResults := nullish (so_totalResults o)
                                (lengthVal (itemsOf (so_products o)));
           parsed_query := orVal (so_query o) (VStr query) |}
  end.

(** The types [searchResponseSchema] demands of its input. *)
Fixpoint typedItems (l : list (option RawProduct)) : option (list RawProduct) :=
  match l with
  | [] => Some []
  | Some r :: l' => option_map (cons r) (typedItems l')
  | None :: _ => None
  end.

Definition optionalNumber (v : jsval) : option (option number) :=
  match v with
  | VUndefined => Some None
  | VNum n => if isNaN n then None else Some (Some n)
  | _ => None
  end.

Definition typedSearch (p : ParsedResponse) : option RawSearch :=
  match typedItems (parsed_products p), optionalNumber (parsed_totalResults p),
        optionalString (parsed_query p) with
  | Some l, Some t, Some q =>
      Some {| rs_products := Some l; rs_totalResults := t; rs_query := q |}
  | _, _, _ => None
  end.

(** [searchProducts], after [makeRequest] returned [response]: the
    [try { parse } catch { defaults }] at its end. *)
Definition searchProductsFrom (response : SearchBody) (query : jsstring)
  : SearchResponse :=
  match typedSearch (parsedResponse response query) with
  | Some data => searchResponseSchema data
  | None => safeDefaults query
  end.

(** ** ScraperAPIClient.makeRequest *)

(** What one [fetch] of the request does: it throws (the network), or it
    answers with a status, whose body can be read as text and as JSON, each
    of which can throw. *)
Inductive Answer (T : Type) : Type :=
  | Refused (e : JsError)
  | Answered (ok : bool) (status : Z) (text : outcome jsstring) (json : outcome T).

Arguments Refused {T} e.
Arguments Answered {T} ok status text json.

(** The requests made, by attempt number, and the waits, in
    milliseconds. *)
Record Net : Type := { requested : list Z; waited : list Z }.

Definition offline : Net := {| requested := []; waited := [] |}.

Definition fetchAt (attempt : Z) (n : Net) : Net :=
  {| requested := requested n ++ [attempt]; waited := waited n |}.

Definition sleep (ms : Z) (n : Net) : Net :=
  {| requested := requested n; waited := waited n ++ [ms] |}.

(** [Math.pow(2, attempt) * 1000] *)
Definition waitTime (attempt : Z) : Z := 2 ^ attempt * 1000.

Definition httpError (status : Z) (errorText : jsstring) : JsError :=
  Error (str "ScraperAPI error (" ++ ofInt status ++ str "): " ++ errorText).

Section MakeRequest.

Variable T : Type.

(** [answer attempt]: what the fetch of that attempt does. *)
Variable answer : Z -> Answer T.

(** The [catch] block of an attempt and what follows it in the loop: the
    error is remembered and, when attempts are left, the loop waits and
    goes on. *)
Definition afterFailure
    (continue : option JsError -> Net -> option (outcome T * Net))
    (maxRetries attempt : Z) (error : JsError) (n : Net)
  : option (outcome T * Net) :=
  if attempt <? maxRetries
  then continue (Some error) (sleep (waitTime attempt) n)
  else continue (Some error) n.

(** The [for] loop.  [fuel] bounds the iterations the model unfolds;
    [None] says it ran out. *)
Fixpoint attempts (fuel : nat) (maxRetries attempt : Z) (lastError : option JsError)
    (n : Net) : option (outcome T * Net) :=
  if attempt <=? maxRetries then
    match fuel with
    | O => None
    | S fuel' =>
        let continue := attempts fuel' maxRetries (attempt + 1) in
        let n1 := fetchAt attempt n in
        match answer attempt with
        | Refused e => afterFailure continue maxRetries attempt e n1
        | Answered false status text json =>
            if (status =? 429) && (attempt <? maxRetries)
            then continue lastError (sleep (waitTime attempt) n1)
            else
              match text with
              | Return errorText =>
                  afterFailure continue maxRetries attempt
                               (httpError status errorText) n1
              | Throws e => afterFailure continue maxRetries attempt e n1
              end
        | Answered true _ _ (Return data) => Some (Return data, n1)
        | Answered true _ _ (Throws e) =>
            afterFailure continue maxRetries attempt e n1
        end
    end
  else
    Some (Throws (match lastError with
                  | Some e => e
                  | None => Error (str "Unknown error occurred")
                  end), n).

Definition makeRequest (fuel : nat) (maxRetries : Z) (n : Net)
  : option (outcome T * Net) :=
  attempts fuel maxRetries 1 None n.

(** The data of an attempt that succeeds, and the error of one that
    does not. *)
Definition dataOf (a : Answer T) : option T :=
  match a with
  | Answered true _ _ (Return data) => Some data
  | _ => None
  end.

Definition errorOf (a : Answer T) : JsError :=
  match a with
  | Refused e => e
  | Answered false status (Return errorText) _ => httpError status errorText
  | Answered false _ (Throws e) _ => e
  | Answered true _ _ (Throws e) => e
  | Answered true _ _ (Return _) => Error []
  end.

(** The attempts [1], ..., [k]. *)
Definition upTo (k : nat) : list Z := map Z.of_nat (seq 1 k).

(** The first of the attempts [1], ..., [maxRetries] that succeeds. *)
Definition succeeds (k : nat) : bool :=
  match dataOf (answer (Z.of_nat k)) with
  | Some _ => true
  | None => false
  end.

Definition firstSuccess (maxRetries : nat) : option nat :=
  find succeeds (seq 1 maxRetries).

End MakeRequest.

Arguments attempts {T} answer fuel maxRetries attempt lastError n.
Arguments makeRequest {T} answer fuel maxRetries n.
Arguments dataOf {T} a.
Arguments errorOf {T} a.
Arguments succeeds {T} answer k.
Arguments firstSuccess {T} answer maxRetries.

End Client.

Import Client.

(** The data of further scenarios. *)
Module Scenes.

(** Three attempts: the connection is refused, then the API answers 429,
    then it answers 200 with a body that parses to 7. *)
Definition flaky (attempt : Z) : Answer Z :=
  if attempt =? 1 then Refused (Error (str "fetch failed"))
  else if attempt =? 2 then
    Answered false 429 (Return (str "Too Many Requests")) (Throws (Error (str "no body")))
  else Answered true 200 (Return []) (Return 7).

End Scenes.

Import Scenes.

(* ================================================================== *)
(** * services/amazon-collector.ts: the search *)
(* ================================================================== *)

Module Search.

(** [ScraperAPIClient.searchProducts]: [makeRequest] on the search
    endpoint, whose failure is not caught, then the tolerant reading of the
    body.  [searchEndpoint query country] is what [makeRequest] does. *)
Definition searchProducts (searchEndpoint : jsstring -> jsstring -> outcome SearchBody)
    (query country : jsstring) : outcome SearchResponse :=
  match searchEndpoint query country with
  | Return response => Return (searchProductsFrom response query)
  | Throws e => Throws e
  end.

(** [options.country || "us"] *)
Definition countryOrUs (country : option jsstring) : jsstring :=
  match country with
  | Some (c :: s) => c :: s
  | _ => str "us"
  end.

(** [collectProductsBySearch].  The trace records the usage check and the
    usage recorded; its requests are those for products and reviews. *)
Definition collectProductsBySearch (o : Outside.t)
    (searchEndpoint : jsstring -> jsstring -> outcome SearchBody)
    (this : AmazonCollector) (keyword : jsstring) (limit : option Z)
    (country : option jsstring) : Async (list ProductData) :=
  checkUsageLimit o this ;;;
  response <- lift (searchProducts searchEndpoint keyword (countryOrUs country)) ;;
  trackUsage o this 1 ;;;
  match truthyLimit limit with
  | Some l => ret (slice0 (sr_products response) l)
  | None => ret (sr_products response)
  end.

End Search.

Import Search.

(* ================================================================== *)
(** * More data of scenarios *)
(* ================================================================== *)

Module Metered.

(** A tracker built in January 2025 with the default limit, and the record
    of that month after [used] calls. *)
Definition january : UsageTracker :=
  {| monthlyLimit := 1000; currentMonth := str "2025-01" |}.

Definition januaryRecord (used : Z) : UsageRow :=
  {| u_id := str "u1"; month := str "2025-01"; callsUsed := used;
     callsLimit := 1000; u_createdAt := jan31; u_updatedAt := jan31 |}.

Definition meteredWorld (used : Z) : World :=
  withUsage (fun _ => [januaryRecord used]) (emptyWorld jan31).

Definition metered : AmazonCollector := {| usageTracker := Some january |}.



End Metered.

Import Metered.

(* ================================================================== *)
(** * More jobs of scenarios *)
(* ================================================================== *)

Module Jobs.

(** A job whose payload carries a type outside the enumeration. *)
Definition strangeJob : Job :=
  {| id := str "7";
     data := {| jd_asin := Some B000000000; jd_keyword := None; jd_limit := None;
                jd_country := None; jd_type := T_other (str "refresh") |} |}.

(** The payload of a price update for B000000000. *)
Definition priceUpdate : JobData :=
  {| jd_asin := Some B000000000; jd_keyword := None; jd_limit := None;
     jd_country := None; jd_type := T_price_update |}.

(** An outside whose product endpoint answers B000000000 at 188. *)
Definition pricing : Outside.t :=
  {| randomId := randomId quiet;
     productEndpoint := fun _ =>
       Return (Some {| body := Some (withPrice B000000000 (PriceNum (ofZ 188)));
                       product_information_asin := None |});
     getProductReviews := getProductReviews quiet;
     insertFault := None;
     uniqueViolation := pgUniqueViolation;
     invalidType := invalidType quiet;
     storeReal := storeReal quiet;
     removeJob := removeJob quiet;
     others := fun _ => [] |}.

End Jobs.

Import Jobs.

(* ================================================================== *)
(** * services/job-queue.ts and the producers of services/scheduler.ts *)
(* ================================================================== *)

Module Producer.

(** [JobOptions], but for [repeat], which no caller of the three manual
    adds sets. *)
Record JobOptions : Type := {
  opt_priority : option Z;
  opt_delay : option Z;
  opt_attempts : option Z
}.

(** What [productQueue.add] is given: the name, the payload and the
    options ([q_repeat] is the pattern and the time zone). *)
Record Enqueued : Type := {
  q_name : jsstring;
  q_data : JobData;
  q_priority : option Z;
  q_delay : option Z;
  q_attempts : option Z;
  q_repeat : option (jsstring * jsstring)
}.

(** BullMQ, as the code uses it: [queueAdd] is [productQueue.add] followed
    by the read of the new job's id; [removeWaiting] is the look-up of a job
    and its removal when it is waiting. *)
Record JobQueue : Type := {
  queueAdd : Enqueued -> outcome jsstring;
  removeWaiting : jsstring -> outcome unit
}.

(** [options?.priority || 1] *)
Definition priorityOr1 (options : option JobOptions) : Z :=
  match options with
  | Some o =>
      match opt_priority o with
      | Some 0 | None => 1
      | Some p => p
      end
  | None => 1
  end.

Definition optionOf (f : JobOptions -> option Z) (options : option JobOptions)
  : option Z :=
  match options with
  | Some o => f o
  | None => None
  end.

Definition manualOptions (name : string) (data : JobData)
    (options : option JobOptions) : Enqueued :=
  {| q_name := str name;
     q_data := data;
     q_priority := Some (priorityOr1 options);
     q_delay := optionOf opt_delay options;
     q_attempts := optionOf opt_attempts options;
     q_repeat := None |}.

Definition addProductJob (q : JobQueue) (asin : jsstring)
    (options : option JobOptions) : outcome jsstring :=
  queueAdd q (manualOptions "collect-product"
    {| jd_asin := Some asin; jd_keyword := None; jd_limit := None;
       jd_country := None; jd_type := T_product |} options).

Definition addSearchJob (q : JobQueue) (keyword : jsstring) (limit : option Z)
    (country : option jsstring) (options : option JobOptions) : outcome jsstring :=
  queueAdd q (manualOptions "collect-search"
    {| jd_asin := None; jd_keyword := Some keyword; jd_limit := limit;
       jd_country := country; jd_type := T_search |} options).

Definition addReviewJob (q : JobQueue) (asin : jsstring) (limit : option Z)
    (options : option JobOptions) : outcome jsstring :=
  queueAdd q (manualOptions "collect-reviews"
    {| jd_asin := Some asin; jd_keyword := None; jd_limit := limit;
       jd_country := None; jd_type := T_review |} options).

Definition addRecurringPriceJob (q : JobQueue) (asin cronPattern : jsstring)
  : outcome jsstring :=
  queueAdd q
    {| q_name := str "update-price";
       q_data := {| jd_asin := Some asin; jd_keyword := None; jd_limit := None;
                    jd_country := None; jd_type := T_price_update |};
       q_priority := None; q_delay := None; q_attempts := None;
       q_repeat := Some (cronPattern, str "UTC") |}.

(** The row a producer inserts: the columns it names, the others at their
    defaults. *)
Definition pendingRow (jobId : jsstring) (type : JobType) (i : JobInput)
    (scheduled : bool) (d : Date) : JobRow :=
  {| job_id := jobId;
     job_type := type;
     status := pending;
     input := Some i;
     output := None;
     error := None;
     isScheduled := scheduled;
     apiCallsUsed := 0;
     startedAt := None;
     completedAt := None;
     createdAt := d;
     updatedAt := d |}.

Definition scheduleProductUpdates (o : Outside.t) (q : JobQueue)
    (asin cronPattern : jsstring) : Async jsstring :=
  jobId <- lift (addRecurringPriceJob q asin cronPattern) ;;
  w <- get ;;
  insertJob o (pendingRow jobId T_price_update (InputSchedule asin cronPattern)
                 true (now w)) ;;;
  ret jobId.

Definition invalidJobData : JsError := Error (str "Invalid job data").

(** [{ priority: 10 }] *)
Definition manual : option JobOptions :=
  Some {| opt_priority := Some 10; opt_delay := None; opt_attempts := None |}.

(** The chain of tests of [triggerManualCollection]. *)
Definition enqueueManual (q : JobQueue) (data : JobData) : Async jsstring :=
  match jd_type data with
  | T_product =>
      match jd_asin data with
      | Some (c :: a) => lift (addProductJob q (c :: a) manual)
      | _ => throw invalidJobData
      end
  | T_search =>
      match jd_keyword data with
      | Some (c :: k) =>
          lift (addSearchJob q (c :: k) (jd_limit data) (jd_country data) manual)
      | _ => throw invalidJobData
      end
  | T_review =>
      match jd_asin data with
      | Some (c :: a) => lift (addReviewJob q (c :: a) (jd_limit data) manual)
      | _ => throw invalidJobData
      end
  | _ => throw invalidJobData
  end.

Definition triggerManualCollection (o : Outside.t) (q : JobQueue) (data : JobData)
  : Async jsstring :=
  jobId <- enqueueManual q data ;;
  w <- get ;;
  insertJob o (pendingRow jobId (jd_type data) (InputData data) false (now w)) ;;;
  ret jobId.

End Producer.

Import Producer.

(* ================================================================== *)
(** * routes/products.ts and the job routes *)
(* ================================================================== *)

Module Routes.

(** What a route answers: [res.json] with [success: true], or a status
    and an error.  Request bodies are taken with the types their zod schema
    asks for. *)
Inductive Response : Type :=
  | Success (jobId : option jsstring) (message : jsstring)
  | Failure (code : Z) (reason : jsstring).

Definition truthyOpt (s : option jsstring) : bool :=
  match s with
  | Some (_ :: _) => true
  | _ => false
  end.

(** [POST /collect] *)
Definition collectRoute (o : Outside.t) (q : JobQueue) (asin keyword : option jsstring)
    (limit : option Z) (country : option jsstring) : Async Response :=
  let jobData := {| jd_asin := asin; jd_keyword := keyword; jd_limit := limit;
                    jd_country := country;
                    jd_type := if truthyOpt asin then T_product else T_search |} in
  tryCatch
    (jobId <- triggerManualCollection o q jobData ;;
     ret (Success (Some jobId) (str "Collection job queued")))
    (fun error => ret (Failure 400 (e_message error))).

(** [POST /:asin/track]; [cronPattern] is the body's. *)
Definition trackRoute (o : Outside.t) (q : JobQueue) (asin : jsstring)
    (cronPattern : option jsstring) : Async Response :=
  let pattern := match cronPattern with
                 | Some (c :: p) => c :: p
                 | _ => str "0 */6 * * *"
                 end in
  tryCatch
    (jobId <- scheduleProductUpdates o q asin pattern ;;
     ret (Success (Some jobId) (str "Product tracking started")))
    (fun error => ret (Failure 400 (e_message error))).

(** [job.input?.asin === asin] *)
Definition inputAsinIs (asin : jsstring) (r : JobRow) : bool :=
  match input r with
  | Some (InputData d) =>
      match jd_asin d with
      | Some a => eqb a asin
      | None => false
      end
  | Some (InputSchedule a _) => eqb a asin
  | None => false
  end.

Definition isPriceUpdate (t : JobType) : bool :=
  match t with T_price_update => true | _ => false end.

Definition scheduledPriceUpdate (r : JobRow) : bool :=
  isPriceUpdate (job_type r) && isScheduled r.

(** The loop of [DELETE /:asin/track] over the rows it selected. *)
Fixpoint cancelEach (o : Outside.t) (asin : jsstring) (jobs : list JobRow)
  : Async unit :=
  match jobs with
  | [] => ret tt
  | job :: jobs' =>
      (if inputAsinIs asin job then cancelScheduledJob o (job_id job) else ret tt) ;;;
      cancelEach o asin jobs'
  end.

(** [DELETE /:asin/track] *)
Definition untrackRoute (o : Outside.t) (asin : jsstring) : Async Response :=
  tryCatch
    (w <- get ;;
     cancelEach o asin (filter scheduledPriceUpdate (scrapeJobs w)) ;;;
     ret (Success None (str "Product tracking stopped")))
    (fun _ => ret (Failure 500 (str "Failed to stop tracking"))).

Definition suspendedPatch (d : Date) : JobPatch :=
  {| set_status := Some suspended;
     set_error := None;
     set_startedAt := None;
     set_completedAt := None;
     set_updatedAt := Some d |}.

Definition pendingPatch (d : Date) : JobPatch :=
  {| set_status := Some pending;
     set_error := None;
     set_startedAt := None;
     set_completedAt := None;
     set_updatedAt := Some d |}.

(** [POST /:jobId/suspend]: the update returns the rows it changed. *)
Definition suspendRoute (q : JobQueue) (jobId : jsstring) : Async Response :=
  w <- get ;;
  let result := filter (idIs jobId) (scrapeJobs w) in
  modify (withJobs (updateJobs (idIs jobId) (suspendedPatch (now w)))) ;;;
  match result with
  | [] => ret (Failure 404 (str "Job not found"))
  | _ :: _ =>
      tryCatch (lift (removeWaiting q jobId)) (fun _ => ret tt) ;;;
      ret (Success None (str "Job suspended successfully"))
  end.

Definition statusName (s : JobStatus) : jsstring :=
  match s with
  | pending => str "pending"
  | running => str "running"
  | completed => str "completed"
  | failed => str "failed"
  | suspended => str "suspended"
  end.

(** ["asin" in job.input] *)
Definition hasAsinKey (i : JobInput) : bool :=
  match i with
  | InputData d => match jd_asin d with Some _ => true | None => false end
  | InputSchedule _ _ => true
  end.

(** [POST /:jobId/resume].  [retrigger job] is the call of
    [scheduler.triggerManualCollection] on the row's type merged with the
    row's input. *)
Definition resumeRoute (retrigger : JobRow -> Async jsstring) (jobId : jsstring)
  : Async Response :=
  w <- get ;;
  match selectJob jobId (scrapeJobs w) with
  | [] => ret (Failure 404 (str "Job not found"))
  | job :: _ =>
      if negb (statusIs suspended job) then
        ret (Failure 400 (str "Job is not suspended. Current status: "
                          ++ statusName (status job)))
      else
        modify (withJobs (updateJobs (idIs jobId) (pendingPatch (now w)))) ;;;
        match isScheduled job, input job with
        | true, Some i =>
            tryCatch
              (if isPriceUpdate (job_type job) && hasAsinKey i then ret tt
               else retrigger job ;;; ret tt)
              (fun _ => ret tt)
        | _, _ => ret tt
        end ;;;
        ret (Success None (str "Job resumed successfully"))
  end.

End Routes.

Import Routes.

(* ================================================================== *)
(** * Queues of scenarios *)
(* ================================================================== *)

Module Queues.

(** A queue that numbers every job ["1"] and removes what it is asked
    to. *)
Definition oneQueue : JobQueue :=
  {| queueAdd := fun _ => Return (str "1");
     removeWaiting := fun _ => Return tt |}.

(** The payload of the product job for B000000000, as the collect route
    builds it. *)
Definition productData : JobData := data productJob.

End Queues.

Import Queues.

(* ================================================================== *)
(** * Characters of the error-code pattern *)
(* ================================================================== *)

Module Pattern.

(** The class of characters other than the double quote (code unit 34). *)
Definition noQuote (c : N) : bool := negb (c =? 34)%N.

End Pattern.

Import Pattern.

(* ================================================================== *)
(** * The claims' vocabulary, continued *)
(* ================================================================== *)

Module Terms.

(** The values of the enumeration [job_type]. *)
Definition inEnum (t : JobType) : bool :=
  match t with T_other _ => false | _ => true end.

(** A uniqueness conflict as PostgreSQL reports it: the error, or the
    error it wraps, carries the code 23505 (unique_violation). *)
Definition isUniqueViolation (e : JsError) : Prop :=
  e_code e = Some (str "23505")
  \/ (e_code e = None
      /\ exists c, e_cause e = Some c /\ c_code c = Some (str "23505")).

Definition said (s : option jsstring) : list jsstring :=
  match s with Some t => [t] | None => [] end.

(** Everything an error says: its string form, its message, its code, and
    the message, the code and the detail of its cause. *)
Definition texts (e : JsError) : list jsstring :=
  errorToString e :: e_message e :: said (e_code e)
  ++ match e_cause e with
     | Some c => said (c_message c) ++ said (c_code c) ++ said (c_detail c)
     | None => []
     end.

(** An error that bears no mark of a conflict: nothing it says holds
    23505 or the words duplicate key. *)
Definition unmarked (e : JsError) : Prop :=
  forall t, In t (texts e) ->
    includes t (str "23505") = false /\ includes t (str "duplicate key") = false.

(** A product of this ASIN is in storage. *)
Definition stored (asin : jsstring) (w : World) : Prop :=
  exists r, In r (products w) /\ p_asin r = asin.

(** The range of an [integer] column. *)
Definition int4 (z : Z) : Prop := -2147483648 <= z <= 2147483647.

(** The record of a month: the first row of [api_usage] with that
    month. *)
Definition monthRecord (m : jsstring) (w : World) (r : UsageRow) : Prop :=
  exists before after,
    apiUsage w = before ++ r :: after
    /\ month r = m
    /\ forall x, In x before -> month x <> m.

(** The stored product of an ASIN: the first row of [products] with that
    ASIN. *)
Definition firstStored (asin : jsstring) (w : World) (row : ProductRow) : Prop :=
  exists before after,
    products w = before ++ row :: after
    /\ p_asin row = asin
    /\ forall x, In x before -> p_asin x <> asin.

(** The calls a month has on record, none when it has no record. *)
Fixpoint usedIn (m : jsstring) (t : list UsageRow) : Z :=
  match t with
  | [] => 0
  | r :: t' => if eqb (month r) m then callsUsed r else usedIn m t'
  end.

Definition usedBefore (this : UsageTracker) (w : World) : Z :=
  usedIn (currentMonth this) (apiUsage w).

(** ** Scenarios *)

(** The insert fails because the database, on port 23505, refuses the
    connection; a producer inserts the record of job ["1"] right after. *)
Definition portRefused : JsError := Error (str "connect ECONNREFUSED 10.0.0.7:23505").

Definition refusing : Outside.t :=
  {| randomId := randomId quiet;
     productEndpoint := productEndpoint quiet;
     getProductReviews := getProductReviews quiet;
     insertFault := Some portRefused;
     uniqueViolation := pgUniqueViolation;
     invalidType := invalidType quiet;
     storeReal := storeReal quiet;
     removeJob := removeJob quiet;
     others := fun k => match k with
                        | 2%nat => [InsertJob (rowOf (str "1") pending jan31)]
                        | _ => []
                        end |}.

(** The connection is lost at the worker's insert, and a producer inserts
    the record of job ["1"] right after. *)
Definition disconnectedRacing : Outside.t :=
  {| randomId := randomId quiet;
     productEndpoint := productEndpoint quiet;
     getProductReviews := getProductReviews quiet;
     insertFault := Some connectionLost;
     uniqueViolation := pgUniqueViolation;
     invalidType := invalidType quiet;
     storeReal := storeReal quiet;
     removeJob := removeJob quiet;
     others := others refusing |}.

(** The product job for B000000000 with the product in storage: after the
    dequeue-time protocol, and after the fetch that yields no validated
    product. *)
Definition startedStored : World := snd (reconcile quiet productJob withStoredProduct).

Definition fetchedStored : World :=
  snd (collectProductByASIN quiet noTracker B000000000 startedStored).

(** A product job whose payload has no ASIN. *)
Definition asinless : Job :=
  {| id := str "8";
     data := {| jd_asin := None; jd_keyword := None; jd_limit := None;
                jd_country := None; jd_type := T_product |} |}.

End Terms.

Import Terms.

(* ================================================================== *)
(** * Properties *)
(* ================================================================== *)

(** ** Strings and numbers *)

Lemma eqb_refl (a : jsstring) : eqb a a = true.
Proof.
  induction a as [|x a IH]; simpl; [reflexivity|].
  now rewrite N.eqb_refl, IH.
Qed.

Lemma eqb_eq (a b : jsstring) : eqb a b = true <-> a = b.
Proof.
  split.
  - revert b; induction a as [|x a IH]; intros [|y b] H; simpl in H;
      try discriminate; [reflexivity|].
    apply andb_true_iff in H as [Hx Hab].
    apply N.eqb_eq in Hx. apply IH in Hab. now subst.
  - intros ->. apply eqb_refl.
Qed.

Lemma lt_asym (a b : number) : lt a b = true -> lt b a = false.
Proof.
  destruct a as [|[|]|p], b as [|[|]|q]; simpl; try reflexivity; try discriminate.
  destruct (p ?= q)%Qc eqn:E; try discriminate. intros _.
  apply Qclt_alt in E. apply Qclt_le_weak, Qcle_not_lt in E.
  destruct (q ?= p)%Qc eqn:E'; try reflexivity.
  apply Qclt_alt in E'. contradiction.
Qed.

(** Examples of [parseFloat]. *)
Example parseFloat_decimal : parseFloat (str "171.95") = decimal 17195 (-2).
Proof. vm_compute. reflexivity. Qed.

Example parseFloat_prefix : parseFloat (str "  -1.5e2xyz") = ofZ (-150).
Proof. vm_compute. reflexivity. Qed.

Example parseFloat_currency : parseFloat (str "$3") = NaN.
Proof. reflexivity. Qed.

Example parseFloat_dots :
  parseFloat (str ".5") = decimal 5 (-1) /\ parseFloat (str "5.") = ofZ 5
  /\ parseFloat (str ".") = NaN /\ parseFloat (str "1e") = ofZ 1.
Proof. vm_compute. repeat split; reflexivity. Qed.

Example getCurrentMonth_march :
  getCurrentMonth {| getTime := 0; getFullYear := 2025; getMonth := 2 |}
  = str "2025-03".
Proof. vm_compute. reflexivity. Qed.

(** ** Price normalization *)

(** Whatever currency a structured price carries, the normalized price
    takes its currency from the product's own [currency] field. *)
Lemma normalizePrice_object_currency (data : RawProduct) (o : PriceObject) :
  r_pricing data = None -> r_price data = Some (PriceObj o) ->
  option_map currency (normalizePrice data)
  = Some (match r_currency data with
          | Some (c :: s) => c :: s
          | _ => str "USD"
          end).
Proof.
  intros Hp Hq. unfold normalizePrice, extractCurrent. rewrite Hp, Hq.
  simpl. destruct (r_currency data) as [[|c s]|]; reflexivity.
Qed.

(** C5: the string ["$171.95"] normalizes to the number 171.95 and the
    number 188 to 188; of the structured price
    [{current: 50, original: 75, currency: "EUR"}] the current and the
    original price are kept, but the currency is not: the normalized price
    carries ["USD"], the default, because the transform reads the currency
    from the product's top-level field only, whatever the structured price
    names. *)
Theorem C5_structured_price_loses_currency :
  option_map price (productDataSchema (withPrice B000000000 (PriceStr (str "$171.95"))))
  = Some (Some {| current := decimal 17195 (-2); original := None;
                  currency := str "USD" |})
  /\ option_map price (productDataSchema (withPrice B000000000 (PriceNum (ofZ 188))))
     = Some (Some {| current := ofZ 188; original := None;
                     currency := str "USD" |})
  /\ option_map price (productDataSchema (withPrice B000000000 (PriceObj structuredPrice)))
     = Some (Some {| current := ofZ 50; original := Some (ofZ 75);
                     currency := str "USD" |})
  /\ (forall (a : jsstring) (o : PriceObject),
        option_map currency (normalizePrice (withPrice a (PriceObj o)))
        = Some (str "USD")).
Proof.
  split; [vm_compute; reflexivity|]. split; [vm_compute; reflexivity|].
  split; [vm_compute; reflexivity|].
  intros a o. now rewrite (normalizePrice_object_currency _ o).
Qed.

(** C10: when [pricing] is present and does not parse, no current price
    is extracted, whatever [price] holds: the product validates, carries
    no price, and [processPrice] returns null. *)
Theorem C10_unparsed_pricing_blocks_price
    (data : RawProduct) (pricing : StrOrNum) (nanoid productId : jsstring) :
  hasValidAsin data = true ->
  r_pricing data = Some pricing ->
  parsePriceString (toUnknown pricing) = None ->
  normalizePrice data = None
  /\ exists pd, productDataSchema data = Some pd
                /\ price pd = None
                /\ processPrice nanoid pd productId = None.
Proof.
  intros Hasin Hp Hparse.
  assert (Hn : normalizePrice data = None).
  { unfold normalizePrice, extractCurrent. rewrite Hp, Hparse. reflexivity. }
  split; [exact Hn|].
  unfold productDataSchema. rewrite Hasin. eexists. split; [reflexivity|].
  simpl. split; [exact Hn|].
  unfold processPrice. simpl. now rewrite Hn.
Qed.

(** The product [{asin: "B000000000", pricing: "N/A", price: 188}] has a
    valid numeric [price], and still ends without any price. *)
Lemma C10_witness :
  hasValidAsin (withPricing B000000000 (IsStr (str "N/A")) (PriceNum (ofZ 188))) = true
  /\ r_price (withPricing B000000000 (IsStr (str "N/A")) (PriceNum (ofZ 188)))
     = Some (PriceNum (ofZ 188))
  /\ normalizePrice (withPricing B000000000 (IsStr (str "N/A")) (PriceNum (ofZ 188))) = None.
Proof.
  split; [reflexivity|]. split; [reflexivity|].
  exact (proj1 (C10_unparsed_pricing_blocks_price
                  (withPricing B000000000 (IsStr (str "N/A")) (PriceNum (ofZ 188)))
                  (IsStr (str "N/A")) [] []
                  eq_refl eq_refl eq_refl)).
Defined.

(** ** Review normalization *)

Lemma ofZ_Fin (z : Z) : ofZ z = Fin (Q2Qc (inject_Z z)).
Proof. reflexivity. Qed.

Lemma min_Fin (p q : Qc) :
  min (Fin p) (Fin q) = if lt (Fin q) (Fin p) then Fin q else Fin p.
Proof. reflexivity. Qed.

Lemma max_Fin (p q : Qc) :
  max (Fin p) (Fin q) = if lt (Fin p) (Fin q) then Fin q else Fin p.
Proof. reflexivity. Qed.

Lemma le_Fin (p q : Qc) : le (Fin p) (Fin q) = negb (lt (Fin q) (Fin p)).
Proof. reflexivity. Qed.

(** [Math.max(1, Math.min(5, num))] lies in [1,5] unless [num] is NaN. *)
Lemma clamp_range (num : number) :
  isNaN num = false ->
  ge (max (ofZ 1) (min (ofZ 5) num)) (ofZ 1) = true
  /\ le (max (ofZ 1) (min (ofZ 5) num)) (ofZ 5) = true.
Proof.
  destruct num as [|[|]|q]; intros H; try discriminate.
  - vm_compute. split; reflexivity.
  - vm_compute. split; reflexivity.
  - unfold ge. rewrite !ofZ_Fin, min_Fin.
    destruct (lt (Fin q) (Fin (Q2Qc (inject_Z 5)))) eqn:E5.
    + rewrite max_Fin.
      destruct (lt (Fin (Q2Qc (inject_Z 1))) (Fin q)) eqn:E1.
      * rewrite !le_Fin, (lt_asym _ _ E1), (lt_asym _ _ E5). split; reflexivity.
      * vm_compute. split; reflexivity.
    + vm_compute. split; reflexivity.
Qed.

(** Outside [1,5] means not inside, for a number that is compared. *)
Lemma outside_not_inside (n : number) :
  lt n (ofZ 1) || gt n (ofZ 5) = true ->
  negb (isNaN n) && ge n (ofZ 1) && le n (ofZ 5) = false.
Proof.
  destruct n as [|[|]|q]; try (vm_compute; congruence).
  unfold ge, gt. rewrite !ofZ_Fin, !le_Fin.
  destruct (lt (Fin q) (Fin (Q2Qc (inject_Z 1))));
    destruct (lt (Fin (Q2Qc (inject_Z 5))) (Fin q));
    cbn [isNaN negb andb orb]; congruence.
Qed.

Lemma reviewDataSchema_rating (r : RawReview) (x : number) :
  otherFieldsAccepted r = true ->
  ratingField (rr_rating r) = Some x ->
  exists d, reviewDataSchema r = Some d /\ rv_rating d = x.
Proof.
  unfold otherFieldsAccepted, reviewDataSchema. intros Ho Hr. rewrite Hr.
  destruct (optionalString (rr_title r)); try discriminate.
  destruct (stringWithDefault [] (rr_text r)); try discriminate.
  destruct (stringWithDefault (str "Anonymous") (rr_author r)); try discriminate.
  destruct (optionalString (rr_date r)); try discriminate.
  destruct (optionalBool (rr_verified r)); try discriminate.
  destruct (helpfulCountField (rr_helpfulCount r)); try discriminate.
  eexists. split; reflexivity.
Qed.

Lemma reviewDataSchema_rejects (r : RawReview) :
  ratingField (rr_rating r) = None -> reviewDataSchema r = None.
Proof. unfold reviewDataSchema. now intros ->. Qed.

(** C6, as the schema has it: a rating that arrives as a numeric string is
    clamped into [1,5] and the review is kept; a rating that arrives as a
    number is range-checked, not clamped: outside [1,5] the review fails
    validation at this layer, inside it is kept as it is.  (A string that
    is not numeric becomes the rating 0.) *)
Theorem C6_string_rating_clamped_number_rating_checked (r : RawReview) :
  otherFieldsAccepted r = true ->
  (forall s, rr_rating r = VStr s -> isNaN (parseFloat s) = false ->
     exists d, reviewDataSchema r = Some d
               /\ rv_rating d = max (ofZ 1) (min (ofZ 5) (parseFloat s))
               /\ ge (rv_rating d) (ofZ 1) = true
               /\ le (rv_rating d) (ofZ 5) = true)
  /\ (forall n, rr_rating r = VNum n ->
        lt n (ofZ 1) || gt n (ofZ 5) = true ->
        reviewDataSchema r = None)
  /\ (forall n, rr_rating r = VNum n ->
        ge n (ofZ 1) && le n (ofZ 5) = true ->
        exists d, reviewDataSchema r = Some d /\ rv_rating d = n)
  /\ (forall s, rr_rating r = VStr s -> isNaN (parseFloat s) = true ->
        exists d, reviewDataSchema r = Some d /\ rv_rating d = ofZ 0).
Proof.
  intros Ho. repeat split.
  - intros s Hs Hnum.
    destruct (reviewDataSchema_rating r (max (ofZ 1) (min (ofZ 5) (parseFloat s))) Ho)
      as [d [Hd Hr]].
    { rewrite Hs. simpl. unfold clampRating. now rewrite Hnum. }
    exists d. rewrite Hr. destruct (clamp_range _ Hnum) as [H1 H5].
    repeat split; assumption.
  - intros n Hn Hout. apply reviewDataSchema_rejects. rewrite Hn.
    cbn [ratingField]. now rewrite (outside_not_inside n Hout).
  - intros n Hn Hin. apply reviewDataSchema_rating; [assumption|].
    rewrite Hn. cbn [ratingField].
    assert (Hnan : isNaN n = false) by (destruct n; [discriminate Hin| |]; reflexivity).
    rewrite Hnan. cbn [negb andb]. now rewrite Hin.
  - intros s Hs Hnan. apply reviewDataSchema_rating; [assumption|].
    rewrite Hs. simpl. unfold clampRating. now rewrite Hnan.
Qed.

(** The review [{rating: "7", text: "Great"}] is kept with rating 5. *)
Lemma C6_witness :
  otherFieldsAccepted (reviewOf (VStr (str "7")) (str "Great")) = true
  /\ exists d, reviewDataSchema (reviewOf (VStr (str "7")) (str "Great")) = Some d
               /\ rv_rating d = max (ofZ 1) (min (ofZ 5) (parseFloat (str "7")))
               /\ ge (rv_rating d) (ofZ 1) = true
               /\ le (rv_rating d) (ofZ 5) = true.
Proof.
  split; [reflexivity|].
  exact (proj1 (C6_string_rating_clamped_number_rating_checked
                  (reviewOf (VStr (str "7")) (str "Great")) eq_refl)
               (str "7") eq_refl eq_refl).
Defined.

(** The review [{rating: 7, text: "Great"}] is rejected by the schema,
    where the claim has it clamped to 5 and kept; the same rating as the
    string ["7"] is clamped. *)
Lemma C6_number_out_of_range_rejected :
  reviewDataSchema (reviewOf (VNum (ofZ 7)) (str "Great")) = None
  /\ option_map rv_rating (reviewDataSchema (reviewOf (VStr (str "7")) (str "Great")))
     = Some (ofZ 5).
Proof. vm_compute. split; reflexivity. Qed.

(** ** processReviews *)

Lemma eqNum_zero (q : Qc) : eqNum (Fin q) (ofZ 0) = true -> q = Q2Qc (inject_Z 0).
Proof.
  rewrite ofZ_Fin. simpl.
  destruct (q ?= Q2Qc (inject_Z 0))%Qc eqn:E; try discriminate.
  intros _. now apply Qceq_alt.
Qed.

(** The first filter keeps exactly the reviews the specification does not
    exclude. *)
Lemma keepReview_excluded (r : ReviewData) : keepReview r = negb (excluded r).
Proof.
  unfold keepReview, excluded, ratingInRange, blankText.
  destruct (rv_text r) as [|c t] eqn:Ht.
  - simpl. now rewrite orb_true_r.
  - cbn [truthyStr negb orb].
    destruct (eqb (trim (c :: t)) []); [now rewrite orb_true_r|].
    rewrite orb_false_r.
    destruct (rv_rating r) as [|[|]|q] eqn:Hr; try (vm_compute; reflexivity).
    destruct (truthyNum (Fin q)) eqn:Hq.
    + unfold ge, gt. rewrite !ofZ_Fin, !le_Fin. cbn [negb orb].
      destruct (lt (Fin q) (Fin (Q2Qc (inject_Z 1)))); cbn [negb orb andb]; [reflexivity|].
      destruct (lt (Fin (Q2Qc (inject_Z 5))) (Fin q)); reflexivity.
    + simpl in Hq. apply negb_false_iff in Hq. apply eqNum_zero in Hq. subst q.
      vm_compute. reflexivity.
Qed.

Lemma keepReview_validates (r : ReviewData) :
  keepReview r = true -> validateRating (rv_rating r) = Some (rv_rating r).
Proof.
  unfold keepReview, validateRating.
  destruct (negb (truthyStr (rv_text r)) || eqb (trim (rv_text r)) []); [discriminate|].
  destruct (negb (truthyNum (rv_rating r))); [discriminate|]. cbn [orb].
  destruct (lt (rv_rating r) (ofZ 1) || gt (rv_rating r) (ofZ 5)); [discriminate|].
  reflexivity.
Qed.

Section ProcessReviews.

Variable nanoid : nat -> jsstring.
Variable parseDate : jsstring -> option Date.

(** After the first filter the [map] callback never lands in its
    [catch]: no review is dropped by the second filter. *)
Lemma processed_of_kept (productId : jsstring) (l : list ReviewData) (k : nat) :
  Forall (fun r => keepReview r = true) l ->
  map (fun p => (pr_rating p, pr_text p))
      (dropNull (mapReviews nanoid parseDate k productId l))
  = map (fun r => (rv_rating r, normalizeText (rv_text r))) l.
Proof.
  intros H. revert k. induction H as [|r l Hr _ IH]; intros k; [reflexivity|].
  simpl. unfold toProcessed at 1. rewrite (keepReview_validates r Hr).
  simpl. now rewrite IH.
Qed.

Lemma filter_keep_Forall (l : list ReviewData) :
  Forall (fun r => keepReview r = true) (filter keepReview l).
Proof. apply Forall_forall. intros r Hin. now apply filter_In in Hin. Qed.

End ProcessReviews.

Lemma filter_split_length {A : Type} (f : A -> bool) (l : list A) :
  (List.length (filter (fun x => negb (f x)) l) + List.length (filter f l)
   = List.length l)%nat.
Proof.
  induction l as [|x l IH]; [reflexivity|]. simpl.
  destruct (f x); simpl; lia.
Qed.

(** C7: the reviews [processReviews] returns are, in order, exactly the
    input reviews that are not excluded (rating inside [1,5], text not
    blank), with their rating and their normalized text; so its length is
    the input count minus the number of excluded reviews. *)
Theorem C7_processReviews_excludes_invalid
    (nanoid : nat -> jsstring) (parseDate : jsstring -> option Date)
    (reviewsData : ReviewsResponse) (productId : jsstring) :
  map (fun p => (pr_rating p, pr_text p))
      (processReviews nanoid parseDate reviewsData productId)
  = map (fun r => (rv_rating r, normalizeText (rv_text r)))
        (filter (fun r => negb (excluded r)) (reviews reviewsData))
  /\ List.length (processReviews nanoid parseDate reviewsData productId)
     = (List.length (reviews reviewsData)
        - List.length (filter excluded (reviews reviewsData)))%nat.
Proof.
  assert (Hf : filter keepReview (reviews reviewsData)
               = filter (fun r => negb (excluded r)) (reviews reviewsData)).
  { apply filter_ext. intros r. apply keepReview_excluded. }
  assert (Hm : map (fun p => (pr_rating p, pr_text p))
                   (processReviews nanoid parseDate reviewsData productId)
               = map (fun r => (rv_rating r, normalizeText (rv_text r)))
                     (filter (fun r => negb (excluded r)) (reviews reviewsData))).
  { unfold processReviews. rewrite processed_of_kept by apply filter_keep_Forall.
    now rewrite Hf. }
  split; [exact Hm|].
  apply (f_equal (@List.length _)) in Hm. rewrite !length_map in Hm.
  rewrite Hm. pose proof (filter_split_length excluded (reviews reviewsData)). lia.
Qed.

(** ** The usage tracker *)

Lemma untouched_refl (w : World) : untouched w w.
Proof. repeat split. Qed.

Lemma untouched_trans (w1 w2 w3 : World) :
  untouched w1 w2 -> untouched w2 w3 -> untouched w1 w3.
Proof.
  unfold untouched. intros (A1 & A2 & A3 & A4 & A5) (B1 & B2 & B3 & B4 & B5).
  repeat split; congruence.
Qed.

Lemma selectUsage_month (m : jsstring) (t : list UsageRow) (r : UsageRow)
    (l : list UsageRow) :
  selectUsage m t = r :: l -> month r = m /\ In r t.
Proof.
  unfold selectUsage. intros H.
  assert (Hin : In r (filter (fun r => eqb (month r) m) t)).
  { destruct (filter (fun r => eqb (month r) m) t) as [|x f]; simpl in H;
      [discriminate|]. injection H as -> _. now left. }
  apply filter_In in Hin as [Hin Hm]. split; [now apply eqb_eq|assumption].
Qed.

(** [getCurrentUsage] always returns a row, and the row is the one of the
    tracker's [currentMonth]. *)
Lemma getCurrentUsage_run (o : Outside.t) (this : UsageTracker) (w : World) :
  exists r w', getCurrentUsage o this w = (Return r, w')
               /\ month r = currentMonth this
               /\ In r (apiUsage w')
               /\ untouched w w' /\ trace w' = trace w.
Proof.
  unfold getCurrentUsage, bind, get.
  destruct (selectUsage (currentMonth this) (apiUsage w)) as [|r l] eqn:E.
  - eexists. eexists. split; [reflexivity|]. simpl.
    repeat split. apply in_or_app. right. now left.
  - apply selectUsage_month in E as [Hm Hin].
    exists r, w. repeat split; assumption.
Qed.

Lemma canMakeCall_run (o : Outside.t) (this : UsageTracker) (w : World) :
  exists b w', canMakeCall o this w = (Return b, w')
               /\ untouched w w' /\ trace w' = trace w.
Proof.
  unfold canMakeCall, bind.
  destruct (getCurrentUsage_run o this w) as (r & w' & -> & _ & _ & Hu & Ht).
  eexists. eexists. split; [reflexivity|]. split; assumption.
Qed.

Lemma recordUsage_run (o : Outside.t) (this : UsageTracker) (calls : Z) (w : World) :
  exists w', recordUsage o this calls w = (Return tt, w')
             /\ untouched w w' /\ trace w' = trace w.
Proof.
  unfold recordUsage, bind.
  destruct (getCurrentUsage_run o this w) as (r & w' & -> & _ & _ & Hu & Ht).
  eexists. split; [reflexivity|]. simpl. split; [|assumption].
  destruct Hu as (A1 & A2 & A3 & A4 & A5). repeat split; assumption.
Qed.

(** ** The collector *)

Lemma checkUsageLimit_run (o : Outside.t) (this : AmazonCollector) (w : World) :
  exists res w', checkUsageLimit o this w = (res, w')
                 /\ (res = Return tt \/ res = Throws quotaExceeded)
                 /\ (usageTracker this = None -> res = Return tt)
                 /\ untouched w w' /\ trace w' = trace w ++ [LimitChecked].
Proof.
  unfold checkUsageLimit, bind, modify.
  destruct (usageTracker this) as [tracker|].
  - destruct (canMakeCall_run o tracker (withEvent LimitChecked w))
      as (b & w' & -> & Hu & Ht).
    destruct b; eexists; eexists; (split; [reflexivity|]);
      (split; [auto|]); (split; [discriminate|]); split; assumption.
  - eexists. eexists. split; [reflexivity|]. split; [now left|].
    split; [reflexivity|]. split; [repeat split|reflexivity].
Qed.

Lemma trackUsage_run (o : Outside.t) (this : AmazonCollector) (calls : Z) (w : World) :
  exists w', trackUsage o this calls w = (Return tt, w')
             /\ untouched w w' /\ trace w' = trace w ++ [UsageTracked calls].
Proof.
  unfold trackUsage, bind, modify.
  destruct (usageTracker this) as [tracker|].
  - destruct (recordUsage_run o tracker calls (withEvent (UsageTracked calls) w))
      as (w' & -> & Hu & Ht).
    eexists. split; [reflexivity|]. split; assumption.
  - eexists. split; [reflexivity|]. split; [repeat split|reflexivity].
Qed.

Lemma pagesFrom_snoc (o : Outside.t) (asin : jsstring) (n : nat) :
  forall first,
    pagesFrom o asin first (S n)
    = pagesFrom o asin first n
      ++ reviews (getProductReviews o asin (first + Z.of_nat n)).
Proof.
  induction n as [|n IH]; intros first.
  - simpl. now rewrite Z.add_0_r, app_nil_r.
  - change (pagesFrom o asin first (S (S n)))
      with (reviews (getProductReviews o asin first)
            ++ pagesFrom o asin (first + 1) (S n)).
    rewrite IH. simpl pagesFrom at 2. rewrite <- app_assoc.
    replace (first + Z.of_nat (S n)) with (first + 1 + Z.of_nat n) by lia.
    reflexivity.
Qed.

Lemma rounds_S (asin : jsstring) (first : Z) (n : nat) :
  rounds asin first (S n) = round asin first ++ rounds asin (first + 1) n.
Proof. reflexivity. Qed.

Lemma rounds_count (asin : jsstring) (n : nat) :
  forall first, List.length (filter isReviewsCall (rounds asin first n)) = n.
Proof.
  induction n as [|n IH]; intros first; [reflexivity|].
  simpl. now rewrite IH.
Qed.

Lemma stopsAt_false (o : Outside.t) (asin : jsstring) (limit : Z) (n : nat) :
  accumulated o asin n < limit ->
  (n = 1%nat \/ isEmpty (pageOf o asin n) = false) ->
  (n < 5)%nat ->
  stopsAt o asin limit n = false.
Proof.
  intros Hacc Hpage Hn. unfold stopsAt.
  replace (limit <=? accumulated o asin n) with false
    by (symmetry; apply Z.leb_gt; assumption).
  replace (n =? 5)%nat with false by (symmetry; apply Nat.eqb_neq; lia).
  destruct Hpage as [-> | ->]; [reflexivity|].
  now rewrite andb_false_r.
Qed.

Lemma reviewsLoop_stop (fuel : nat) (o : Outside.t) (this : AmazonCollector)
    (asin : jsstring) (limit page : Z) (all : list ReviewData) (w : World) :
  (Z.of_nat (List.length all) <? limit) && (page <=? 5) = false ->
  reviewsLoop fuel o this asin limit page all w = (Return (Some all), w).
Proof. intros H. destruct fuel; simpl; rewrite H; reflexivity. Qed.

Lemma reviewsLoop_step (fuel : nat) (o : Outside.t) (this : AmazonCollector)
    (asin : jsstring) (limit page : Z) (all : list ReviewData) :
  (Z.of_nat (List.length all) <? limit) && (page <=? 5) = true ->
  reviewsLoop (S fuel) o this asin limit page all
  = (checkUsageLimit o this ;;;
     pageResponse <- fetchReviews o asin page ;;
     trackUsage o this 1 ;;;
     if Z.of_nat (List.length (reviews pageResponse)) =? 0
     then ret (Some (all ++ reviews pageResponse))
     else reviewsLoop fuel o this asin limit (page + 1) (all ++ reviews pageResponse)).
Proof. intros H. simpl. rewrite H. reflexivity. Qed.

Lemma isEmpty_length {A : Type} (l : list A) :
  isEmpty l = (Z.of_nat (List.length l) =? 0).
Proof. destruct l; reflexivity. Qed.

(** The loop, started at page [p] after the pages before it were fetched
    and did not stop the collection: it ends, within the fuel that is left
    for pages up to 5, at the first page where the rule stops, or at a
    refused usage check before that. *)
Lemma reviewsLoop_run (o : Outside.t) (this : AmazonCollector) (asin : jsstring)
    (limit : Z) :
  forall (fuel p : nat) (w : World),
    (2 <= p <= 6)%nat -> (6 - p <= fuel)%nat ->
    (forall k, (1 <= k < p - 1)%nat -> stopsAt o asin limit k = false) ->
    ((p - 1 = 1)%nat \/ isEmpty (pageOf o asin (p - 1)) = false) ->
    exists res w',
      reviewsLoop fuel o this asin limit (Z.of_nat p) (pagesFrom o asin 1 (p - 1)) w
      = (res, w')
      /\ untouched w w'
      /\ match res with
         | Return (Some all) =>
             exists N, (p - 1 <= N <= 5)%nat
               /\ (forall k, (1 <= k < N)%nat -> stopsAt o asin limit k = false)
               /\ stopsAt o asin limit N = true
               /\ all = pagesFrom o asin 1 N
               /\ trace w' = trace w ++ rounds asin (Z.of_nat p) (N - (p - 1))
         | Return None => False
         | Throws e =>
             exists N, (p - 1 <= N < 5)%nat
               /\ (forall k, (1 <= k <= N)%nat -> stopsAt o asin limit k = false)
               /\ e = quotaExceeded
               /\ trace w' = trace w ++ rounds asin (Z.of_nat p) (N - (p - 1))
                                     ++ [LimitChecked]
         end.
Proof.
  induction fuel as [|fuel IH]; intros p w Hp Hfuel Hbefore Hpage.
  - (* no fuel is left only at page 6 *)
    assert (p = 6)%nat by lia. subst p.
    rewrite reviewsLoop_stop
      by (replace (Z.of_nat 6 <=? 5) with false by reflexivity; apply andb_false_r).
    exists (Return (Some (pagesFrom o asin 1 (6 - 1)))), w.
    split; [reflexivity|]. split; [apply untouched_refl|].
    exists 5%nat. repeat split; try lia.
    + intros k Hk. apply Hbefore. simpl. lia.
    + unfold stopsAt. simpl Nat.eqb. now rewrite orb_true_r.
    + simpl. now rewrite app_nil_r.
  - destruct ((Z.of_nat (List.length (pagesFrom o asin 1 (p - 1))) <? limit)
              && (Z.of_nat p <=? 5)) eqn:Hguard.
    + (* one more page *)
      apply andb_true_iff in Hguard as [Hacc Hle].
      apply Z.ltb_lt in Hacc. apply Z.leb_le in Hle.
      assert (Hhere : stopsAt o asin limit (p - 1) = false)
        by (apply stopsAt_false; [exact Hacc|exact Hpage|lia]).
      assert (Hupto : forall k, (1 <= k <= p - 1)%nat -> stopsAt o asin limit k = false).
      { intros k Hk. destruct (Nat.eq_dec k (p - 1)) as [->|Hne]; [exact Hhere|].
        apply Hbefore. lia. }
      rewrite reviewsLoop_step
        by (apply andb_true_iff; split; [now apply Z.ltb_lt|now apply Z.leb_le]).
      unfold bind at 1.
      destruct (checkUsageLimit_run o this w) as (r1 & w1 & -> & Hr1 & _ & Hu1 & Ht1).
      destruct Hr1 as [-> | ->].
      * unfold bind at 1, fetchReviews at 1, bind at 1, modify, ret.
        unfold bind at 1.
        destruct (trackUsage_run o this 1
                    (withEvent (Request (ReviewsCall asin (Z.of_nat p))) w1))
          as (w3 & -> & Hu3 & Ht3).
        assert (Hsnoc : pagesFrom o asin 1 (p - 1)
                        ++ reviews (getProductReviews o asin (Z.of_nat p))
                        = pagesFrom o asin 1 p).
        { replace p with (S (p - 1)) at 3 by lia. rewrite pagesFrom_snoc.
          replace (1 + Z.of_nat (p - 1)) with (Z.of_nat p) by lia. reflexivity. }
        assert (Hu : untouched w w3).
        { apply (untouched_trans _ w1); [exact Hu1|exact Hu3]. }
        assert (Ht : trace w3 = trace w ++ round asin (Z.of_nat p)).
        { rewrite Ht3. simpl trace. rewrite Ht1. unfold round.
          rewrite <- !app_assoc. reflexivity. }
        rewrite Hsnoc.
        destruct (Z.of_nat (List.length (reviews (getProductReviews o asin (Z.of_nat p)))) =? 0)
          eqn:Hempty.
        -- (* the page is empty *)
           exists (Return (Some (pagesFrom o asin 1 p))), w3.
           split; [reflexivity|]. split; [exact Hu|].
           exists p. repeat split; try lia.
           ++ intros k Hk. apply Hupto. lia.
           ++ unfold stopsAt, pageOf. rewrite isEmpty_length, Hempty.
              replace (2 <=? p)%nat with true by (symmetry; apply Nat.leb_le; lia).
              simpl. now rewrite orb_true_r.
           ++ rewrite Ht. replace (p - (p - 1))%nat with 1%nat by lia.
              reflexivity.
        -- (* the page has reviews: the loop goes on at page p + 1 *)
           replace (Z.of_nat p + 1) with (Z.of_nat (S p)) by lia.
           destruct (IH (S p) w3) as (res & w' & Hrun & Hu' & Hres).
           ++ lia.
           ++ lia.
           ++ intros k Hk. apply Hupto. lia.
           ++ right. replace (S p - 1)%nat with p by lia.
              unfold pageOf. now rewrite isEmpty_length.
           ++ replace (S p - 1)%nat with p in Hrun by lia.
              exists res, w'. split; [exact Hrun|].
              split; [apply (untouched_trans _ w3); assumption|].
              destruct res as [[all|]|e]; [| exact Hres |].
              ** destruct Hres as (N & HN & Hk & Hstop & Hall & Htr).
                 exists N. repeat split; try lia; try assumption.
                 rewrite Htr, Ht, <- app_assoc.
                 replace (N - (p - 1))%nat with (S (N - (S p - 1))) by lia.
                 rewrite rounds_S. replace (Z.of_nat (S p)) with (Z.of_nat p + 1) by lia.
                 reflexivity.
              ** destruct Hres as (N & HN & Hk & He & Htr).
                 exists N. repeat split; try lia; try assumption.
                 rewrite Htr, Ht, <- !app_assoc.
                 replace (N - (p - 1))%nat with (S (N - (S p - 1))) by lia.
                 rewrite rounds_S. replace (Z.of_nat (S p)) with (Z.of_nat p + 1) by lia.
                 rewrite <- !app_assoc. reflexivity.
      * (* the usage check refuses the page *)
        exists (Throws quotaExceeded), w1.
        split; [reflexivity|]. split; [exact Hu1|].
        exists (p - 1)%nat. repeat split; try lia.
        -- exact Hupto.
        -- rewrite Ht1. replace (p - 1 - (p - 1))%nat with 0%nat by lia. reflexivity.
    + (* the loop is over *)
      rewrite reviewsLoop_stop by exact Hguard.
      exists (Return (Some (pagesFrom o asin 1 (p - 1)))), w.
      split; [reflexivity|]. split; [apply untouched_refl|].
      exists (p - 1)%nat. repeat split; try lia.
      * exact Hbefore.
      * unfold stopsAt. apply andb_false_iff in Hguard as [Hacc | Hle].
        -- apply Z.ltb_ge in Hacc. unfold accumulated.
           replace (limit <=? _) with true by (symmetry; now apply Z.leb_le).
           reflexivity.
        -- apply Z.leb_gt in Hle.
           replace (p - 1 =? 5)%nat with true by (symmetry; apply Nat.eqb_eq; lia).
           now rewrite orb_true_r.
      * replace (p - 1 - (p - 1))%nat with 0%nat by lia. simpl. now rewrite app_nil_r.
Qed.

Lemma stopsAt_five (o : Outside.t) (asin : jsstring) (limit : Z) :
  stopsAt o asin limit 5 = true.
Proof. unfold stopsAt. simpl Nat.eqb. now rewrite orb_true_r. Qed.

Lemma pagesToFetch_range (o : Outside.t) (asin : jsstring) (limit : Z) :
  (1 <= pagesToFetch o asin limit <= 5)%nat
  /\ stopsAt o asin limit (pagesToFetch o asin limit) = true.
Proof.
  unfold pagesToFetch. cbn [seq find].
  destruct (stopsAt o asin limit 1) eqn:E1; [split; [lia|exact E1]|].
  destruct (stopsAt o asin limit 2) eqn:E2; [split; [lia|exact E2]|].
  destruct (stopsAt o asin limit 3) eqn:E3; [split; [lia|exact E3]|].
  destruct (stopsAt o asin limit 4) eqn:E4; [split; [lia|exact E4]|].
  rewrite stopsAt_five. split; [lia|apply stopsAt_five].
Qed.

(** The rule's page count is the first page at which the rule stops. *)
Lemma pagesToFetch_first (o : Outside.t) (asin : jsstring) (limit : Z) (N : nat) :
  (1 <= N <= 5)%nat ->
  (forall k, (1 <= k < N)%nat -> stopsAt o asin limit k = false) ->
  stopsAt o asin limit N = true ->
  pagesToFetch o asin limit = N.
Proof.
  intros HN Hk Hstop.
  destruct (pagesToFetch_range o asin limit) as [Hr Hs].
  destruct (Nat.lt_trichotomy (pagesToFetch o asin limit) N) as [Hlt|[Heq|Hgt]].
  - rewrite Hk in Hs by lia. discriminate.
  - exact Heq.
  - exfalso. revert Hgt. unfold pagesToFetch. cbn [seq find].
    destruct N as [|[|[|[|[|[|N]]]]]]; try lia;
      repeat (rewrite Hk by lia); rewrite Hstop; lia.
Qed.

Lemma pagesToFetch_after (o : Outside.t) (asin : jsstring) (limit : Z) (N : nat) :
  (forall k, (1 <= k <= N)%nat -> stopsAt o asin limit k = false) ->
  (N < pagesToFetch o asin limit)%nat.
Proof.
  intros Hk. destruct (pagesToFetch_range o asin limit) as [Hr Hs].
  destruct (Nat.lt_ge_cases N (pagesToFetch o asin limit)) as [Hlt|Hge];
    [exact Hlt|].
  rewrite Hk in Hs by lia. discriminate.
Qed.

Lemma pagesFetched_app (w w' : World) (evs : list Event) :
  trace w' = trace w ++ evs ->
  pagesFetched w w' = Z.of_nat (List.length (filter isReviewsCall evs)).
Proof.
  intros H. unfold pagesFetched. rewrite H, filter_app, length_app. lia.
Qed.

Lemma slice0_length {A : Type} (l : list A) (limit : Z) :
  0 < limit -> Z.of_nat (List.length (slice0 l limit)) <= limit.
Proof.
  intros H. unfold slice0.
  replace (limit <? 0) with false by (symmetry; apply Z.ltb_ge; lia).
  pose proof (firstn_le_length (Z.to_nat (Z.min limit (Z.of_nat (List.length l)))) l).
  lia.
Qed.

(** C4, for a positive limit: [collectReviews] ends within the fuel of
    four loop iterations; it sends between one and five review requests
    (none only if the first usage check refuses), for pages 1, 2, ... in
    order, each between a usage check and the recording of one usage unit;
    when it returns, it has fetched exactly the pages the stopping rule
    asks for (limit met, a later page empty, or five pages) and returns
    their reviews cut to the limit; when it throws, a usage check refused
    a page the rule still asked for. *)
Theorem C4_collectReviews_with_positive_limit
    (o : Outside.t) (this : AmazonCollector) (asin : jsstring) (limit : Z)
    (fuel : nat) (w : World) :
  0 < limit -> (4 <= fuel)%nat ->
  exists res w',
    collectReviews fuel o this asin (Some limit) w = (res, w')
    /\ 0 <= pagesFetched w w' <= 5
    /\ match res with
       | Return (Some r) =>
           trace w' = trace w ++ rounds asin 1 (pagesToFetch o asin limit)
           /\ pagesFetched w w' = Z.of_nat (pagesToFetch o asin limit)
           /\ 1 <= pagesFetched w w'
           /\ reviews r = slice0 (pagesFrom o asin 1 (pagesToFetch o asin limit)) limit
           /\ Z.of_nat (List.length (reviews r)) <= limit
       | Return None => False
       | Throws e =>
           e = quotaExceeded
           /\ exists n, (n < pagesToFetch o asin limit)%nat
                /\ trace w' = trace w ++ rounds asin 1 n ++ [LimitChecked]
                /\ pagesFetched w w' = Z.of_nat n
       end.
Proof.
  intros Hpos Hfuel.
  destruct (pagesToFetch_range o asin limit) as [Hrange _].
  unfold collectReviews. unfold bind at 1.
  destruct (checkUsageLimit_run o this w) as (r1 & w1 & -> & Hr1 & _ & Hu1 & Ht1).
  destruct Hr1 as [-> | ->].
  2:{ (* the first usage check refuses *)
      exists (Throws quotaExceeded), w1. split; [reflexivity|].
      assert (Hf : pagesFetched w w1 = 0) by (now rewrite (pagesFetched_app _ _ _ Ht1)).
      split; [lia|]. split; [reflexivity|].
      exists 0%nat. split; [lia|]. split; [exact Ht1|exact Hf]. }
  unfold bind at 1, fetchReviews at 1, bind at 1, modify, ret.
  unfold bind at 1.
  destruct (trackUsage_run o this 1 (withEvent (Request (ReviewsCall asin 1)) w1))
    as (w3 & -> & Hu3 & Ht3).
  assert (Ht : trace w3 = trace w ++ round asin 1).
  { rewrite Ht3. simpl trace. rewrite Ht1. unfold round.
    rewrite <- !app_assoc. reflexivity. }
  assert (Hone : pagesFrom o asin 1 1 = reviews (getProductReviews o asin 1))
    by (simpl; apply app_nil_r).
  replace (truthyLimit (Some limit)) with (Some limit)
    by (destruct limit; try lia; reflexivity).
  destruct (Z.of_nat (List.length (reviews (getProductReviews o asin 1))) <? limit)
    eqn:Hfirst.
  - (* more pages are needed *)
    rewrite <- Hone. unfold bind at 1.
    destruct (reviewsLoop_run o this asin limit fuel 2 w3) as (res & w' & Hrun & _ & Hres).
    + lia.
    + simpl. lia.
    + intros k Hk. simpl in Hk. lia.
    + now left.
    + change (Z.of_nat 2) with 2 in Hrun. change (2 - 1)%nat with 1%nat in Hrun.
      rewrite Hrun. change (2 - 1)%nat with 1%nat in Hres.
      change (Z.of_nat 2) with (1 + 1) in Hres.
      destruct res as [[all|]|e].
      * destruct Hres as (N & HN & Hk & Hstop & Hall & Htr).
        assert (HNp : pagesToFetch o asin limit = N)
          by (apply pagesToFetch_first; [lia|exact Hk|exact Hstop]).
        assert (Htrace : trace w' = trace w ++ rounds asin 1 N).
        { rewrite Htr, Ht, <- app_assoc. replace N with (S (N - 1)) at 2 by lia.
          now rewrite rounds_S. }
        assert (Hf : pagesFetched w w' = Z.of_nat N)
          by (now rewrite (pagesFetched_app _ _ _ Htrace), rounds_count).
        eexists. eexists. split; [reflexivity|]. rewrite HNp.
        split; [lia|]. cbn [reviews]. subst all.
        repeat split; try assumption; try lia.
        now apply slice0_length.
      * contradiction.
      * destruct Hres as (N & HN & Hk & He & Htr).
        assert (Htrace : trace w' = trace w ++ rounds asin 1 N ++ [LimitChecked]).
        { rewrite Htr, Ht, <- !app_assoc. replace N with (S (N - 1)) at 2 by lia.
          now rewrite rounds_S, <- app_assoc. }
        assert (Hf : pagesFetched w w' = Z.of_nat N).
        { rewrite (pagesFetched_app _ _ _ Htrace), filter_app, length_app, rounds_count.
          simpl. lia. }
        exists (Throws e), w'. split; [reflexivity|]. split; [lia|].
        split; [exact He|]. exists N. split; [now apply pagesToFetch_after|].
        split; assumption.
  - (* the first page meets the limit *)
    apply Z.ltb_ge in Hfirst.
    assert (HNp : pagesToFetch o asin limit = 1%nat).
    { apply pagesToFetch_first; [lia|intros k Hk; lia|].
      unfold stopsAt, accumulated. rewrite Hone.
      replace (limit <=? _) with true by (symmetry; now apply Z.leb_le).
      reflexivity. }
    assert (Hf : pagesFetched w w3 = 1) by (now rewrite (pagesFetched_app _ _ _ Ht)).
    eexists. eexists. split; [reflexivity|]. rewrite HNp.
    split; [lia|]. cbn [reviews]. rewrite Hone.
    repeat split; try assumption; try lia.
    now apply slice0_length.
Qed.

(** The limit 3 against one review on page 1 and an empty page 2: two
    pages are fetched and the one review is returned. *)
Lemma C4_witness :
  0 < 3 /\ (4 <= 4)%nat
  /\ exists res w',
       collectReviews 4 onePage noTracker B000000000 (Some 3) (emptyWorld jan31)
       = (res, w')
       /\ 0 <= pagesFetched (emptyWorld jan31) w' <= 5
       /\ match res with
          | Return (Some r) =>
              trace w' = trace (emptyWorld jan31)
                         ++ rounds B000000000 1 (pagesToFetch onePage B000000000 3)
              /\ pagesFetched (emptyWorld jan31) w'
                 = Z.of_nat (pagesToFetch onePage B000000000 3)
              /\ 1 <= pagesFetched (emptyWorld jan31) w'
              /\ reviews r
                 = slice0 (pagesFrom onePage B000000000 1
                             (pagesToFetch onePage B000000000 3)) 3
              /\ Z.of_nat (List.length (reviews r)) <= 3
          | Return None => False
          | Throws e =>
              e = quotaExceeded
              /\ exists n, (n < pagesToFetch onePage B000000000 3)%nat
                   /\ trace w' = trace (emptyWorld jan31)
                                 ++ rounds B000000000 1 n ++ [LimitChecked]
                   /\ pagesFetched (emptyWorld jan31) w' = Z.of_nat n
          end.
Proof.
  split; [lia|]. split; [lia|].
  apply (C4_collectReviews_with_positive_limit onePage noTracker B000000000 3 4
           (emptyWorld jan31)); lia.
Defined.

(** The claim as stated fails at three inputs.  With the limit 0 the call
    returns the one review of page 1, a list longer than the limit: a zero
    limit counts as no limit.  With the limit 3 and a first page that
    returns zero reviews, a second page is fetched: an empty first page
    does not stop the collection.  And with the limit 3 and the month's
    quota used up, the call throws before page 1 is fetched. *)
Lemma C4_claim_fails_as_stated :
  (fst (collectReviews 4 onePage noTracker B000000000 (Some 0) (emptyWorld jan31))
   = Return (Some (pageWith [aReview]))
   /\ Z.of_nat (List.length (reviews (pageWith [aReview]))) > 0)
  /\ (isEmpty (pageOf quiet B000000000 1) = true
      /\ 0 < 3
      /\ fst (collectReviews 4 quiet noTracker B000000000 (Some 3) (emptyWorld jan31))
         = Return (Some emptyPage)
      /\ pagesFetched (emptyWorld jan31)
           (snd (collectReviews 4 quiet noTracker B000000000 (Some 3)
                   (emptyWorld jan31))) = 2)
  /\ (fst (collectReviews 4 quiet metered B000000000 (Some 3) (meteredWorld 1000))
      = Throws quotaExceeded
      /\ pagesFetched (meteredWorld 1000)
           (snd (collectReviews 4 quiet metered B000000000 (Some 3)
                   (meteredWorld 1000))) = 0).
Proof.
  split; [split; [vm_compute; reflexivity|reflexivity]|].
  split; [repeat split; vm_compute; reflexivity|].
  split; vm_compute; reflexivity.
Qed.

(** C8: [getCurrentUsage], through which [canMakeCall], [recordUsage],
    [getRemainingCalls] and [getUsageStats] all read, uses the month key
    computed when the tracker was constructed, whatever the clock says at
    the call.  A tracker built on 31 January 2025 and asked on 1 February
    2025 answers for ["2025-01"], not for ["2025-02"]. *)
Theorem C8_month_key_fixed_at_construction :
  (forall (o : Outside.t) (limit : Z) (w0 w1 : World),
     exists tracker r w',
       newUsageTracker limit w0 = (Return tracker, w0)
       /\ getCurrentUsage o tracker w1 = (Return r, w')
       /\ month r = getCurrentMonth (now w0)
       /\ fst (getUsageStats o tracker w1)
          = Return {| st_month := getCurrentMonth (now w0);
                      st_callsUsed := callsUsed r;
                      st_callsLimit := callsLimit r;
                      st_remaining := callsLimit r - callsUsed r;
                      st_percentageUsed := percentage (callsUsed r) (callsLimit r) |}
       /\ fst (canMakeCall o tracker w1) = Return (callsUsed r <? callsLimit r))
  /\ getCurrentMonth jan31 = str "2025-01"
  /\ getCurrentMonth feb01 = str "2025-02"
  /\ (exists tracker stats,
        fst (newUsageTracker 1000 (emptyWorld jan31)) = Return tracker
        /\ fst (getUsageStats quiet tracker (emptyWorld feb01)) = Return stats
        /\ st_month stats = str "2025-01"
        /\ st_remaining stats = 1000).
Proof.
  split; [|split; [|split]].
  - intros o limit w0 w1.
    destruct (getCurrentUsage_run o
                {| monthlyLimit := limit; currentMonth := getCurrentMonth (now w0) |} w1)
      as (r & w' & Hrun & Hm & _).
    eexists. exists r, w'. split; [reflexivity|]. split; [exact Hrun|].
    split; [exact Hm|]. unfold getUsageStats, canMakeCall, bind.
    rewrite Hrun. simpl. rewrite Hm. split; reflexivity.
  - vm_compute. reflexivity.
  - vm_compute. reflexivity.
  - eexists. eexists. split; [reflexivity|]. split; [reflexivity|].
    split; vm_compute; reflexivity.
Qed.

(** ** The scheduler *)

Lemma statusIs_eq (s : JobStatus) (r : JobRow) : statusIs s r = true <-> status r = s.
Proof.
  unfold statusIs. destruct (status r), s; simpl; split; congruence.
Qed.

(** C9: [cancelScheduledJob jobId] changes the table by status, not by
    id: when the queue lets the job go, every row that was pending is set
    to failed with the error ["Cancelled by user"], whatever its id, and
    every other row, the one of [jobId] included, stays as it was. *)
Theorem C9_cancel_matches_status_not_id
    (o : Outside.t) (jobId : jsstring) (w : World) :
  removeJob o jobId = Return tt ->
  exists w',
    cancelScheduledJob o jobId w = (Return tt, w')
    /\ List.length (scrapeJobs w') = List.length (scrapeJobs w)
    /\ forall i r, nth_error (scrapeJobs w) i = Some r ->
         exists r', nth_error (scrapeJobs w') i = Some r'
           /\ job_id r' = job_id r
           /\ (status r = pending ->
                 status r' = failed
                 /\ error r' = Some (str "Cancelled by user")
                 /\ completedAt r' = Some (now w))
           /\ (status r <> pending -> r' = r).
Proof.
  intros Hq. unfold cancelScheduledJob, bind, lift. rewrite Hq.
  eexists. split; [reflexivity|]. simpl. unfold updateJobs.
  split; [apply length_map|].
  intros i r Hi. rewrite nth_error_map, Hi. simpl.
  eexists. split; [reflexivity|].
  destruct (statusIs pending r) eqn:E.
  - split; [reflexivity|]. split; [intros _; repeat split|].
    intros Hne. apply statusIs_eq in E. contradiction.
  - split; [reflexivity|]. split; [|reflexivity].
    intros Hp. apply statusIs_eq in Hp. congruence.
Qed.

(** Cancelling job ["2"], which is running, while job ["1"] is pending:
    job ["1"] is the one marked failed. *)
Lemma C9_witness :
  removeJob quiet (str "2") = Return tt
  /\ map status
       (scrapeJobs (snd (cancelScheduledJob quiet (str "2")
          (withRows [rowOf (str "1") pending jan31; rowOf (str "2") running jan31]))))
     = [failed; running]
  /\ exists w',
       cancelScheduledJob quiet (str "2")
         (withRows [rowOf (str "1") pending jan31; rowOf (str "2") running jan31])
       = (Return tt, w')
       /\ List.length (scrapeJobs w') = 2%nat.
Proof.
  split; [reflexivity|]. split; [reflexivity|].
  destruct (C9_cancel_matches_status_not_id quiet (str "2")
              (withRows [rowOf (str "1") pending jan31; rowOf (str "2") running jan31])
              eq_refl) as (w' & Hrun & Hlen & _).
  exists w'. split; [exact Hrun|exact Hlen].
Defined.

(** ** The table of jobs *)

Lemma idIs_eq (id : jsstring) (r : JobRow) : idIs id r = true <-> job_id r = id.
Proof. apply eqb_eq. Qed.

Lemma hasJob_In (id : jsstring) (t : list JobRow) :
  hasJob id t = true <-> In id (map job_id t).
Proof.
  unfold hasJob. rewrite existsb_exists, in_map_iff. split.
  - intros (r & Hin & Hr). exists r. split; [now apply idIs_eq|assumption].
  - intros (r & Hr & Hin). exists r. split; [assumption|now apply idIs_eq].
Qed.

Lemma updateJobs_ids (c : JobRow -> bool) (p : JobPatch) (t : list JobRow) :
  map job_id (updateJobs c p t) = map job_id t.
Proof.
  unfold updateJobs. rewrite map_map. apply map_ext.
  intros r. now destruct (c r).
Qed.

Lemma exec_keyed (s : Stmt) (t : list JobRow) : keyed t -> keyed (exec s t).
Proof.
  unfold keyed. intros H. destruct s as [row|c p]; simpl.
  - destruct (hasJob (job_id row) t) eqn:E; [assumption|].
    rewrite map_app. simpl. apply NoDup_app; [assumption| | ].
    + constructor; [intros []|constructor].
    + intros x Hx [<-|[]]. apply hasJob_In in Hx. congruence.
  - now rewrite updateJobs_ids.
Qed.

Lemma exec_hasJob (id : jsstring) (s : Stmt) (t : list JobRow) :
  hasJob id t = true -> hasJob id (exec s t) = true.
Proof.
  rewrite !hasJob_In. intros H. destruct s as [row|c p]; simpl.
  - destruct (hasJob (job_id row) t); [assumption|].
    rewrite map_app. apply in_or_app. now left.
  - now rewrite updateJobs_ids.
Qed.

Lemma execAll_keyed (l : list Stmt) : forall t, keyed t -> keyed (execAll l t).
Proof.
  induction l as [|s l IH]; intros t H; [assumption|].
  simpl. apply IH. now apply exec_keyed.
Qed.

Lemma execAll_hasJob (id : jsstring) (l : list Stmt) :
  forall t, hasJob id t = true -> hasJob id (execAll l t) = true.
Proof.
  induction l as [|s l IH]; intros t H; [assumption|].
  simpl. apply IH. now apply exec_hasJob.
Qed.

Lemma selectJob_nil (id : jsstring) (t : list JobRow) :
  hasJob id t = false -> selectJob id t = [].
Proof.
  unfold selectJob, hasJob. induction t as [|r t IH]; [reflexivity|].
  simpl. destruct (idIs id r); simpl; [discriminate|]. exact IH.
Qed.

Lemma selectJob_cons (id : jsstring) (t : list JobRow) :
  hasJob id t = true -> exists r, selectJob id t = [r] /\ In r t /\ job_id r = id.
Proof.
  unfold selectJob, hasJob. induction t as [|r t IH]; [discriminate|].
  simpl. destruct (idIs id r) eqn:E; simpl.
  - intros _. exists r. split; [reflexivity|]. split; [now left|now apply idIs_eq].
  - intros H. destruct (IH H) as (r' & Hs & Hin & Hid).
    exists r'. split; [exact Hs|]. split; [now right|exact Hid].
Qed.

Lemma selectJob_found (id : jsstring) (t : list JobRow) (r : JobRow) (l : list JobRow) :
  selectJob id t = r :: l -> hasJob id t = true /\ In r t /\ job_id r = id /\ l = [].
Proof.
  intros H. destruct (hasJob id t) eqn:E.
  - destruct (selectJob_cons id t E) as (r' & Hs & Hin & Hid).
    rewrite Hs in H. injection H as -> <-. repeat split; assumption.
  - rewrite (selectJob_nil id t E) in H. discriminate.
Qed.

Lemma countJobs_none (id : jsstring) (t : list JobRow) :
  hasJob id t = false -> countJobs id t = 0%nat.
Proof.
  unfold countJobs, hasJob. induction t as [|r t IH]; [reflexivity|].
  simpl. destruct (idIs id r); simpl; [discriminate|]. exact IH.
Qed.

(** Under the primary key an id that is present is present once. *)
Lemma countJobs_keyed (id : jsstring) (t : list JobRow) :
  keyed t -> hasJob id t = true -> countJobs id t = 1%nat.
Proof.
  unfold keyed. induction t as [|r t IH]; [discriminate|].
  intros Hk Hh. simpl in Hk. inversion Hk as [|x l Hnotin Hk']; subst.
  unfold countJobs, hasJob in *. simpl in *. destruct (idIs id r) eqn:E.
  - simpl. f_equal. apply idIs_eq in E. subst id.
    apply countJobs_none. destruct (hasJob (job_id r) t) eqn:Hh'; [|reflexivity].
    apply hasJob_In in Hh'. contradiction.
  - simpl in Hh. now apply IH.
Qed.

Lemma countJobs_update (id : jsstring) (c : JobRow -> bool) (p : JobPatch)
    (t : list JobRow) :
  countJobs id (updateJobs c p t) = countJobs id t.
Proof.
  unfold countJobs, updateJobs. induction t as [|r t IH]; [reflexivity|].
  simpl. replace (idIs id (if c r then applyPatch p r else r)) with (idIs id r)
    by (now destruct (c r)).
  destruct (idIs id r); simpl; now rewrite IH.
Qed.

(** After [update ... set status = s ... where id = jobId], every row of
    that id has the status [s]. *)
Lemma updateJobs_status (id : jsstring) (p : JobPatch) (s : JobStatus)
    (t : list JobRow) (r : JobRow) :
  set_status p = Some s ->
  In r (updateJobs (idIs id) p t) -> job_id r = id ->
  status r = s /\ forall m, set_error p = Some m -> error r = Some m.
Proof.
  intros Hp Hin Hid. unfold updateJobs in Hin. apply in_map_iff in Hin as (r0 & Hr & _).
  destruct (idIs id r0) eqn:E.
  - subst r. simpl. rewrite Hp. simpl. split; [reflexivity|].
    now intros m ->.
  - subst r0. apply idIs_eq in Hid. congruence.
Qed.

(** ** The worker *)

(** C2: a job whose record is found suspended at the look-up returns at
    once: [processJob] returns normally and the world is the one it
    started in, so no row of any table is written (the job's record stays
    suspended, nothing is marked running, completed or failed), no handler
    runs, and nothing is sent to the scraping API. *)
Theorem C2_suspended_job_is_left_alone
    (o : Outside.t) (this : CollectionWorker) (job : Job)
    (w : World) (r : JobRow) :
  selectJob (id job) (scrapeJobs w) = [r] ->
  status r = suspended ->
  processJob o this job w = (Return tt, w).
Proof.
  intros Hsel Hst.
  unfold processJob, tryCatch, bind at 1, reconcile, bind at 1, get.
  rewrite Hsel. replace (statusIs suspended r) with true
    by (symmetry; now apply statusIs_eq).
  reflexivity.
Qed.

(** The suspended job ["1"] against an outside that would refuse its
    insert: nothing happens. *)
Lemma C2_witness :
  selectJob (id productJob) (scrapeJobs (withRows [rowOf (str "1") suspended jan31]))
  = [rowOf (str "1") suspended jan31]
  /\ status (rowOf (str "1") suspended jan31) = suspended
  /\ processJob disconnected plainWorker productJob
       (withRows [rowOf (str "1") suspended jan31])
     = (Return tt, withRows [rowOf (str "1") suspended jan31]).
Proof.
  split; [reflexivity|]. split; [reflexivity|].
  exact (C2_suspended_job_is_left_alone disconnected plainWorker productJob
           (withRows [rowOf (str "1") suspended jan31])
           (rowOf (str "1") suspended jan31) eq_refl eq_refl).
Defined.

(** The worker's own statement that marks a job running. *)
Lemma markRunning_run (jobId : jsstring) (w : World) :
  markRunning jobId w
  = (Return tt, withJobs (updateJobs (idIs jobId) (runningPatch (now w))) w).
Proof. reflexivity. Qed.

Lemma await_run (o : Outside.t) (k : nat) (w : World) :
  await o k w = (Return tt, withJobs (execAll (others o k)) w).
Proof. reflexivity. Qed.

(** The [catch] block on a conflict, when the second look-up finds the
    record. *)
Lemma onInsertError_conflict (o : Outside.t) (jobId : jsstring) (e : JsError)
    (w : World) :
  isDuplicateKey e = true ->
  hasJob jobId (scrapeJobs w) = true ->
  onInsertError o jobId e w
  = (Return tt,
     withJobs (fun t => updateJobs (idIs jobId) (runningPatch (now w))
                          (execAll (others o 3) (execAll (others o 2) t))) w).
Proof.
  intros He Hh. unfold onInsertError. rewrite He.
  unfold bind at 1. rewrite await_run. unfold bind at 1, get.
  destruct (selectJob_cons jobId (scrapeJobs (withJobs (execAll (others o 2)) w)))
    as (r & Hs & _).
  { simpl. now apply execAll_hasJob. }
  rewrite Hs. unfold bind. rewrite await_run, markRunning_run. reflexivity.
Qed.

(** ** What a failed insert says *)

Lemma startsWith_app (p s : jsstring) : startsWith p (p ++ s) = true.
Proof. induction p as [|x p IH]; [reflexivity|]. cbn. now rewrite N.eqb_refl. Qed.

Lemma startsWith_split (p s : jsstring) :
  startsWith p s = true -> s = p ++ skipn (List.length p) s.
Proof.
  revert s. induction p as [|x p IH]; intros s H; [reflexivity|].
  destruct s as [|y s]; [discriminate|]. cbn in H.
  apply andb_true_iff in H as (Hx & Hp). apply N.eqb_eq in Hx as ->.
  cbn. f_equal. now apply IH.
Qed.

Lemma trimStart_split (s : jsstring) :
  exists ws, s = ws ++ trimStart s /\ forallb isWhiteSpace ws = true.
Proof.
  induction s as [|c s (ws & Hs & Hw)]; [now exists []|]. cbn [trimStart].
  destruct (isWhiteSpace c) eqn:E.
  - exists (c :: ws). cbn. rewrite E, Hw. split; [now f_equal|reflexivity].
  - now exists [].
Qed.

Lemma trimStart_spaces (ws s : jsstring) :
  forallb isWhiteSpace ws = true -> trimStart (ws ++ 34%N :: s) = 34%N :: s.
Proof.
  induction ws as [|c ws IH]; intros H; [reflexivity|]. cbn in H.
  apply andb_true_iff in H as (Hc & Hw). cbn. rewrite Hc. now apply IH.
Qed.

Lemma takeNonQuote_split (s : jsstring) :
  s = fst (takeNonQuote s) ++ snd (takeNonQuote s)
  /\ forallb noQuote (fst (takeNonQuote s)) = true.
Proof.
  induction s as [|c s (Hs & Hq)]; [now split|]. cbn [takeNonQuote].
  destruct (c =? 34)%N eqn:E; [now split|].
  destruct (takeNonQuote s) as [g r]. cbn in *. unfold noQuote at 1. rewrite E, Hq.
  split; [now f_equal|reflexivity].
Qed.

Lemma takeNonQuote_until (g s : jsstring) :
  forallb noQuote g = true -> takeNonQuote (g ++ 34%N :: s) = (g, 34%N :: s).
Proof.
  induction g as [|c g IH]; intros H; [reflexivity|]. cbn in H.
  apply andb_true_iff in H as (Hc & Hg). cbn. unfold noQuote in Hc.
  destruct (c =? 34)%N; [discriminate|]. now rewrite IH.
Qed.

Lemma matchCodeAt_sound (s g : jsstring) :
  matchCodeAt s = Some g ->
  exists ws post,
    s = str "code:" ++ ws ++ 34%N :: g ++ 34%N :: post
    /\ forallb isWhiteSpace ws = true /\ g <> [] /\ forallb noQuote g = true.
Proof.
  unfold matchCodeAt. destruct (startsWith (str "code:") s) eqn:Hp; [|discriminate].
  apply startsWith_split in Hp. change (List.length (str "code:")) with 5%nat in Hp.
  destruct (trimStart_split (skipn 5 s)) as (ws & Hws & Hw).
  destruct (trimStart (skipn 5 s)) as [|q r]; [discriminate|].
  destruct (q =? 34)%N eqn:Eq.
  2:{ destruct q as [|q]; [discriminate|].
      do 6 (destruct q as [q|q|]; try discriminate). }
  apply N.eqb_eq in Eq as ->.
  destruct (takeNonQuote_split r) as (Hr & Hq).
  destruct (takeNonQuote r) as [[|c g'] [|q' post]]; try discriminate.
  cbn [fst snd] in *.
  destruct (q' =? 34)%N eqn:Eq'.
  2:{ destruct q' as [|q']; [discriminate|].
      do 6 (destruct q' as [q'|q'|]; try discriminate). }
  apply N.eqb_eq in Eq' as ->. intros [= <-].
  exists ws, post. split; [|split; [exact Hw|split; [discriminate|exact Hq]]].
  rewrite Hp at 1. f_equal. rewrite Hws at 1. f_equal. f_equal. exact Hr.
Qed.

Lemma matchCodeAt_complete (ws g post : jsstring) :
  forallb isWhiteSpace ws = true -> g <> [] -> forallb noQuote g = true ->
  matchCodeAt (str "code:" ++ ws ++ 34%N :: g ++ 34%N :: post) = Some g.
Proof.
  intros Hw Hg Hq. unfold matchCodeAt. rewrite startsWith_app.
  change (skipn 5 (str "code:" ++ ws ++ 34%N :: g ++ 34%N :: post))
    with (ws ++ 34%N :: g ++ 34%N :: post).
  rewrite trimStart_spaces by exact Hw. rewrite takeNonQuote_until by exact Hq.
  destruct g; [now contradiction Hg|reflexivity].
Qed.

Lemma insertJob_run (o : Outside.t) (row : JobRow) (w : World) :
  inEnum (job_type row) = true ->
  insertJob o row w
  = match insertFault o with
    | Some e => (Throws e, w)
    | None =>
        if hasJob (job_id row) (scrapeJobs w)
        then (Throws (uniqueViolation o (job_id row)), w)
        else (Return tt, withJobs (fun t => t ++ [row]) w)
    end.
Proof.
  intros H. unfold insertJob. destruct (job_type row); (reflexivity || discriminate).
Qed.

Lemma includes_head (s p : jsstring) : startsWith p s = true -> includes s p = true.
Proof. intros H. destruct s; cbn [includes]; now rewrite H. Qed.

Lemma includes_cons (x : N) (s p : jsstring) :
  includes s p = true -> includes (x :: s) p = true.
Proof. intros H. cbn [includes]. rewrite H. apply orb_true_r. Qed.

Lemma includes_app (pre p post : jsstring) : includes (pre ++ p ++ post) p = true.
Proof.
  induction pre as [|x pre IH].
  - apply includes_head. exact (startsWith_app p post).
  - apply includes_cons. exact IH.
Qed.

Lemma includes_self (p : jsstring) : includes p p = true.
Proof. apply includes_head. rewrite <- (app_nil_r p) at 2. apply startsWith_app. Qed.

(** The code [extractPostgresErrorCode] finds stands in the detail. *)
Lemma extractPostgresErrorCode_in (d g : jsstring) :
  extractPostgresErrorCode d = Some g -> includes d g = true.
Proof.
  induction d as [|c d IH]; intros H; [discriminate H|].
  cbn [extractPostgresErrorCode] in H.
  destruct (matchCodeAt (c :: d)) as [g'|] eqn:Hm.
  - injection H as ->.
    destruct (matchCodeAt_sound _ _ Hm) as (ws & post & Hs & _).
    rewrite Hs.
    replace (str "code:" ++ ws ++ 34%N :: g ++ 34%N :: post)
      with ((str "code:" ++ ws ++ [34%N]) ++ g ++ 34%N :: post)
      by (now rewrite <- !app_assoc).
    apply includes_app.
  - apply includes_cons. now apply IH.
Qed.

(** The message and the code the [catch] block reads are among the things
    the error says. *)
Lemma errorMessageOf_said (e : JsError) : In (errorMessageOf e) (texts e).
Proof.
  unfold errorMessageOf, texts, causeField, fallback.
  destruct (e_message e) as [|c m]; [|right; now left].
  destruct (e_cause e) as [ca|]; [|now left].
  destruct (c_message ca) as [[|c m]|]; try (now left).
  right. right. apply in_or_app. right. now left.
Qed.

Ltac among :=
  cbn [said app];
  repeat first [ left; reflexivity | right | apply in_or_app; right ].

Lemma errorCodeOf_said (e : JsError) (code : jsstring) :
  errorCodeOf e = Some code ->
  exists t, In t (texts e) /\ includes t code = true.
Proof.
  unfold errorCodeOf, texts, causeField, fallback.
  destruct (e_code e) as [[|c k]|] eqn:Ec;
    [| intros [= <-]; exists (c :: k); split; [among|apply includes_self] |];
    (destruct (e_cause e) as [ca|]; [|discriminate]);
    (destruct (c_code ca) as [[|c k]|];
     [| intros [= <-]; exists (c :: k); split; [among|apply includes_self] |]);
    (destruct (c_detail ca) as [[|c d]|]; try discriminate);
    intros H; exists (c :: d);
    (split; [among|now apply extractPostgresErrorCode_in]).
Qed.

(** An error that bears no mark of a conflict is not taken for one. *)
Lemma unmarked_not_duplicate (e : JsError) : unmarked e -> isDuplicateKey e = false.
Proof.
  intros H. unfold isDuplicateKey.
  destruct (H _ (errorMessageOf_said e)) as (M1 & M2).
  destruct (H (errorToString e) (or_introl eq_refl)) as (S1 & S2).
  rewrite M1, M2, S1, S2.
  destruct (errorCodeOf e) as [code|] eqn:Ec; [|reflexivity].
  destruct (eqb code (str "23505")) eqn:E; [|reflexivity].
  apply eqb_eq in E. subst code.
  destruct (errorCodeOf_said e _ Ec) as (t & Hin & Hinc).
  destruct (H t Hin) as (C & _). congruence.
Qed.

(** A unique violation is taken for a conflict, whatever its message. *)
Lemma uniqueViolation_is_duplicate (e : JsError) :
  isUniqueViolation e -> isDuplicateKey e = true.
Proof.
  intros [H|(H & c & Hc & Hcc)]; unfold isDuplicateKey.
  - assert (Hcode : errorCodeOf e = Some (str "23505")).
    { unfold errorCodeOf, fallback. now rewrite H. }
    now rewrite Hcode.
  - assert (Hcode : errorCodeOf e = Some (str "23505")).
    { unfold errorCodeOf, causeField, fallback. now rewrite H, Hc, Hcc. }
    now rewrite Hcode.
Qed.

(** An insert error the [catch] block does not take for a conflict leaves
    the protocol and [processJob]. *)
Lemma insert_failure_rethrown (o : Outside.t) (job : Job) (w : World) (e : JsError) :
  hasJob (id job) (scrapeJobs w) = false ->
  (forall w1, insertJob o (newRunningRow job (now w1)) w1 = (Throws e, w1)) ->
  isDuplicateKey e = false ->
  reconcile o job w = (Throws e, withJobs (execAll (others o 1)) w)
  /\ forall this, exists w', processJob o this job w = (Throws e, w').
Proof.
  intros Hnone Hfail Hother.
  assert (Hrec : reconcile o job w = (Throws e, withJobs (execAll (others o 1)) w)).
  { unfold reconcile, bind at 1, get. rewrite (selectJob_nil _ _ Hnone).
    unfold bind at 1. rewrite await_run. unfold bind at 1, get.
    unfold bind at 1, tryCatch. rewrite Hfail.
    unfold onInsertError. rewrite Hother. reflexivity. }
  split; [exact Hrec|].
  intros this. unfold processJob, tryCatch, bind at 1. rewrite Hrec.
  unfold bind, finalize. destruct (truthyStr (id job)); eexists; reflexivity.
Qed.

(** C1: the worker finds no record for the job and inserts one, running.
    - When the insert is refused because a record of the id was created in
      between, and the driver reports it as a unique violation (code
      23505 on the error or on the error it wraps), the worker looks the
      record up again and marks it running: the protocol returns
      normally, and the table holds exactly one record of that id, which
      is running.
    - When the insert fails with an error that bears no mark of a
      conflict (nothing it says holds 23505 or the words duplicate key),
      be it a fault of the database or a job type the column refuses, that
      error is rethrown: it leaves the protocol and [processJob].
    - When the insert succeeds, the new record is the one record of that
      id, and it is running. *)
Theorem C1_insert_conflict_falls_back_to_update
    (o : Outside.t) (job : Job) (w : World) :
  keyed (scrapeJobs w) ->
  hasJob (id job) (scrapeJobs w) = false ->
  (insertFault o = None ->
   inEnum (jd_type (data job)) = true ->
   hasJob (id job) (execAll (others o 1) (scrapeJobs w)) = true ->
   isUniqueViolation (uniqueViolation o (id job)) ->
   exists w',
     reconcile o job w = (Return true, w')
     /\ countJobs (id job) (scrapeJobs w') = 1%nat
     /\ forall r, In r (scrapeJobs w') -> job_id r = id job -> status r = running)
  /\ (forall e,
        insertFault o = Some e
        \/ (insertFault o = None
            /\ exists s, jd_type (data job) = T_other s /\ invalidType o s = e) ->
        unmarked e ->
        (exists w', reconcile o job w = (Throws e, w'))
        /\ forall this, exists w', processJob o this job w = (Throws e, w'))
  /\ (insertFault o = None ->
      inEnum (jd_type (data job)) = true ->
      hasJob (id job) (execAll (others o 1) (scrapeJobs w)) = false ->
      exists w',
        reconcile o job w = (Return true, w')
        /\ countJobs (id job) (scrapeJobs w') = 1%nat
        /\ forall r, In r (scrapeJobs w') -> job_id r = id job -> status r = running).
Proof.
  intros Hkey Hnone.
  assert (Hstart :
            reconcile o job w
            = (tryCatch (insertJob o (newRunningRow job (now w)))
                        (onInsertError o (id job)) ;;; ret true)
                (withJobs (execAll (others o 1)) w)).
  { unfold reconcile, bind at 1, get. rewrite (selectJob_nil _ _ Hnone).
    reflexivity. }
  split; [|split].
  - intros Hfault Henum Hrace Hdup.
    rewrite Hstart.
    unfold bind at 1, tryCatch. rewrite insertJob_run by exact Henum.
    rewrite Hfault.
    cbn [scrapeJobs withJobs job_id newRunningRow]. rewrite Hrace.
    rewrite onInsertError_conflict
      by (first [now apply uniqueViolation_is_duplicate | assumption]).
    eexists. split; [reflexivity|]. cbn [scrapeJobs withJobs]. split.
    + rewrite countJobs_update. apply countJobs_keyed.
      * do 3 apply execAll_keyed. exact Hkey.
      * do 2 apply execAll_hasJob. exact Hrace.
    + intros r Hin Hid.
      now destruct (updateJobs_status (id job) (runningPatch _) running _ r
                      eq_refl Hin Hid).
  - intros e Hfails Hclean.
    destruct (insert_failure_rethrown o job w e Hnone) as (Hrec & Hproc).
    + intros w1. unfold insertJob.
      destruct Hfails as [Hfault|(Hfault & s & Ht & <-)]; rewrite Hfault;
        [reflexivity|].
      cbn [job_type newRunningRow]. now rewrite Ht.
    + now apply unmarked_not_duplicate.
    + split; [eexists; exact Hrec|exact Hproc].
  - intros Hfault Henum Hfree.
    rewrite Hstart.
    unfold bind at 1, tryCatch. rewrite insertJob_run by exact Henum.
    rewrite Hfault.
    cbn [scrapeJobs withJobs job_id newRunningRow]. rewrite Hfree.
    eexists. split; [reflexivity|]. cbn [scrapeJobs withJobs]. split.
    + unfold countJobs. rewrite filter_app, length_app.
      fold (countJobs (id job) (execAll (others o 1) (scrapeJobs w))).
      rewrite (countJobs_none _ _ Hfree). simpl.
      unfold idIs at 1. simpl. now rewrite eqb_refl.
    + intros r Hin Hid. apply in_app_or in Hin as [Hin|[<-|[]]]; [|reflexivity].
      exfalso. assert (Hh : hasJob (id job) (execAll (others o 1) (scrapeJobs w)) = true).
      { apply hasJob_In. rewrite <- Hid. now apply in_map. }
      congruence.
Qed.

(** A producer inserts the record of job ["1"] between the worker's
    look-up and the worker's insert: the worker's insert is refused with
    a unique violation, the worker marks the producer's record running.
    And when the connection is lost at the insert, the error leaves
    [processJob], even though a producer inserts the record right
    after. *)
Lemma C1_witness :
  keyed (scrapeJobs (emptyWorld jan31))
  /\ hasJob (id productJob) (scrapeJobs (emptyWorld jan31)) = false
  /\ (insertFault racing = None
      /\ inEnum (jd_type (data productJob)) = true
      /\ hasJob (id productJob)
           (execAll (others racing 1) (scrapeJobs (emptyWorld jan31))) = true
      /\ isUniqueViolation (uniqueViolation racing (id productJob))
      /\ exists w',
           reconcile racing productJob (emptyWorld jan31) = (Return true, w')
           /\ countJobs (id productJob) (scrapeJobs w') = 1%nat
           /\ forall r, In r (scrapeJobs w') -> job_id r = id productJob ->
                        status r = running)
  /\ (insertFault disconnectedRacing = Some connectionLost
      /\ unmarked connectionLost
      /\ exists w',
           processJob disconnectedRacing plainWorker productJob (emptyWorld jan31)
           = (Throws connectionLost, w')).
Proof.
  assert (Hclean : unmarked connectionLost).
  { intros t [<-|[<-|[]]]; split; reflexivity. }
  split; [constructor|]. split; [reflexivity|]. split.
  - split; [reflexivity|]. split; [reflexivity|]. split; [reflexivity|].
    split; [now left|].
    exact (proj1 (C1_insert_conflict_falls_back_to_update racing productJob
                    (emptyWorld jan31) (NoDup_nil _) eq_refl)
                 eq_refl eq_refl eq_refl (or_introl eq_refl)).
  - split; [reflexivity|]. split; [exact Hclean|].
    exact (proj2 (proj1 (proj2 (C1_insert_conflict_falls_back_to_update
                                  disconnectedRacing productJob (emptyWorld jan31)
                                  (NoDup_nil _) eq_refl))
                          connectionLost (or_introl eq_refl) Hclean)
                 plainWorker).
Defined.

(** The insert fails because the database refuses the connection, on port
    23505, and a producer inserts the record of the job right after.  The
    failure is no uniqueness conflict: the error carries no code and wraps
    nothing, and no record of the id is in the table when the insert is
    tried.  Yet its message holds 23505: the worker takes it for a
    conflict, finds the producer's record at the second look-up, marks it
    running and goes on.  The error is not rethrown, by the protocol or by
    [processJob]. *)
Lemma C1_failure_naming_23505_is_not_rethrown :
  insertFault refusing = Some portRefused
  /\ ~ isUniqueViolation portRefused
  /\ hasJob (id productJob)
       (execAll (others refusing 1) (scrapeJobs (emptyWorld jan31))) = false
  /\ fst (reconcile refusing productJob (emptyWorld jan31)) = Return true
  /\ map (fun r => (job_id r, status r))
         (scrapeJobs (snd (reconcile refusing productJob (emptyWorld jan31))))
     = [(str "1", running)]
  /\ fst (processJob refusing plainWorker productJob (emptyWorld jan31))
     <> Throws portRefused
  /\ ~ (forall (o : Outside.t) (job : Job) (w : World) (e : JsError),
          keyed (scrapeJobs w) ->
          hasJob (id job) (scrapeJobs w) = false ->
          insertFault o = Some e -> ~ isUniqueViolation e ->
          exists w', reconcile o job w = (Throws e, w')).
Proof.
  assert (Hno : ~ isUniqueViolation portRefused).
  { intros [H|(_ & c & H & _)]; discriminate H. }
  split; [reflexivity|]. split; [exact Hno|]. split; [reflexivity|].
  split; [reflexivity|]. split; [reflexivity|]. split.
  - vm_compute. discriminate.
  - intros H.
    destruct (H refusing productJob (emptyWorld jan31) portRefused
                (NoDup_nil _) eq_refl eq_refl Hno) as (w' & Hw).
    apply (f_equal fst) in Hw. vm_compute in Hw. discriminate Hw.
Qed.

Example race_ends_with_one_running_record :
  fst (reconcile racing productJob (emptyWorld jan31)) = Return true
  /\ map (fun r => (job_id r, status r))
         (scrapeJobs (snd (reconcile racing productJob (emptyWorld jan31))))
     = [(str "1", running)].
Proof. split; reflexivity. Qed.

Example lost_connection_propagates :
  isDuplicateKey connectionLost = false
  /\ fst (processJob disconnected plainWorker productJob (emptyWorld jan31))
     = Throws connectionLost
  /\ scrapeJobs (snd (processJob disconnected plainWorker productJob (emptyWorld jan31)))
     = [].
Proof. repeat split; reflexivity. Qed.

Lemma onlyJobs_refl (w : World) : onlyJobs w w.
Proof. repeat split. Qed.

Lemma hasJob_update (id : jsstring) (c : JobRow -> bool) (p : JobPatch)
    (t : list JobRow) :
  hasJob id (updateJobs c p t) = hasJob id t.
Proof.
  destruct (hasJob id t) eqn:E.
  - apply hasJob_In. rewrite updateJobs_ids. now apply hasJob_In.
  - destruct (hasJob id (updateJobs c p t)) eqn:E'; [|reflexivity].
    apply hasJob_In in E'. rewrite updateJobs_ids in E'.
    apply hasJob_In in E'. congruence.
Qed.

(** Carries a frame over from a hypothesis to the goal. *)
Ltac frame H :=
  let A1 := fresh in let A2 := fresh in let A3 := fresh in
  let A4 := fresh in let A5 := fresh in let A6 := fresh in
  let A7 := fresh in
  destruct H as (A1 & A2 & A3 & A4 & A5 & A6 & A7); repeat split; assumption.

(** The [catch] block writes to [scrape_jobs] only, and when it returns
    the job has its record. *)
Lemma onInsertError_run (o : Outside.t) (jobId : jsstring) (e : JsError) (w : World) :
  exists res w',
    onInsertError o jobId e w = (res, w')
    /\ onlyJobs w w'
    /\ (res = Return tt -> hasJob jobId (scrapeJobs w') = true).
Proof.
  unfold onInsertError. destruct (isDuplicateKey e).
  - unfold bind at 1. rewrite await_run. unfold bind at 1, get.
    destruct (selectJob jobId (scrapeJobs (withJobs (execAll (others o 2)) w)))
      as [|r l] eqn:Hs.
    + eexists. eexists. split; [reflexivity|]. split; [repeat split|discriminate].
    + apply selectJob_found in Hs as (Hh & _).
      unfold bind. rewrite await_run, markRunning_run.
      eexists. eexists. split; [reflexivity|]. split; [repeat split|].
      intros _. cbn [scrapeJobs withJobs]. rewrite hasJob_update.
      now apply execAll_hasJob.
  - eexists. eexists. split; [reflexivity|]. split; [repeat split|discriminate].
Qed.

(** The dequeue-time protocol writes to [scrape_jobs] only, and when it
    lets the job go on the job has its record. *)
Lemma insertJob_cases (o : Outside.t) (row : JobRow) (w : World) :
  (exists e, insertJob o row w = (Throws e, w))
  \/ insertJob o row w = (Return tt, withJobs (fun t => t ++ [row]) w).
Proof.
  unfold insertJob. destruct (insertFault o) as [e|]; [left; now exists e|].
  destruct (job_type row);
    try (destruct (hasJob (job_id row) (scrapeJobs w));
         [left; eexists; reflexivity|right; reflexivity]).
  left. eexists. reflexivity.
Qed.

Lemma reconcile_run (o : Outside.t) (job : Job) (w : World)
    (res : outcome bool) (w' : World) :
  reconcile o job w = (res, w') ->
  onlyJobs w w' /\ (res = Return true -> hasJob (id job) (scrapeJobs w') = true).
Proof.
  unfold reconcile, bind at 1, get.
  destruct (selectJob (id job) (scrapeJobs w)) as [|r l] eqn:Hs.
  - unfold bind at 1. rewrite await_run. unfold bind at 1, get.
    unfold bind at 1, tryCatch.
    destruct (insertJob_cases o (newRunningRow job (now (withJobs (execAll (others o 1)) w)))
                (withJobs (execAll (others o 1)) w)) as [(e & ->) | ->].
    + destruct (onInsertError_run o (id job) e (withJobs (execAll (others o 1)) w))
        as (r1 & w1 & -> & Ho & Hh).
      destruct r1 as [[]|e1]; intros [= <- <-].
      * split; [|intros _; now apply Hh].
        frame Ho.
      * split; [|discriminate].
        frame Ho.
    + intros [= <- <-]. split; [repeat split|]. intros _.
      cbn [scrapeJobs withJobs]. apply hasJob_In. rewrite map_app.
      apply in_or_app. right. now left.
  - apply selectJob_found in Hs as (Hh & _).
    destruct (statusIs suspended r).
    + intros [= <- <-]. split; [apply onlyJobs_refl|discriminate].
    + unfold bind. rewrite await_run, markRunning_run. intros [= <- <-].
      split; [repeat split|]. intros _. cbn [scrapeJobs withJobs].
      rewrite hasJob_update. now apply execAll_hasJob.
Qed.

(** The client's call leaves the world as it is, but for the request it
    sends. *)
Lemma getProductByASIN_cases (o : Outside.t) (asin : jsstring) (w : World) :
  exists res,
    getProductByASIN o asin w = (res, withEvent (Request (ProductCall asin)) w).
Proof.
  unfold getProductByASIN, bind, modify, lift.
  destruct (productEndpoint o asin) as [[response|]|e].
  - destruct (body response); eexists; reflexivity.
  - destruct (productDataSchema _); eexists; reflexivity.
  - eexists; reflexivity.
Qed.

(** A call of [collectProductByASIN] writes to [api_usage] only. *)
Lemma collectProductByASIN_untouched (o : Outside.t) (this : AmazonCollector)
    (asin : jsstring) (w : World) (res : outcome (option ProductData)) (w' : World) :
  collectProductByASIN o this asin w = (res, w') -> untouched w w'.
Proof.
  unfold collectProductByASIN, bind at 1.
  destruct (checkUsageLimit_run o this w) as (r1 & w1 & -> & Hr1 & _ & Hu1 & _).
  destruct Hr1 as [-> | ->]; [|now intros [= <- <-]].
  unfold bind at 1. destruct (getProductByASIN_cases o asin w1) as (r2 & ->).
  destruct r2 as [p|e]; [|now intros [= <- <-]].
  unfold bind.
  destruct (trackUsage_run o this 1 (withEvent (Request (ProductCall asin)) w1))
    as (w3 & -> & Hu3 & _).
  intros [= <- <-]. apply (untouched_trans _ w1); assumption.
Qed.

(** The look-up of a product by ASIN finds a row exactly when the table
    holds one. *)
Lemma first_of_filter {A : Type} (f : A -> bool) (before after : list A) (r : A) :
  f r = true -> (forall x, In x before -> f x = false) ->
  firstn 1 (filter f (before ++ r :: after)) = [r].
Proof.
  intros Hr. induction before as [|x before IH]; intros Hb.
  - cbn [app filter]. now rewrite Hr.
  - cbn [app filter]. rewrite (Hb x (or_introl eq_refl)).
    apply IH. intros y Hy. apply Hb. now right.
Qed.

Lemma eqb_neq (a b : jsstring) : a <> b -> eqb a b = false.
Proof.
  intros H. destruct (eqb a b) eqn:E; [|reflexivity].
  apply eqb_eq in E. contradiction.
Qed.

Lemma firstStored_select (asin : jsstring) (w : World) (row : ProductRow) :
  firstStored asin w row -> selectProduct asin (products w) = [row].
Proof.
  intros (before & after & -> & Hr & Hb). unfold selectProduct.
  apply first_of_filter.
  - rewrite Hr. apply eqb_refl.
  - intros x Hx. apply eqb_neq. now apply Hb.
Qed.

Lemma monthRecord_select (m : jsstring) (w : World) (r : UsageRow) :
  monthRecord m w r -> selectUsage m (apiUsage w) = [r].
Proof.
  intros (before & after & -> & Hr & Hb). unfold selectUsage.
  apply first_of_filter.
  - rewrite Hr. apply eqb_refl.
  - intros x Hx. apply eqb_neq. now apply Hb.
Qed.

Lemma usedIn_select (m : jsstring) (t : list UsageRow) :
  usedIn m t = match selectUsage m t with r :: _ => callsUsed r | [] => 0 end.
Proof.
  unfold selectUsage. induction t as [|r t IH]; [reflexivity|].
  cbn [usedIn filter]. destruct (eqb (month r) m); [reflexivity|exact IH].
Qed.

Lemma selectProduct_stored (asin : jsstring) (w : World) :
  selectProduct asin (products w) <> [] <-> stored asin w.
Proof.
  unfold selectProduct, stored. induction (products w) as [|r t IH].
  - split; [intros H; now contradiction H|intros (r & [] & _)].
  - cbn [filter]. destruct (eqb (p_asin r) asin) eqn:E.
    + split; [|discriminate]. intros _. exists r. split; [now left|].
      now apply eqb_eq.
    + rewrite IH. split.
      * intros (r' & Hin & Hr). exists r'. split; [now right|exact Hr].
      * intros (r' & [<-|Hin] & Hr).
        -- rewrite Hr, eqb_refl in E. discriminate.
        -- exists r'. now split.
Qed.

(** C3: a product job that started, whose fetch yields no validated
    product.  No product, price or review row is written either way.  When
    a product with the job's ASIN is in storage, the handler returns, the
    job is marked completed and [processJob] returns normally; when none
    is, the handler throws an error whose message says that the product
    data for this ASIN could not be fetched, the job is marked failed with
    that message, and the error leaves [processJob]. *)
Theorem C3_product_job_without_validated_product
    (o : Outside.t) (this : CollectionWorker) (job : Job)
    (asin : jsstring) (w w1 w2 : World) :
  jd_type (data job) = T_product ->
  jd_asin (data job) = Some asin -> asin <> [] ->
  id job <> [] ->
  reconcile o job w = (Return true, w1) ->
  collectProductByASIN o (collector this) asin w1 = (Return None, w2) ->
  let message :=
    str "Failed to fetch product data for ASIN: " ++ asin
    ++ str ". Product validation failed or product not found. ScraperAPI have returned invalid data." in
  exists res w',
    processJob o this job w = (res, w')
    /\ products w' = products w /\ prices w' = prices w
    /\ reviewRows w' = reviewRows w
    /\ hasJob (id job) (scrapeJobs w') = true
    /\ (stored asin w ->
        res = Return tt
        /\ forall r, In r (scrapeJobs w') -> job_id r = id job ->
                     status r = completed)
    /\ (~ stored asin w ->
        res = Throws (Error message)
        /\ forall r, In r (scrapeJobs w') -> job_id r = id job ->
                     status r = failed /\ error r = Some message).
Proof.
  intros Htype Hasin Hne Hid Hrec Hfetch message.
  destruct (reconcile_run o job w _ _ Hrec) as [Hj Hstarted].
  specialize (Hstarted eq_refl).
  destruct Hj as (J1 & J2 & J3 & J4 & J5 & J6 & J7).
  pose proof (collectProductByASIN_untouched _ _ _ _ _ _ Hfetch)
    as (U1 & U2 & U3 & U4 & U5).
  assert (Htruthy : truthyStr (id job) = true)
    by (destruct (id job); [contradiction|reflexivity]).
  assert (Hhandler :
            processProductJob o this (data job) w1
            = match selectProduct asin (products w) with
              | _ :: _ => (Return tt, w2)
              | [] => (Throws (Error message), w2)
              end).
  { unfold processProductJob, bind at 1, requireAsin. rewrite Hasin.
    destruct asin as [|c a]; [contradiction|].
    unfold ret at 1, bind at 1, get, bind at 1. rewrite Hfetch, J2.
    destruct (selectProduct (c :: a) (products w)); reflexivity. }
  assert (Hfinal : forall p,
            hasJob (id job) (scrapeJobs (withJobs (updateJobs (idIs (id job)) p) w2))
            = true).
  { intros p. cbn [scrapeJobs withJobs]. rewrite hasJob_update, U2. exact Hstarted. }
  pose proof (selectProduct_stored asin w) as Hstored.
  unfold processJob, tryCatch, bind at 1. rewrite Hrec.
  unfold bind at 1, dispatch. rewrite Htype, Hhandler.
  destruct (selectProduct asin (products w)) as [|pr l] eqn:Hsel.
  - (* no stored product: the job fails *)
    unfold bind at 1, finalize. rewrite Htruthy. unfold bind at 1, get, modify, throw.
    eexists. eexists. split; [reflexivity|].
    cbn [products prices reviewRows withJobs].
    split; [congruence|]. split; [congruence|]. split; [congruence|].
    split; [apply Hfinal|].
    split; [intros H; apply Hstored in H; now contradiction H|].
    intros _. split; [reflexivity|].
    intros r Hin Hr. cbn [scrapeJobs withJobs] in Hin.
    destruct (updateJobs_status (id job)
                (failedPatch (e_message (Error message)) (now w2)) failed _ r
                eq_refl Hin Hr) as [Hs He].
    split; [exact Hs|]. now apply He.
  - (* a stored product: soft no-op, the job completes *)
    unfold finalize. rewrite Htruthy. unfold bind at 1, get, modify.
    eexists. eexists. split; [reflexivity|].
    cbn [products prices reviewRows withJobs].
    split; [congruence|]. split; [congruence|]. split; [congruence|].
    split; [apply Hfinal|].
    split; [|intros H; exfalso; apply H, Hstored; discriminate].
    intros _. split; [reflexivity|].
    intros r Hin Hr. cbn [scrapeJobs withJobs] in Hin.
    now destruct (updateJobs_status (id job) (completedPatch (now w2)) completed _ r
                    eq_refl Hin Hr).
Qed.
(** The product job for B000000000, the scraping API answering with a body
    that does not validate.  With the product in storage the job completes
    and the stored product is as it was; on an empty database the job ends
    failed, with the message that names the ASIN. *)
Lemma C3_witness :
  (stored B000000000 withStoredProduct
   /\ exists w',
        processJob quiet plainWorker productJob withStoredProduct = (Return tt, w')
        /\ products w' = [storedProduct]
        /\ forall r, In r (scrapeJobs w') -> job_id r = id productJob ->
                     status r = completed)
  /\ (~ stored B000000000 (emptyWorld jan31)
      /\ exists e w',
           processJob quiet plainWorker productJob (emptyWorld jan31) = (Throws e, w')
           /\ e_message e
              = str "Failed to fetch product data for ASIN: B000000000. Product validation failed or product not found. ScraperAPI have returned invalid data."
           /\ forall r, In r (scrapeJobs w') -> job_id r = id productJob ->
                        status r = failed /\ error r = Some (e_message e)).
Proof.
  assert (Hin : stored B000000000 withStoredProduct).
  { exists storedProduct. split; [now left|reflexivity]. }
  assert (Hout : ~ stored B000000000 (emptyWorld jan31)).
  { intros (r & [] & _). }
  split.
  - split; [exact Hin|].
    destruct (C3_product_job_without_validated_product quiet plainWorker productJob
                B000000000 withStoredProduct startedStored fetchedStored
                eq_refl eq_refl
                ltac:(discriminate) ltac:(discriminate) eq_refl eq_refl)
      as (res & w' & Hrun & Hp & _ & _ & _ & Hskip & _).
    destruct (Hskip Hin) as (-> & Hdone).
    exists w'. split; [exact Hrun|]. split; [exact Hp|exact Hdone].
  - split; [exact Hout|].
    destruct (C3_product_job_without_validated_product quiet plainWorker productJob
                B000000000 (emptyWorld jan31) started fetched
                eq_refl eq_refl
                ltac:(discriminate) ltac:(discriminate) eq_refl eq_refl)
      as (res & w' & Hrun & _ & _ & _ & _ & _ & Hfail).
    destruct (Hfail Hout) as (-> & Hfailed).
    eexists. exists w'. split; [exact Hrun|]. split; [reflexivity|exact Hfailed].
Defined.

Example product_job_fails_without_stored_product :
  fst (processJob quiet plainWorker productJob (emptyWorld jan31))
  = Throws (fetchFailed B000000000)
  /\ map (fun r => (job_id r, status r))
         (scrapeJobs (snd (processJob quiet plainWorker productJob (emptyWorld jan31))))
     = [(str "1", failed)]
  /\ products (snd (processJob quiet plainWorker productJob (emptyWorld jan31))) = [].
Proof. repeat split; reflexivity. Qed.

Example product_job_skips_with_stored_product :
  fst (processJob quiet plainWorker productJob withStoredProduct) = Return tt
  /\ map (fun r => (job_id r, status r))
         (scrapeJobs (snd (processJob quiet plainWorker productJob withStoredProduct)))
     = [(str "1", completed)]
  /\ products (snd (processJob quiet plainWorker productJob withStoredProduct))
     = [storedProduct].
Proof. repeat split; reflexivity. Qed.

(** The guard of the [catch] block: an insert error that reads like a
    conflict while no record of the job is found at the second look-up
    is rethrown.  A refused insert cannot end here, since the record that
    refused it is still in the table; only a fault whose text merely
    resembles a conflict can. *)
Lemma conflict_without_record_is_rethrown
    (o : Outside.t) (job : Job) (w : World) (e : JsError) :
  hasJob (id job) (scrapeJobs w) = false ->
  insertFault o = Some e ->
  isDuplicateKey e = true ->
  hasJob (id job) (execAll (others o 2) (execAll (others o 1) (scrapeJobs w))) = false ->
  fst (reconcile o job w) = Throws e.
Proof.
  intros Hnone Hfault Hdup Hgone.
  unfold reconcile, bind at 1, get. rewrite (selectJob_nil _ _ Hnone).
  unfold bind at 1. rewrite await_run. unfold bind at 1, get.
  unfold bind at 1, tryCatch, insertJob. rewrite Hfault.
  unfold onInsertError. rewrite Hdup.
  unfold bind at 1. rewrite await_run. unfold bind at 1, get.
  cbn [scrapeJobs withJobs]. rewrite (selectJob_nil _ _ Hgone). reflexivity.
Qed.

(* ================================================================== *)
(** * Further properties of the code *)
(* ================================================================== *)

(** ** Identifiers and text (data-processor.ts) *)

(** Settles comparisons of code units that linear arithmetic decides. *)
Ltac decideN :=
  repeat match goal with
  | |- context [(?a <=? ?b)%N] =>
      first [ replace (a <=? b)%N with true by (symmetry; apply N.leb_le; lia)
            | replace (a <=? b)%N with false by (symmetry; apply N.leb_gt; lia) ]
  | |- context [(?a <? ?b)%N] =>
      first [ replace (a <? b)%N with true by (symmetry; apply N.ltb_lt; lia)
            | replace (a <? b)%N with false by (symmetry; apply N.ltb_ge; lia) ]
  | |- context [(?a =? ?b)%N] =>
      first [ replace (a =? b)%N with true by (symmetry; apply N.eqb_eq; lia)
            | replace (a =? b)%N with false by (symmetry; apply N.eqb_neq; lia) ]
  end.

Lemma isUpperAlnum_range (c : N) :
  isUpperAlnum c = true -> (48 <= c <= 57 \/ 65 <= c <= 90)%N.
Proof.
  unfold isUpperAlnum. intros H. apply orb_true_iff in H as [H|H];
    apply andb_true_iff in H as [H1 H2];
    apply N.leb_le in H1; apply N.leb_le in H2; lia.
Qed.

Lemma isUpperAlnum_plain (c : N) :
  isUpperAlnum c = true ->
  isWhiteSpace c = false /\ (c <? 128)%N = true /\ asciiUpper c = c.
Proof.
  intros H. apply isUpperAlnum_range in H.
  unfold isWhiteSpace, asciiUpper. destruct H as [H|H]; decideN; repeat split.
Qed.

Lemma toUpperCase_alnum (host : jsstring -> jsstring) (s : jsstring) :
  forallb isUpperAlnum s = true -> toUpperCase host s = s.
Proof.
  unfold toUpperCase. induction s as [|c s IH]; [reflexivity|].
  simpl. intros H. apply andb_true_iff in H as [Hc Hs].
  destruct (isUpperAlnum_plain c Hc) as (_ & -> & ->). simpl.
  now rewrite IH.
Qed.

Lemma trimStart_snoc (l : jsstring) (c : N) :
  trimStart (l ++ [c])
  = match trimStart l with
    | [] => if isWhiteSpace c then [] else [c]
    | r => r ++ [c]
    end.
Proof.
  induction l as [|x l IH]; simpl.
  - now destruct (isWhiteSpace c).
  - destruct (isWhiteSpace x); [exact IH|reflexivity].
Qed.

(** [trimEnd] removes white space from the end, unit by unit. *)
Lemma trimEnd_trimEndR (s : jsstring) : trimEnd s = trimEndR s.
Proof.
  unfold trimEnd. induction s as [|c s IH]; [reflexivity|].
  simpl. rewrite trimStart_snoc, <- IH.
  destruct (trimStart (rev s)) as [|x r]; simpl.
  - now destruct (isWhiteSpace c).
  - rewrite rev_app_distr. simpl.
    destruct (rev r ++ [x]) eqn:E; [|reflexivity].
    now destruct (rev r).
Qed.

Lemma trimEndR_clean (s : jsstring) :
  forallb (fun c => negb (isWhiteSpace c)) s = true -> trimEndR s = s.
Proof.
  induction s as [|c s IH]; [reflexivity|]. simpl. intros H.
  apply andb_true_iff in H as [Hc Hs]. rewrite (IH Hs).
  apply negb_true_iff in Hc. rewrite Hc. now destruct s.
Qed.

Lemma trim_clean (s : jsstring) :
  forallb (fun c => negb (isWhiteSpace c)) s = true -> trim s = s.
Proof.
  intros H. unfold trim. rewrite trimEnd_trimEndR.
  assert (Hs : trimStart s = s).
  { destruct s as [|c s]; [reflexivity|]. simpl in *.
    apply andb_true_iff in H as [Hc _]. apply negb_true_iff in Hc. now rewrite Hc. }
  rewrite Hs. now apply trimEndR_clean.
Qed.

Lemma matchesAsin_shape (s : jsstring) :
  matchesAsin s = true ->
  exists rest, s = 66%N :: rest /\ List.length rest = 9%nat
               /\ forallb isUpperAlnum rest = true.
Proof.
  destruct s as [|c rest]; [discriminate|]. simpl.
  destruct c as [|p]; [discriminate|].
  do 7 (destruct p as [p|p|]; try discriminate).
  intros H. apply andb_true_iff in H as [Hl Hr]. apply Nat.eqb_eq in Hl.
  exists rest. repeat split; assumption.
Qed.

Lemma matchesAsin_alnum (s : jsstring) :
  matchesAsin s = true -> forallb isUpperAlnum s = true.
Proof.
  intros H. destruct (matchesAsin_shape s H) as (rest & -> & _ & Hr).
  simpl. exact Hr.
Qed.

(** X1: [isValidASIN] accepts exactly the strings [validateASIN] returns
    on; what [validateASIN] returns is the trimmed, upper-cased input, ten
    code units long, [B] followed by nine of [A]-[Z] and [0]-[9]; and it is
    a normal form: validating it again returns it unchanged.  So
    ["B08N5WRWNW"] and [" b08n5wrwnw "] are valid and give the same ASIN,
    and ["X08N5WRWNW"] is not. *)
Theorem X1_asin_normal_form (host : jsstring -> jsstring) (asin : jsstring) :
  (isValidASIN host (Some asin) = true <-> exists a, validateASIN host asin = Return a)
  /\ (forall a, validateASIN host asin = Return a ->
        a = toUpperCase host (trim asin)
        /\ (exists rest, a = 66%N :: rest /\ List.length rest = 9%nat
                         /\ forallb isUpperAlnum rest = true)
        /\ validateASIN host a = Return a
        /\ isValidASIN host (Some a) = true)
  /\ validateASIN host (str "B08N5WRWNW") = Return (str "B08N5WRWNW")
  /\ validateASIN host (str " b08n5wrwnw ") = Return (str "B08N5WRWNW")
  /\ isValidASIN host (Some (str "X08N5WRWNW")) = false.
Proof.
  split; [|split; [|repeat split; reflexivity]].
  - unfold isValidASIN, validateASIN. destruct asin as [|c a]; simpl.
    + split; [discriminate|]. intros [a H]. discriminate.
    + destruct (matchesAsin (toUpperCase host (trim (c :: a)))).
      * split; [eauto|reflexivity].
      * split; [discriminate|]. intros [x H]. discriminate.
  - intros a H. unfold validateASIN in H.
    destruct (negb (truthyStr asin)); [discriminate|].
    destruct (matchesAsin (toUpperCase host (trim asin))) eqn:Hm; [|discriminate].
    injection H as <-. split; [reflexivity|].
    pose proof (matchesAsin_shape _ Hm) as Hshape.
    pose proof (matchesAsin_alnum _ Hm) as Hal.
    set (a := toUpperCase host (trim asin)) in *.
    assert (Hfix : toUpperCase host (trim a) = a).
    { rewrite trim_clean; [now apply toUpperCase_alnum|].
      apply forallb_forall. intros x Hx.
      apply (proj1 (forallb_forall _ _) Hal) in Hx.
      now destruct (isUpperAlnum_plain x Hx) as (-> & _). }
    split; [exact Hshape|].
    destruct Hshape as (rest & Ha & _).
    unfold validateASIN, isValidASIN. rewrite Ha. simpl truthyStr. cbn [negb].
    rewrite <- Ha, Hfix, Hm. split; reflexivity.
Qed.

(** ** [normalizeText] *)

Lemma isWhiteSpace_space : isWhiteSpace 32 = true.
Proof. reflexivity. Qed.

Lemma endsClean_cons (c : N) (s : jsstring) :
  s <> [] -> endsClean (c :: s) = endsClean s.
Proof. destruct s; [contradiction|reflexivity]. Qed.

Lemma trimEndR_endsClean (s : jsstring) : endsClean (trimEndR s) = true.
Proof.
  induction s as [|c s IH]; [reflexivity|]. simpl.
  destruct (trimEndR s) as [|x r] eqn:E.
  - destruct (isWhiteSpace c) eqn:Hc; simpl; [reflexivity|now rewrite Hc].
  - exact IH.
Qed.

Lemma trimStart_head (s : jsstring) :
  match trimStart s with
  | [] => True
  | c :: _ => isWhiteSpace c = false
  end.
Proof.
  induction s as [|c s IH]; simpl; [exact I|].
  destruct (isWhiteSpace c) eqn:E; [exact IH|exact E].
Qed.

Lemma trimEndR_head (c : N) (s : jsstring) :
  isWhiteSpace c = false -> exists r, trimEndR (c :: s) = c :: r.
Proof.
  intros H. simpl. destruct (trimEndR s); rewrite ?H; eauto.
Qed.

(** What [trim] returns is empty, or starts and ends outside white
    space. *)
Lemma trim_ends (s : jsstring) :
  endsClean (trim s) = true
  /\ match trim s with
     | [] => True
     | c :: _ => isWhiteSpace c = false
     end.
Proof.
  unfold trim. rewrite trimEnd_trimEndR. split; [apply trimEndR_endsClean|].
  pose proof (trimStart_head s) as H. destruct (trimStart s) as [|c u]; [exact I|].
  destruct (trimEndR_head c u H) as [r ->]. exact H.
Qed.

Lemma collapse_tidy (t : jsstring) :
  forall p r,
    endsClean t = true ->
    (t = [] -> p = false) ->
    (p = true -> r = true \/ match t with
                             | c :: _ => isWhiteSpace c = false
                             | [] => True
                             end) ->
    tidyFrom p (collapseFrom r t) = true.
Proof.
  induction t as [|c t IH]; intros p r Hend Hnil Hp.
  - simpl. now rewrite Hnil.
  - simpl. destruct (isWhiteSpace c) eqn:Hc.
    + assert (Ht : t <> []).
      { intros ->. simpl in Hend. rewrite Hc in Hend. discriminate. }
      rewrite endsClean_cons in Hend by exact Ht.
      destruct r; simpl.
      * apply IH; [exact Hend|intros E; contradiction|intros _; now left].
      * assert (p = false) as ->.
        { destruct p; [|reflexivity]. destruct (Hp eq_refl); congruence. }
        simpl. apply IH; [exact Hend|intros E; contradiction|intros _; now left].
    + simpl. assert (Hne : (c =? 32)%N = false).
      { apply N.eqb_neq. intros ->. rewrite isWhiteSpace_space in Hc. discriminate. }
      rewrite Hne, Hc. simpl.
      apply IH; [|reflexivity|discriminate].
      destruct t; [reflexivity|exact Hend].
Qed.

Lemma tidy_collapse (s : jsstring) :
  forall p r, tidyFrom p s = true -> (r = true -> p = true) ->
              collapseFrom r s = s.
Proof.
  induction s as [|c s IH]; intros p r H Hr; [reflexivity|].
  simpl in *. destruct (c =? 32)%N eqn:E.
  - apply N.eqb_eq in E. subst c. rewrite isWhiteSpace_space.
    apply andb_true_iff in H as [Hp Hs]. apply negb_true_iff in Hp. subst p.
    destruct r; [now specialize (Hr eq_refl)|]. simpl. f_equal.
    now apply (IH true true).
  - apply andb_true_iff in H as [Hc Hs]. apply negb_true_iff in Hc.
    rewrite Hc. f_equal. apply (IH false false); [exact Hs|discriminate].
Qed.

Lemma tidy_trimEndR (s : jsstring) :
  forall p, tidyFrom p s = true -> trimEndR s = s.
Proof.
  induction s as [|c s IH]; intros p H; [reflexivity|].
  simpl in *. destruct (c =? 32)%N eqn:E.
  - apply andb_true_iff in H as [_ Hs]. rewrite (IH _ Hs).
    destruct s; [discriminate Hs|reflexivity].
  - apply andb_true_iff in H as [Hc Hs]. apply negb_true_iff in Hc.
    rewrite (IH _ Hs), Hc. now destruct s.
Qed.

Lemma tidy_normal (s : jsstring) : isTidy s = true -> normalizeText s = s.
Proof.
  destruct s as [|c s]; [reflexivity|]. unfold isTidy. intros H.
  unfold normalizeText, collapseSpaces, trim. rewrite trimEnd_trimEndR.
  assert (Hs : trimStart (c :: s) = c :: s).
  { simpl in *. destruct (c =? 32)%N; [discriminate|].
    apply andb_true_iff in H as [Hc _]. apply negb_true_iff in Hc. now rewrite Hc. }
  rewrite Hs, (tidy_trimEndR _ _ H).
  apply (tidy_collapse _ true false); [exact H|discriminate].
Qed.

Lemma normalizeText_tidy (s : jsstring) : isTidy (normalizeText s) = true.
Proof.
  unfold normalizeText, collapseSpaces.
  destruct (trim_ends s) as [Hend Hhead].
  destruct (trim s) as [|c t] eqn:E; [reflexivity|].
  assert (Hc : tidyFrom true (collapseFrom false (c :: t)) = true).
  { apply collapse_tidy; [exact Hend|discriminate|intros _; now right]. }
  unfold isTidy. destruct (collapseFrom false (c :: t)); [reflexivity|exact Hc].
Qed.

Lemma normalizeText_blank (s : jsstring) : normalizeText s = [] <-> trim s = [].
Proof.
  unfold normalizeText, collapseSpaces. destruct (trim_ends s) as [_ Hhead].
  destruct (trim s) as [|c t]; [split; reflexivity|].
  simpl. rewrite Hhead. split; discriminate.
Qed.

(** X2: what [normalizeText] returns is tidy (its only white space is the
    single space, never first, never last, never doubled); normalizing
    tidy text changes nothing, so [normalizeText] is idempotent; and the
    result is empty exactly when the input is blank. *)
Theorem X2_normalizeText_normal_form (s : jsstring) :
  isTidy (normalizeText s) = true
  /\ normalizeText (normalizeText s) = normalizeText s
  /\ (normalizeText s = [] <-> trim s = [])
  /\ (isTidy s = true -> normalizeText s = s).
Proof.
  split; [apply normalizeText_tidy|].
  split; [apply tidy_normal, normalizeText_tidy|].
  split; [apply normalizeText_blank|apply tidy_normal].
Qed.

Lemma validateASIN_valid (host : jsstring -> jsstring) (asin : jsstring) :
  isValidASIN host (Some asin) = true ->
  validateASIN host asin = Return (toUpperCase host (trim asin))
  /\ matchesAsin (toUpperCase host (trim asin)) = true.
Proof.
  unfold isValidASIN, validateASIN. destruct asin as [|c a]; [discriminate|].
  simpl. intros ->. split; reflexivity.
Qed.

Lemma validateASIN_invalid (host : jsstring -> jsstring) (asin : jsstring) :
  isValidASIN host (Some asin) = false -> exists e, validateASIN host asin = Throws e.
Proof.
  unfold isValidASIN, validateASIN. destruct asin as [|c a]; simpl; [eauto|].
  intros ->. eauto.
Qed.

(** X3: [processProduct] throws exactly on the products whose ASIN
    [isValidASIN] rejects.  When it returns, the entity carries the
    normalized ASIN (which has the fixed format), the caller's id when one
    is given and the drawn one otherwise, a tidy title, exactly the input
    images that parse as URLs, in their order, and a currency that is never
    empty. *)
Theorem X3_processProduct_validates
    (host : jsstring -> jsstring) (isURL : jsstring -> bool) (nanoid : jsstring)
    (data : ProductData) (productId : option jsstring) :
  (isValidASIN host (Some (asin data)) = false ->
   exists e, processProduct host isURL nanoid data productId = Throws e)
  /\ (isValidASIN host (Some (asin data)) = true ->
      exists p,
        processProduct host isURL nanoid data productId = Return p
        /\ pd_asin p = toUpperCase host (trim (asin data))
        /\ matchesAsin (pd_asin p) = true
        /\ pd_id p = match productId with
                     | Some (c :: i) => c :: i
                     | _ => nanoid
                     end
        /\ isTidy (pd_title p) = true
        /\ pd_images p
           = filter isURL (match images data with Some l => l | None => [] end)
        /\ pd_currency p <> []).
Proof.
  split.
  - intros H. unfold processProduct.
    destruct (validateASIN_invalid host _ H) as [e ->]. eauto.
  - intros H. unfold processProduct.
    destruct (validateASIN_valid host _ H) as [-> Hm].
    eexists. split; [reflexivity|]. cbn.
    repeat split; try assumption; try apply normalizeText_tidy.
    destruct (price data) as [p|]; [|discriminate].
    destruct (currency p) as [|c s]; discriminate.
Qed.

(** ** What [processReviews] returns *)

Lemma keepReview_facts (r : ReviewData) :
  keepReview r = true ->
  ge (rv_rating r) (ofZ 1) = true /\ le (rv_rating r) (ofZ 5) = true
  /\ trim (rv_text r) <> [].
Proof.
  rewrite keepReview_excluded. unfold excluded, ratingInRange, blankText.
  intros H. apply negb_true_iff, orb_false_iff in H as [Hr Hb].
  apply negb_false_iff, andb_true_iff in Hr as [H1 H5].
  repeat split; try assumption.
  intros E. rewrite E in Hb. discriminate.
Qed.

Lemma mapReviews_kept (nanoid : nat -> jsstring) (parseDate : jsstring -> option Date)
    (productId : jsstring) (l : list ReviewData) :
  Forall (fun r => keepReview r = true) l ->
  forall k,
    Forall (fun p => ge (pr_rating p) (ofZ 1) = true
                     /\ le (pr_rating p) (ofZ 5) = true
                     /\ pr_text p <> []
                     /\ isTidy (pr_text p) = true
                     /\ pr_productId p = productId)
           (dropNull (mapReviews nanoid parseDate k productId l))
    /\ map pr_id (dropNull (mapReviews nanoid parseDate k productId l))
       = map nanoid (seq k (List.length l)).
Proof.
  induction 1 as [|r l Hr _ IH]; intros k; [split; [constructor|reflexivity]|].
  simpl. unfold toProcessed. rewrite (keepReview_validates r Hr).
  destruct (IH (S k)) as [Hall Hids].
  destruct (keepReview_facts r Hr) as (H1 & H5 & Ht).
  split.
  - constructor; [|exact Hall]. cbn.
    repeat split; try assumption; [|apply normalizeText_tidy].
    intros E. now apply normalizeText_blank in E.
  - cbn. now rewrite Hids.
Qed.

(** X4: every review [processReviews] returns has a rating inside [1,5],
    a text that is not empty and is tidy, and the given product id; and
    their ids are the identifiers drawn, one per returned review, in
    order. *)
Theorem X4_processed_reviews_are_valid
    (nanoid : nat -> jsstring) (parseDate : jsstring -> option Date)
    (reviewsData : ReviewsResponse) (productId : jsstring) :
  Forall (fun p => ge (pr_rating p) (ofZ 1) = true
                   /\ le (pr_rating p) (ofZ 5) = true
                   /\ pr_text p <> []
                   /\ isTidy (pr_text p) = true
                   /\ pr_productId p = productId)
         (processReviews nanoid parseDate reviewsData productId)
  /\ map pr_id (processReviews nanoid parseDate reviewsData productId)
     = map nanoid
           (seq 0 (List.length (processReviews nanoid parseDate reviewsData productId))).
Proof.
  unfold processReviews.
  destruct (mapReviews_kept nanoid parseDate productId
              (filter keepReview (reviews reviewsData))
              (filter_keep_Forall _) 0) as [Hall Hids].
  split; [exact Hall|]. rewrite Hids. f_equal. f_equal.
  apply (f_equal (@List.length _)) in Hids. rewrite !length_map, length_seq in Hids.
  now rewrite Hids.
Qed.

(** ** The response schemas and the client *)

Lemma hasValidAsin_nonblank (data : RawProduct) :
  hasValidAsin data = true ->
  exists a, r_asin data = Some a /\ trim a <> [].
Proof.
  unfold hasValidAsin. destruct (r_asin data) as [a|]; [|discriminate].
  intros H. apply andb_true_iff in H as [_ H]. apply negb_true_iff in H.
  exists a. split; [reflexivity|]. intros E. rewrite E in H. discriminate.
Qed.

Lemma orStr_default (a : option jsstring) (d : jsstring) :
  d <> [] -> exists s, orStr a (Some d) = Some s /\ s <> [].
Proof.
  intros Hd. unfold orStr. destruct a as [[|c s]|]; simpl; eauto.
  exists (c :: s). split; [reflexivity|discriminate].
Qed.

(** What every validated product satisfies. *)
Lemma productDataSchema_invariants (data : RawProduct) (pd : ProductData) :
  productDataSchema data = Some pd ->
  trim (asin pd) <> [] /\ title pd <> [] /\ images pd <> None
  /\ (forall p, price pd = Some p -> currency p <> []).
Proof.
  unfold productDataSchema. destruct (hasValidAsin data) eqn:Ha; [|discriminate].
  intros [= <-]. cbn. destruct (hasValidAsin_nonblank data Ha) as (a & -> & Hne).
  split; [exact Hne|]. split; [|split; [discriminate|]].
  - unfold normalizeTitle.
    destruct (orStr_default (orStr (orStr (r_title data) (r_name data))
                                   (r_productName data))
                            (str "Untitled Product")) as (s & -> & Hs);
      [discriminate|exact Hs].
  - intros p. unfold normalizePrice.
    destruct (extractCurrent data) as [[c|] o0]; [|discriminate].
    intros [= <-]. cbn.
    destruct (r_currency data) as [[|x s]|]; discriminate.
Qed.

(** X5: a product that passes [productDataSchema] has an ASIN that is not
    blank, a title that is not empty (["Untitled Product"] at the least),
    an image list (possibly empty), and, when it has a price, a currency
    that is not empty (["USD"] at the least); a raw product whose ASIN is
    missing or blank does not pass. *)
Theorem X5_validated_product_invariants (data : RawProduct) :
  (forall pd, productDataSchema data = Some pd ->
     asin pd <> [] /\ trim (asin pd) <> [] /\ title pd <> []
     /\ images pd <> None
     /\ (forall p, price pd = Some p -> currency p <> []))
  /\ ((r_asin data = None \/ exists a, r_asin data = Some a /\ trim a = []) ->
      productDataSchema data = None).
Proof.
  split.
  - intros pd H. destruct (productDataSchema_invariants data pd H) as (Ha & Ht & Hi & Hp).
    repeat split; try assumption. intros E. apply Ha. now rewrite E.
  - unfold productDataSchema, hasValidAsin. intros [-> | (a & -> & Ha)]; [reflexivity|].
    rewrite Ha. simpl. now rewrite andb_false_r.
Qed.

Lemma validProducts_spec (l : list RawProduct) :
  map Some (validProducts l) = filter isSome (map productDataSchema l)
  /\ (List.length (validProducts l) + skippedCount l = List.length l)%nat
  /\ Forall (fun pd => trim (asin pd) <> [] /\ title pd <> []) (validProducts l).
Proof.
  induction l as [|r l (IH1 & IH2 & IH3)]; [repeat split; constructor|].
  simpl. destruct (productDataSchema r) as [pd|] eqn:E; simpl.
  - rewrite IH1. repeat split; [lia|]. constructor; [|exact IH3].
    destruct (productDataSchema_invariants r pd E) as (Ha & Ht & _).
    split; assumption.
  - repeat split; [exact IH1|lia|exact IH3].
Qed.

(** X6: [searchResponseSchema] never rejects a batch for one product: it
    keeps, in order, exactly the raw products that validate on their own
    and counts the others; every product it returns has a non-blank ASIN
    and a non-empty title; a [totalResults] and a [query] that are present
    are passed through, an absent [totalResults] becomes the number of
    products kept and an absent [query] the empty string. *)
Theorem X6_search_schema_filters_per_item (data : RawSearch) :
  let rawProducts := match rs_products data with Some l => l | None => [] end in
  let out := searchResponseSchema data in
  map Some (sr_products out) = filter isSome (map productDataSchema rawProducts)
  /\ (List.length (sr_products out) + skippedCount rawProducts
      = List.length rawProducts)%nat
  /\ Forall (fun pd => trim (asin pd) <> [] /\ title pd <> []) (sr_products out)
  /\ sr_totalResults out
     = match rs_totalResults data with
       | Some n => n
       | None => ofZ (Z.of_nat (List.length (sr_products out)))
       end
  /\ sr_query out
     = match rs_query data with
       | Some q => q
       | None => []
       end.
Proof.
  cbv zeta. unfold searchResponseSchema. cbn [sr_products sr_totalResults sr_query].
  destruct (validProducts_spec (match rs_products data with Some l => l | None => [] end))
    as (H1 & H2 & H3).
  repeat split; assumption.
Qed.

Lemma ratingField_range (v : jsval) (x : number) :
  ratingField v = Some x ->
  x = ofZ 0 \/ (ge x (ofZ 1) = true /\ le x (ofZ 5) = true).
Proof.
  destruct v as [| |b|n|s|]; try discriminate; cbn [ratingField].
  - destruct (negb (isNaN n) && ge n (ofZ 1) && le n (ofZ 5)) eqn:E; [|discriminate].
    intros [= <-]. right. apply andb_true_iff in E as [E H5].
    apply andb_true_iff in E as [_ H1]. split; assumption.
  - intros [= <-]. unfold clampRating.
    destruct (isNaN (parseFloat s)) eqn:E; [now left|right].
    now apply clamp_range.
Qed.

Lemma reviewDataSchema_facts (r : RawReview) (d : ReviewData) :
  reviewDataSchema r = Some d ->
  (rv_rating d = ofZ 0
   \/ (ge (rv_rating d) (ofZ 1) = true /\ le (rv_rating d) (ofZ 5) = true))
  /\ rv_author d <> [].
Proof.
  unfold reviewDataSchema.
  destruct (ratingField (rr_rating r)) as [x|] eqn:Hr; [|discriminate].
  destruct (optionalString (rr_title r)); [|discriminate].
  destruct (stringWithDefault [] (rr_text r)); [|discriminate].
  destruct (stringWithDefault (str "Anonymous") (rr_author r)) as [a|]; [|discriminate].
  destruct (optionalString (rr_date r)); [|discriminate].
  destruct (optionalBool (rr_verified r)); [|discriminate].
  destruct (helpfulCountField (rr_helpfulCount r)); [|discriminate].
  intros [= <-]. cbn. split; [now apply (ratingField_range (rr_rating r))|].
  destruct a; discriminate.
Qed.

Lemma allReviews_spec (l : list RawReview) :
  match allReviews l with
  | Some ds =>
      map Some ds = map reviewDataSchema l
  | None => exists r, In r l /\ reviewDataSchema r = None
  end.
Proof.
  induction l as [|r l IH]; [reflexivity|]. simpl.
  destruct (reviewDataSchema r) as [d|] eqn:E.
  - destruct (allReviews l) as [ds|].
    + simpl. now rewrite IH.
    + destruct IH as (x & Hin & Hx). exists x. split; [now right|exact Hx].
  - exists r. split; [now left|exact E].
Qed.

Lemma allReviews_rejects (l : list RawReview) (r : RawReview) :
  In r l -> reviewDataSchema r = None -> allReviews l = None.
Proof.
  induction l as [|x l IH]; [intros []|]. intros [->|Hin] Hr; simpl.
  - now rewrite Hr.
  - rewrite (IH Hin Hr). now destruct (reviewDataSchema x).
Qed.

Lemma allReviews_facts (l : list RawReview) (ds : list ReviewData) :
  allReviews l = Some ds ->
  Forall (fun d => (rv_rating d = ofZ 0
                    \/ (ge (rv_rating d) (ofZ 1) = true
                        /\ le (rv_rating d) (ofZ 5) = true))
                   /\ rv_author d <> []) ds.
Proof.
  revert ds. induction l as [|r l IH]; intros ds; simpl.
  - intros [= <-]. constructor.
  - destruct (reviewDataSchema r) as [d|] eqn:E; [|discriminate].
    destruct (allReviews l) as [ds'|]; [|discriminate].
    intros [= <-]. constructor; [now apply (reviewDataSchema_facts r)|now apply IH].
Qed.

Lemma numberOrZero_number (parse : jsstring -> number) (v : jsval) (n : number) :
  numberOrZero parse v = Some n -> isNaN n = false.
Proof.
  destruct v as [| |b|x|s|]; try discriminate; cbn [numberOrZero].
  - now intros [= <-].
  - destruct (isNaN x) eqn:E; [discriminate|]. now intros [= <-].
  - intros [= <-]. destruct (isNaN (parse s)) eqn:E; [reflexivity|exact E].
Qed.

(** X7: the client's [getProductReviews] never throws, and the page it
    returns is either what [reviewsResponseSchema] validated or the empty
    page [{reviews: [], averageRating: 0, totalReviews: 0}]: the empty
    page whenever the request failed, the body was ill-typed, or one single
    review of the body failed validation.  On every page it returns, each
    review's rating is 0 or lies in [1,5], no author is empty, and the two
    statistics are numbers. *)
Theorem X7_getProductReviews_page (answer : outcome (option ReviewsBody)) :
  let page := getProductReviewsFrom answer in
  Forall (fun d => (rv_rating d = ofZ 0
                    \/ (ge (rv_rating d) (ofZ 1) = true
                        /\ le (rv_rating d) (ofZ 5) = true))
                   /\ rv_author d <> []) (reviews page)
  /\ isNaN (averageRating page) = false
  /\ isNaN (totalReviews page) = false
  /\ (forall e, answer = Throws e -> page = noReviews)
  /\ (answer = Return None -> page = noReviews)
  /\ (forall body l r,
        answer = Return (Some body) -> rb_reviews body = Some l ->
        In r l -> reviewDataSchema r = None -> page = noReviews)
  /\ (forall body,
        answer = Return (Some body) -> page <> noReviews ->
        map Some (reviews page)
        = map reviewDataSchema
              (match rb_reviews body with Some l => l | None => [] end)).
Proof.
  cbv zeta. unfold getProductReviewsFrom.
  destruct answer as [[body|]|e].
  2,3: repeat split; try constructor; try reflexivity; try discriminate;
       try (intros; congruence).
  unfold reviewsResponseSchema.
  destruct (allReviews (match rb_reviews body with Some l => l | None => [] end))
    as [ds|] eqn:Hall.
  - destruct (numberOrZero parseFloat (rb_averageRating body)) as [avg|] eqn:Havg.
    + destruct (numberOrZero parseInt10 (rb_totalReviews body)) as [total|] eqn:Htot.
      * cbn [reviews averageRating totalReviews].
        split; [now apply (allReviews_facts _ _ Hall)|].
        split; [now apply (numberOrZero_number _ _ _ Havg)|].
        split; [now apply (numberOrZero_number _ _ _ Htot)|].
        split; [discriminate|]. split; [discriminate|]. split.
        -- intros body' l r [= <-] Hl Hin Hr. rewrite Hl in Hall.
           rewrite (allReviews_rejects l r Hin Hr) in Hall. discriminate.
        -- intros body' [= <-] _.
           pose proof (allReviews_spec
                         (match rb_reviews body with Some l => l | None => [] end)) as H.
           now rewrite Hall in H.
      * repeat split; try constructor; try reflexivity; try discriminate;
          try (intros; congruence).
    + repeat split; try constructor; try reflexivity; try discriminate;
        try (intros; congruence).
  - repeat split; try constructor; try reflexivity; try discriminate;
      try (intros; congruence).
Qed.

(** A review whose rating is a string that is not a number, and that has
    no text: it passes, with the rating 0 and the empty text. *)
Example unreadable_rating_is_zero :
  let raw := {| rr_rating := VStr (str "five"); rr_title := VUndefined;
                rr_text := VUndefined; rr_author := VUndefined;
                rr_date := VUndefined; rr_verified := VUndefined;
                rr_helpfulCount := VUndefined |} in
  option_map rv_rating (reviewDataSchema raw) = Some (ofZ 0)
  /\ option_map rv_text (reviewDataSchema raw) = Some []
  /\ option_map rv_author (reviewDataSchema raw) = Some (str "Anonymous").
Proof. repeat split; reflexivity. Qed.

(** ** [searchProducts] *)

Lemma typedItems_rejects (l : list (option RawProduct)) :
  In None l -> typedItems l = None.
Proof.
  induction l as [|[r|] l IH]; [intros []| |reflexivity].
  intros [H|H]; [discriminate|]. simpl. now rewrite (IH H).
Qed.

Lemma typedItems_all (l : list RawProduct) : typedItems (map Some l) = Some l.
Proof.
  induction l as [|r l IH]; [reflexivity|]. simpl. now rewrite IH.
Qed.

Lemma searchProductsFrom_valid (response : SearchBody) (query : jsstring) :
  Forall (fun pd => trim (asin pd) <> [] /\ title pd <> [])
         (sr_products (searchProductsFrom response query)).
Proof.
  unfold searchProductsFrom.
  destruct (typedSearch (parsedResponse response query)) as [data|]; [|constructor].
  unfold searchResponseSchema. cbn [sr_products]. apply validProducts_spec.
Qed.

Lemma validProducts_from (l : list RawProduct) (pd : ProductData) :
  In pd (validProducts l) ->
  exists raw, In raw l /\ productDataSchema raw = Some pd.
Proof.
  induction l as [|r l IH]; [intros []|]. cbn [validProducts].
  destruct (productDataSchema r) as [p|] eqn:E.
  - intros [<-|Hin].
    + exists r. split; [now left|exact E].
    + destruct (IH Hin) as (raw & Hr & Hp). exists raw. split; [now right|exact Hp].
  - intros Hin. destruct (IH Hin) as (raw & Hr & Hp).
    exists raw. split; [now right|exact Hp].
Qed.

Lemma searchResponseSchema_products (l : list RawProduct) (t : option number)
    (q : option jsstring) :
  sr_products (searchResponseSchema
                 {| rs_products := Some l; rs_totalResults := t; rs_query := q |})
  = validProducts l.
Proof. reflexivity. Qed.

(** What [searchProducts] returns for the items it has read, whatever the
    other fields hold: their validated form, or the defaults when the
    schema rejects the body. *)
Lemma searchProductsFrom_items (p : ParsedResponse) (l : list RawProduct)
    (query : jsstring) :
  parsed_products p = map Some l ->
  match typedSearch p with
  | Some data => sr_products (searchResponseSchema data) = validProducts l
  | None => True
  end.
Proof.
  intros Hp. unfold typedSearch. rewrite Hp, typedItems_all.
  destruct (optionalNumber (parsed_totalResults p)); [|exact I].
  destruct (optionalString (parsed_query p)); [|exact I].
  reflexivity.
Qed.

(** X8: once the request has returned, [searchProducts] returns whatever
    the body is.  A body that is not an object, or an object whose
    [products] and [results] are both falsy, gives
    [{products: [], totalResults: 0, query}] with the query that was asked;
    so does a bare array with one element that does not have the raw
    product's types: the schema then rejects the whole body.  A bare array
    of well-typed elements gives its elements that validate, with
    [totalResults] the length of the array, the elements dropped
    included.  An object's [products], when truthy, is read as the item
    list, whatever [results] holds, and [results] is read when [products]
    is falsy: the answer then holds the items that validate, or is the
    defaults when another field is ill-typed; a field that is truthy and
    not an array gives no product.  Every product returned is one that
    [productDataSchema] validated, and has a non-blank ASIN and a title. *)
Theorem X8_searchProducts_tolerates_shapes (query : jsstring) :
  searchProductsFrom NotAnObject query = safeDefaults query
  /\ (forall o, so_products o = Falsy -> so_results o = Falsy ->
        searchProductsFrom (AnObject o) query = safeDefaults query)
  /\ (forall l, In None l ->
        searchProductsFrom (BareArray l) query = safeDefaults query)
  /\ (forall l,
        searchProductsFrom (BareArray (map Some l)) query
        = {| sr_products := validProducts l;
             sr_totalResults := ofZ (Z.of_nat (List.length l));
             sr_query := query |})
  /\ (forall o l, so_products o = Items (map Some l) ->
        (searchProductsFrom (AnObject o) query = safeDefaults query
         \/ sr_products (searchProductsFrom (AnObject o) query) = validProducts l)
        /\ (so_totalResults o = VUndefined -> so_query o = VUndefined ->
            searchProductsFrom (AnObject o) query
            = {| sr_products := validProducts l;
                 sr_totalResults := ofZ (Z.of_nat (List.length l));
                 sr_query := query |}))
  /\ (forall o l, so_products o = Falsy -> so_results o = Items (map Some l) ->
        (searchProductsFrom (AnObject o) query = safeDefaults query
         \/ sr_products (searchProductsFrom (AnObject o) query) = validProducts l)
        /\ (so_totalResults o = VUndefined -> so_total o = VUndefined ->
            so_query o = VUndefined ->
            searchProductsFrom (AnObject o) query
            = {| sr_products := validProducts l;
                 sr_totalResults := ofZ (Z.of_nat (List.length l));
                 sr_query := query |}))
  /\ (forall o, so_products o = NotAnArray ->
        sr_products (searchProductsFrom (AnObject o) query) = [])
  /\ (forall o, so_products o = Falsy -> so_results o = NotAnArray ->
        sr_products (searchProductsFrom (AnObject o) query) = [])
  /\ (forall response pd,
        In pd (sr_products (searchProductsFrom response query)) ->
        (exists raw, productDataSchema raw = Some pd)
        /\ trim (asin pd) <> [] /\ title pd <> []).
Proof.
  split; [reflexivity|]. split; [|split; [|split; [|split; [|split; [|split; [|split]]]]]].
  - intros o Hp Hr. unfold searchProductsFrom, parsedResponse. rewrite Hp, Hr.
    reflexivity.
  - intros l Hin. unfold searchProductsFrom, typedSearch. cbn [parsedResponse parsed_products].
    now rewrite (typedItems_rejects l Hin).
  - intros l. unfold searchProductsFrom, typedSearch.
    cbn [parsedResponse parsed_products parsed_totalResults parsed_query].
    rewrite typedItems_all. unfold lengthVal. cbn [optionalNumber isNaN ofZ optionalString].
    unfold searchResponseSchema.
    cbn [rs_products rs_totalResults rs_query]. now rewrite length_map.
  - intros o l Hp. split.
    + unfold searchProductsFrom, parsedResponse. rewrite Hp.
      cbn [truthyItems negb andb itemsOf].
      rewrite andb_false_r. cbn [andb].
      match goal with |- context [typedSearch ?p] =>
        pose proof (searchProductsFrom_items p l query eq_refl) as H;
        destruct (typedSearch p) end; [right; exact H|left; reflexivity].
    + intros Ht Hq. unfold searchProductsFrom, parsedResponse. rewrite Hp, Ht, Hq.
      cbn [truthyItems negb andb itemsOf]. rewrite andb_false_r. cbn [andb].
      unfold typedSearch.
      cbn [parsed_products parsed_totalResults parsed_query nullish orVal truthyVal].
      rewrite typedItems_all. unfold lengthVal.
      cbn [optionalNumber isNaN ofZ optionalString].
      unfold searchResponseSchema.
      cbn [rs_products rs_totalResults rs_query]. now rewrite length_map.
  - intros o l Hp Hr. split.
    + unfold searchProductsFrom, parsedResponse. rewrite Hp, Hr.
      cbn [truthyItems negb andb itemsOf].
      match goal with |- context [typedSearch ?p] =>
        pose proof (searchProductsFrom_items p l query eq_refl) as H;
        destruct (typedSearch p) end; [right; exact H|left; reflexivity].
    + intros Ht Htot Hq. unfold searchProductsFrom, parsedResponse.
      rewrite Hp, Hr, Ht, Htot, Hq.
      cbn [truthyItems negb andb itemsOf]. unfold typedSearch.
      cbn [parsed_products parsed_totalResults parsed_query orVal truthyVal].
      unfold lengthVal at 1. cbn [truthyVal].
      rewrite typedItems_all.
      destruct (truthyNum (ofZ (Z.of_nat (List.length (map Some l))))) eqn:E.
      * unfold lengthVal. cbn [optionalNumber isNaN ofZ optionalString].
        unfold searchResponseSchema.
        cbn [rs_products rs_totalResults rs_query]. now rewrite length_map.
      * unfold lengthVal. cbn [optionalNumber isNaN ofZ optionalString].
        unfold searchResponseSchema.
        cbn [rs_products rs_totalResults rs_query]. now rewrite length_map.
  - intros o Hp. unfold searchProductsFrom, parsedResponse. rewrite Hp.
    cbn [truthyItems negb andb itemsOf]. rewrite andb_false_r. cbn [andb].
    match goal with |- context [typedSearch ?p] =>
      pose proof (searchProductsFrom_items p [] query eq_refl) as H;
      destruct (typedSearch p) end; [exact H|reflexivity].
  - intros o Hp Hr. unfold searchProductsFrom, parsedResponse. rewrite Hp, Hr.
    cbn [truthyItems negb andb itemsOf].
    match goal with |- context [typedSearch ?p] =>
      pose proof (searchProductsFrom_items p [] query eq_refl) as H;
      destruct (typedSearch p) end; [exact H|reflexivity].
  - intros response pd Hin. split.
    + unfold searchProductsFrom in Hin.
      destruct (typedSearch (parsedResponse response query)) as [data|]; [|destruct Hin].
      unfold searchResponseSchema in Hin. cbn [sr_products] in Hin.
      destruct (validProducts_from _ _ Hin) as (raw & _ & Hraw). now exists raw.
    + pose proof (searchProductsFrom_valid response query) as Hall.
      rewrite Forall_forall in Hall. now apply Hall.
Qed.

(** ** [makeRequest] *)

Section MakeRequestProperties.

Variable T : Type.
Variable answer : Z -> Answer T.

Lemma attempts_over (fuel : nat) (maxRetries attempt : Z) (lastError : option JsError)
    (n : Net) :
  maxRetries < attempt ->
  attempts answer fuel maxRetries attempt lastError n
  = Some (Throws (match lastError with
                  | Some e => e
                  | None => Error (str "Unknown error occurred")
                  end), n).
Proof.
  intros H. destruct fuel; simpl;
    replace (attempt <=? maxRetries) with false
      by (symmetry; apply Z.leb_gt; lia); reflexivity.
Qed.

(** An attempt that succeeds ends the loop. *)
Lemma attempts_success (fuel : nat) (maxRetries attempt : Z)
    (lastError : option JsError) (n : Net) (data : T) :
  attempt <= maxRetries ->
  dataOf (answer attempt) = Some data ->
  attempts answer (S fuel) maxRetries attempt lastError n
  = Some (Return data, fetchAt attempt n).
Proof.
  intros Hle Hd. simpl.
  replace (attempt <=? maxRetries) with true by (symmetry; apply Z.leb_le; lia).
  destruct (answer attempt) as [e|[|] status text [d|e]]; try discriminate.
  now injection Hd as ->.
Qed.

(** An attempt that fails with attempts left: the loop waits
    [waitTime attempt] and goes on, whatever the failure was. *)
Lemma attempts_retry (fuel : nat) (maxRetries attempt : Z)
    (lastError : option JsError) (n : Net) :
  attempt < maxRetries ->
  dataOf (answer attempt) = None ->
  exists lastError',
    attempts answer (S fuel) maxRetries attempt lastError n
    = attempts answer fuel maxRetries (attempt + 1) lastError'
               (sleep (waitTime attempt) (fetchAt attempt n)).
Proof.
  intros Hlt Hd. simpl.
  replace (attempt <=? maxRetries) with true by (symmetry; apply Z.leb_le; lia).
  unfold afterFailure.
  replace (attempt <? maxRetries) with true by (symmetry; apply Z.ltb_lt; lia).
  destruct (answer attempt) as [e|[|] status text [d|e]]; try discriminate; eauto.
  - rewrite andb_true_r. destruct (status =? 429); [eauto|].
    destruct text; eauto.
  - rewrite andb_true_r. destruct (status =? 429); [eauto|].
    destruct text; eauto.
Qed.

(** The last attempt fails: its error is thrown, without a wait. *)
Lemma attempts_last (fuel : nat) (maxRetries : Z) (lastError : option JsError)
    (n : Net) :
  dataOf (answer maxRetries) = None ->
  attempts answer (S fuel) maxRetries maxRetries lastError n
  = Some (Throws (errorOf (answer maxRetries)), fetchAt maxRetries n).
Proof.
  intros Hd. simpl. rewrite Z.leb_refl. unfold afterFailure.
  rewrite Z.ltb_irrefl.
  destruct (answer maxRetries) as [e|[|] status text [d|e]]; try discriminate;
    rewrite ?andb_false_r; try destruct text;
    rewrite attempts_over by lia; reflexivity.
Qed.

Lemma attempts_run (d : nat) :
  forall (fuel a maxRetries : nat) (lastError : option JsError) (n : Net),
    (a + d = maxRetries)%nat -> (d < fuel)%nat ->
    match find (succeeds answer) (seq a (S d)) with
    | Some k =>
        exists data,
          dataOf (answer (Z.of_nat k)) = Some data
          /\ attempts answer fuel (Z.of_nat maxRetries) (Z.of_nat a) lastError n
             = Some (Return data,
                     {| requested := requested n
                                     ++ map Z.of_nat (seq a (S (k - a)));
                        waited := waited n
                                  ++ map (fun j => waitTime (Z.of_nat j)) (seq a (k - a)) |})
    | None =>
        attempts answer fuel (Z.of_nat maxRetries) (Z.of_nat a) lastError n
        = Some (Throws (errorOf (answer (Z.of_nat maxRetries))),
                {| requested := requested n ++ map Z.of_nat (seq a (S d));
                   waited := waited n
                             ++ map (fun j => waitTime (Z.of_nat j)) (seq a d) |})
    end.
Proof.
  induction d as [|d IH]; intros fuel a maxRetries lastError n Hsum Hfuel;
    (destruct fuel as [|fuel]; [lia|]).
  - (* the last attempt *)
    assert (a = maxRetries) by lia. subst a.
    change (seq maxRetries 1) with [maxRetries]. cbn [find]. unfold succeeds.
    destruct (dataOf (answer (Z.of_nat maxRetries))) as [data|] eqn:Hd.
    + exists data. split; [exact Hd|].
      rewrite (attempts_success _ _ _ _ _ data) by (lia || assumption).
      rewrite Nat.sub_diag. simpl. now rewrite app_nil_r.
    + rewrite attempts_last by exact Hd. simpl. now rewrite app_nil_r.
  - change (seq a (S (S d))) with (a :: seq (S a) (S d)). cbn [find].
    unfold succeeds at 1.
    destruct (dataOf (answer (Z.of_nat a))) as [data|] eqn:Hd.
    + exists data. split; [exact Hd|].
      rewrite (attempts_success _ _ _ _ _ data) by (lia || assumption).
      rewrite Nat.sub_diag. simpl. now rewrite app_nil_r.
    + destruct (attempts_retry fuel (Z.of_nat maxRetries) (Z.of_nat a) lastError n)
        as [le' ->]; [lia|exact Hd|].
      replace (Z.of_nat a + 1) with (Z.of_nat (S a)) by lia.
      specialize (IH fuel (S a) maxRetries le'
                     (sleep (waitTime (Z.of_nat a)) (fetchAt (Z.of_nat a) n))).
      destruct (find (succeeds answer) (seq (S a) (S d))) as [k|] eqn:Hfind.
      * destruct IH as (data & Hdk & Hrun); [lia|lia|].
        assert (Hk : (S a <= k)%nat).
        { apply find_some in Hfind as [Hin _]. apply in_seq in Hin. lia. }
        exists data. split; [exact Hdk|]. rewrite Hrun.
        cbn [requested waited sleep fetchAt].
        replace (k - a)%nat with (S (k - S a)) by lia.
        cbn [seq map]. rewrite <- !app_assoc. reflexivity.
      * rewrite IH by lia. cbn [requested waited sleep fetchAt].
        cbn [seq map]. rewrite <- !app_assoc. reflexivity.
Qed.

End MakeRequestProperties.

(** X9: [makeRequest] with [maxRetries] attempts, one at least, ends
    within that many iterations.  It returns the data of the first attempt
    that answers with an OK status and a body that parses, having made the
    attempts up to that one and waited 2^k seconds after each failed
    attempt k; every kind of failure is retried alike (a refused
    connection, an error status, 429 or not, a body that cannot be read).
    When no attempt succeeds it throws the error of the last attempt, after
    [maxRetries] requests, without waiting after the last. *)
Theorem X9_makeRequest_retries
    (T : Type) (answer : Z -> Answer T) (maxRetries fuel : nat) :
  (1 <= maxRetries)%nat -> (maxRetries <= fuel)%nat ->
  match firstSuccess answer maxRetries with
  | Some k =>
      (1 <= k <= maxRetries)%nat
      /\ exists data,
           dataOf (answer (Z.of_nat k)) = Some data
           /\ makeRequest answer fuel (Z.of_nat maxRetries) offline
              = Some (Return data,
                      {| requested := upTo k;
                         waited := map waitTime (upTo (k - 1)) |})
  | None =>
      makeRequest answer fuel (Z.of_nat maxRetries) offline
      = Some (Throws (errorOf (answer (Z.of_nat maxRetries))),
              {| requested := upTo maxRetries;
                 waited := map waitTime (upTo (maxRetries - 1)) |})
  end.
Proof.
  intros Hmax Hfuel. unfold firstSuccess, makeRequest, upTo.
  pose proof (attempts_run T answer (maxRetries - 1) fuel 1 maxRetries None offline)
    as H.
  replace (S (maxRetries - 1)) with maxRetries in H by lia.
  destruct (find (succeeds answer) (seq 1 maxRetries)) as [k|] eqn:Hfind.
  - destruct H as (data & Hd & Hrun); [lia|lia|].
    assert (Hk : (1 <= k <= maxRetries)%nat).
    { apply find_some in Hfind as [Hin _]. apply in_seq in Hin. lia. }
    split; [exact Hk|]. exists data. split; [exact Hd|].
    change (Z.of_nat 1) with 1 in Hrun. rewrite Hrun.
    cbn [requested waited offline app].
    replace (S (k - 1)) with k by lia. now rewrite map_map.
  - change (Z.of_nat 1) with 1 in H. rewrite H by lia.
    cbn [requested waited offline app]. now rewrite map_map.
Qed.

(** Three attempts of which the first is refused, the second is answered
    429 and the third succeeds: three requests, waits of 2 and 4
    seconds. *)
Lemma X9_witness :
  (1 <= 3)%nat /\ (3 <= 3)%nat
  /\ makeRequest flaky 3 3 offline
     = Some (Return 7, {| requested := [1; 2; 3]; waited := [2000; 4000] |}).
Proof.
  split; [lia|]. split; [lia|].
  pose proof (X9_makeRequest_retries Z flaky 3 3 ltac:(lia) ltac:(lia)) as H.
  destruct H as (_ & data & Hd & Hrun). injection Hd as <-. exact Hrun.
Defined.

(** ** The usage tracker, read back *)

Lemma selectUsage_none_app (m : jsstring) (t : list UsageRow) (r : UsageRow) :
  selectUsage m t = [] -> month r = m -> selectUsage m (t ++ [r]) = [r].
Proof.
  unfold selectUsage. intros H Hm. rewrite filter_app. simpl.
  rewrite Hm, eqb_refl.
  destruct (filter (fun r0 => eqb (month r0) m) t); [reflexivity|discriminate].
Qed.

Lemma selectUsage_one (m : jsstring) (t : list UsageRow) (r : UsageRow)
    (l : list UsageRow) :
  selectUsage m t = r :: l -> l = [].
Proof.
  unfold selectUsage. destruct (filter (fun r0 => eqb (month r0) m) t) as [|x f];
    [discriminate|]. simpl. now intros [= _ <-].
Qed.

(** After [getCurrentUsage] the row it returned is the one the next
    look-up finds. *)
Lemma getCurrentUsage_select (o : Outside.t) (this : UsageTracker) (w : World) :
  exists r w',
    getCurrentUsage o this w = (Return r, w')
    /\ selectUsage (currentMonth this) (apiUsage w') = [r]
    /\ (selectUsage (currentMonth this) (apiUsage w) = [] ->
        apiUsage w' = apiUsage w ++ [r] /\ callsUsed r = 0
        /\ callsLimit r = monthlyLimit this /\ month r = currentMonth this
        /\ drawn w' = S (drawn w))
    /\ (selectUsage (currentMonth this) (apiUsage w) <> [] -> w' = w).
Proof.
  unfold getCurrentUsage, bind, get.
  destruct (selectUsage (currentMonth this) (apiUsage w)) as [|r l] eqn:E.
  - eexists. eexists. split; [reflexivity|]. cbn.
    split; [now apply selectUsage_none_app|].
    split; [intros _; repeat split|intros H; now contradiction H].
  - pose proof (selectUsage_one _ _ _ _ E) as ->.
    exists r, w. split; [reflexivity|]. split; [exact E|].
    split; [discriminate|reflexivity].
Qed.

Lemma getCurrentUsage_found (o : Outside.t) (this : UsageTracker) (w : World)
    (r : UsageRow) :
  selectUsage (currentMonth this) (apiUsage w) = [r] ->
  getCurrentUsage o this w = (Return r, w).
Proof. intros H. unfold getCurrentUsage, bind, get. now rewrite H. Qed.

Lemma selectUsage_map (m : jsstring) (f : UsageRow -> UsageRow) (t : list UsageRow) :
  (forall r, month (f r) = month r) ->
  selectUsage m (map f t) = map f (selectUsage m t).
Proof.
  intros Hf. unfold selectUsage. induction t as [|r t IH]; [reflexivity|].
  simpl. rewrite Hf. destruct (eqb (month r) m); [reflexivity|exact IH].
Qed.

(** The row [recordUsage] leaves for the tracker's month. *)
Lemma recordUsage_select (o : Outside.t) (this : UsageTracker) (calls : Z) (w : World)
    (r : UsageRow) :
  selectUsage (currentMonth this) (apiUsage w) = [r] ->
  exists w',
    recordUsage o this calls w = (Return tt, w')
    /\ selectUsage (currentMonth this) (apiUsage w')
       = [{| u_id := u_id r; month := month r; callsUsed := callsUsed r + calls;
             callsLimit := callsLimit r; u_createdAt := u_createdAt r;
             u_updatedAt := now w |}]
    /\ List.length (apiUsage w') = List.length (apiUsage w)
    /\ trace w' = trace w.
Proof.
  intros H. unfold recordUsage, bind at 1. rewrite (getCurrentUsage_found o this w r H).
  unfold bind, get, modify. eexists. split; [reflexivity|]. cbn [apiUsage withUsage trace].
  split; [|split; [apply length_map|reflexivity]].
  rewrite selectUsage_map by (intros x; now destruct (eqb (u_id x) (u_id r))).
  rewrite H. simpl. now rewrite eqb_refl.
Qed.

(** X10: what [recordUsage] adds is what the tracker reads back, as long
    as the new count fits the integer column.  After [recordUsage calls],
    [getCurrentUsage] returns the record of the tracker's month with
    [callsUsed] increased by [calls] over what the month had on record
    before (0 for a month without a record), the same limit and the same
    id, and reading does not change the world any more; [canMakeCall] and
    [getRemainingCalls] answer from the new count. *)
Theorem X10_recordUsage_reads_back
    (o : Outside.t) (this : UsageTracker) (calls : Z) (w : World) :
  int4 (usedBefore this w + calls) ->
  exists before w1 after w2,
    getCurrentUsage o this w = (Return before, w1)
    /\ callsUsed before = usedBefore this w
    /\ recordUsage o this calls w = (Return tt, w2)
    /\ getCurrentUsage o this w2 = (Return after, w2)
    /\ callsUsed after = usedBefore this w + calls
    /\ int4 (callsUsed after)
    /\ callsLimit after = callsLimit before
    /\ u_id after = u_id before
    /\ canMakeCall o this w2
       = (Return (usedBefore this w + calls <? callsLimit before), w2)
    /\ getRemainingCalls o this w2
       = (Return (Z.max 0 (callsLimit before - (usedBefore this w + calls))), w2).
Proof.
  intros Hfit.
  destruct (getCurrentUsage_select o this w)
    as (before & w1 & Hget & Hsel & Hnew & Hold).
  assert (Hbefore : callsUsed before = usedBefore this w).
  { unfold usedBefore. rewrite usedIn_select.
    destruct (selectUsage (currentMonth this) (apiUsage w)) as [|r0 l] eqn:E.
    - now destruct (Hnew eq_refl) as (_ & H0 & _).
    - rewrite (Hold ltac:(discriminate)) in Hsel. rewrite E in Hsel.
      now injection Hsel as -> _. }
  destruct (recordUsage_select o this calls w1 before Hsel) as (w2 & Hrec & Hsel2 & _).
  assert (Hrec0 : recordUsage o this calls w = (Return tt, w2)).
  { unfold recordUsage, bind at 1. rewrite Hget.
    unfold recordUsage, bind at 1 in Hrec.
    now rewrite (getCurrentUsage_found o this w1 before Hsel) in Hrec. }
  pose proof (getCurrentUsage_found o this w2 _ Hsel2) as Hget2.
  eexists before, w1, _, w2. split; [exact Hget|]. split; [exact Hbefore|].
  split; [exact Hrec0|].
  split; [exact Hget2|]. cbn [callsUsed callsLimit u_id]. rewrite Hbefore.
  split; [reflexivity|]. split; [exact Hfit|].
  repeat split; unfold canMakeCall, getRemainingCalls, bind; rewrite Hget2;
    cbn [callsUsed callsLimit]; rewrite Hbefore; reflexivity.
Qed.

(** Three calls recorded on the 998 of January leave 1001 on record, and
    the tracker then refuses a call. *)
Lemma X10_witness :
  exists w2,
    recordUsage quiet january 3 (meteredWorld 998) = (Return tt, w2)
    /\ map callsUsed (apiUsage w2) = [1001]
    /\ fst (canMakeCall quiet january w2) = Return false.
Proof.
  destruct (X10_recordUsage_reads_back quiet january 3 (meteredWorld 998)
              ltac:(unfold int4; cbn; lia))
    as (before & w1 & after & w2 & Hget & _ & Hrec & _ & _ & _ & _ & _ & Hcan & _).
  exists w2. split; [exact Hrec|]. rewrite Hcan.
  vm_compute in Hget. injection Hget as <- <-.
  vm_compute in Hrec. injection Hrec as <-. split; reflexivity.
Defined.

(** X11: the record of a month is created once.  The first
    [getCurrentUsage] in a month without a record appends one record, with
    no call used, the tracker's limit and a fresh identifier; in a month
    with a record it changes nothing; and in both cases asking again
    returns the same record and changes nothing. *)
Theorem X11_usage_record_created_once
    (o : Outside.t) (this : UsageTracker) (w : World) :
  exists r w',
    getCurrentUsage o this w = (Return r, w')
    /\ getCurrentUsage o this w' = (Return r, w')
    /\ (selectUsage (currentMonth this) (apiUsage w) = [] ->
        apiUsage w' = apiUsage w ++ [r] /\ callsUsed r = 0
        /\ callsLimit r = monthlyLimit this /\ month r = currentMonth this
        /\ u_id r = randomId o (drawn w)
        /\ drawn w' = S (drawn w))
    /\ (selectUsage (currentMonth this) (apiUsage w) <> [] -> w' = w).
Proof.
  destruct (getCurrentUsage_select o this w) as (r & w' & Hget & Hsel & Hnew & Hold).
  exists r, w'. split; [exact Hget|].
  split; [now apply getCurrentUsage_found|]. split; [|exact Hold].
  intros Hnone. destruct (Hnew Hnone) as (H1 & H2 & H3 & H4 & H5).
  repeat split; try assumption.
  unfold getCurrentUsage, bind, get in Hget. rewrite Hnone in Hget.
  now injection Hget as <- _.
Qed.

(** X12: [getRemainingCalls] is never negative, and it is zero exactly
    when [canMakeCall] answers no. *)
Theorem X12_remaining_calls_agree
    (o : Outside.t) (this : UsageTracker) (w : World) :
  exists w' (can : bool) (remaining : Z),
    canMakeCall o this w = (Return can, w')
    /\ getRemainingCalls o this w = (Return remaining, w')
    /\ 0 <= remaining
    /\ (remaining = 0 <-> can = false).
Proof.
  destruct (getCurrentUsage_select o this w) as (r & w' & Hget & _).
  unfold canMakeCall, getRemainingCalls, bind. rewrite Hget.
  eexists. eexists. eexists. split; [reflexivity|]. split; [reflexivity|].
  split; [lia|]. rewrite Z.ltb_ge. lia.
Qed.

(** ** The collector's accounting *)

Lemma canMakeCall_found (o : Outside.t) (this : UsageTracker) (w : World)
    (r : UsageRow) :
  selectUsage (currentMonth this) (apiUsage w) = [r] ->
  canMakeCall o this w = (Return (callsUsed r <? callsLimit r), w).
Proof.
  intros H. unfold canMakeCall, bind. now rewrite (getCurrentUsage_found o this w r H).
Qed.

Lemma checkUsageLimit_found (o : Outside.t) (tracker : UsageTracker) (w : World)
    (r : UsageRow) :
  selectUsage (currentMonth tracker) (apiUsage w) = [r] ->
  checkUsageLimit o {| usageTracker := Some tracker |} w
  = (if callsUsed r <? callsLimit r then Return tt else Throws quotaExceeded,
     withEvent LimitChecked w).
Proof.
  intros H. unfold checkUsageLimit, bind, modify. cbn [usageTracker].
  rewrite (canMakeCall_found o tracker (withEvent LimitChecked w) r) by exact H.
  destruct (callsUsed r <? callsLimit r); reflexivity.
Qed.

Lemma getProductByASIN_run (o : Outside.t) (asin : jsstring) (w : World) :
  getProductByASIN o asin w
  = (match productEndpoint o asin with
     | Throws e => Throws e
     | Return None =>
         match productDataSchema (withAsin (fallback None (Some asin)) noFields) with
         | None => Return None
         | Some _ => Throws nullResponse
         end
     | Return (Some response) =>
         Return (match body response with
                 | None => None
                 | Some raw =>
                     productDataSchema
                       (withAsin (fallback (fallback (r_asin raw)
                                              (product_information_asin response))
                                           (Some asin)) raw)
                 end)
     end, withEvent (Request (ProductCall asin)) w).
Proof.
  unfold getProductByASIN, bind, modify, lift.
  destruct (productEndpoint o asin) as [[response|]|e]; [| |reflexivity].
  - destruct (body response); reflexivity.
  - destruct (productDataSchema _); reflexivity.
Qed.

(** The requested ASIN, validated alone. *)
Lemma requested_alone (asin : jsstring) :
  productDataSchema (withAsin (fallback None (Some asin)) noFields)
  = if eqb (trim asin) [] then None
    else productDataSchema (withAsin (Some asin) noFields).
Proof.
  destruct asin as [|c a]; [reflexivity|]. cbn [fallback].
  unfold productDataSchema, hasValidAsin. cbn [r_asin withAsin truthyStr andb].
  destruct (eqb (trim (c :: a)) []); reflexivity.
Qed.

Lemma requested_alone_valid (asin : jsstring) :
  eqb (trim asin) [] = false ->
  exists pd, productDataSchema (withAsin (fallback None (Some asin)) noFields) = Some pd.
Proof.
  intros H. rewrite requested_alone, H.
  unfold productDataSchema, hasValidAsin. cbn [r_asin withAsin].
  destruct asin as [|c a]; [discriminate H|]. cbn [truthyStr andb]. rewrite H.
  eexists. reflexivity.
Qed.

(** X13: the accounting of [collectProductByASIN] with a usage tracker
    whose month has the record [r].  With the quota used up the call throws
    the quota error before any request is sent and changes nothing.
    Otherwise the request is sent.  If it throws, its error is rethrown
    and no usage is recorded; if it answers the JSON null for an ASIN that
    is not blank, the client throws a TypeError and no usage is recorded
    either.  In every other case the call returns what the client returned,
    validated or not, exactly one call is added to the month's record and
    no other table changes. *)
Theorem X13_collectProductByASIN_accounting
    (o : Outside.t) (tracker : UsageTracker) (asin : jsstring) (w : World)
    (r : UsageRow) :
  monthRecord (currentMonth tracker) w r ->
  let this := {| usageTracker := Some tracker |} in
  let checked := withEvent LimitChecked w in
  let sent := withEvent (Request (ProductCall asin)) checked in
  let counted := fun p : option ProductData =>
    exists w',
      collectProductByASIN o this asin w = (Return p, w')
      /\ getProductByASIN o asin checked = (Return p, sent)
      /\ trace w'
         = trace w ++ [LimitChecked; Request (ProductCall asin); UsageTracked 1]
      /\ selectUsage (currentMonth tracker) (apiUsage w')
         = [{| u_id := u_id r; month := month r; callsUsed := callsUsed r + 1;
               callsLimit := callsLimit r; u_createdAt := u_createdAt r;
               u_updatedAt := now w |}]
      /\ List.length (apiUsage w') = List.length (apiUsage w)
      /\ untouched w w' in
  if callsUsed r <? callsLimit r then
    match productEndpoint o asin with
    | Throws e => collectProductByASIN o this asin w = (Throws e, sent)
    | Return None =>
        if eqb (trim asin) [] then counted None
        else collectProductByASIN o this asin w = (Throws nullResponse, sent)
    | Return (Some _) => exists p, counted p
    end
  else collectProductByASIN o this asin w = (Throws quotaExceeded, checked).
Proof.
  intros Hr this checked sent counted.
  apply monthRecord_select in Hr.
  subst this. pose proof (checkUsageLimit_found o tracker w r Hr) as Hcheck.
  fold checked in Hcheck.
  pose proof (getProductByASIN_run o asin checked) as Hget. fold sent in Hget.
  destruct (callsUsed r <? callsLimit r).
  2:{ unfold collectProductByASIN, bind. now rewrite Hcheck. }
  assert (Hs : selectUsage (currentMonth tracker)
                 (apiUsage (withEvent (UsageTracked 1) sent)) = [r]) by exact Hr.
  destruct (recordUsage_select o tracker 1 _ r Hs) as (w' & Hrec & Hsel & Hlen & Htr).
  assert (Hu : untouched w w').
  { destruct (recordUsage_run o tracker 1 (withEvent (UsageTracked 1) sent))
      as (w'' & Hrec' & Hun & _).
    rewrite Hrec in Hrec'. injection Hrec' as <-. exact Hun. }
  assert (Htrack : trackUsage o {| usageTracker := Some tracker |} 1 sent
                   = (Return tt, w')).
  { unfold trackUsage, bind, modify. cbn [usageTracker]. exact Hrec. }
  assert (Hcounted : forall p, getProductByASIN o asin checked = (Return p, sent) ->
                               counted p).
  { intros p Hp. exists w'. split.
    { unfold collectProductByASIN, bind at 1. rewrite Hcheck.
      unfold bind at 1. rewrite Hp. unfold bind. now rewrite Htrack. }
    split; [exact Hp|].
    split; [rewrite Htr; cbn; now rewrite <- !app_assoc|].
    split; [exact Hsel|]. split; [exact Hlen|exact Hu]. }
  destruct (productEndpoint o asin) as [[response|]|e].
  - eexists. apply Hcounted. exact Hget.
  - rewrite requested_alone in Hget. destruct (eqb (trim asin) []) eqn:E.
    + apply Hcounted. exact Hget.
    + destruct (requested_alone_valid asin E) as (pd & Hpd).
      rewrite requested_alone, E in Hpd. rewrite Hpd in Hget.
      unfold collectProductByASIN, bind. now rewrite Hcheck, Hget.
  - unfold collectProductByASIN, bind. now rewrite Hcheck, Hget.
Qed.

(** With the quota used up nothing is requested; one call short of it, the
    request is sent and uses the last call. *)
Lemma X13_witness :
  monthRecord (currentMonth january) (meteredWorld 1000) (januaryRecord 1000)
  /\ collectProductByASIN quiet metered B000000000 (meteredWorld 1000)
     = (Throws quotaExceeded, withEvent LimitChecked (meteredWorld 1000))
  /\ monthRecord (currentMonth january) (meteredWorld 999) (januaryRecord 999)
  /\ exists p w',
       collectProductByASIN quiet metered B000000000 (meteredWorld 999)
       = (Return p, w')
       /\ trace w' = [LimitChecked; Request (ProductCall B000000000); UsageTracked 1]
       /\ map callsUsed (apiUsage w') = [1000].
Proof.
  assert (Hfull : monthRecord (currentMonth january) (meteredWorld 1000)
                    (januaryRecord 1000)).
  { exists [], []. split; [reflexivity|]. split; [reflexivity|intros x []]. }
  assert (Hshort : monthRecord (currentMonth january) (meteredWorld 999)
                     (januaryRecord 999)).
  { exists [], []. split; [reflexivity|]. split; [reflexivity|intros x []]. }
  split; [exact Hfull|]. split.
  - exact (X13_collectProductByASIN_accounting quiet january B000000000
             (meteredWorld 1000) (januaryRecord 1000) Hfull).
  - split; [exact Hshort|].
    destruct (X13_collectProductByASIN_accounting quiet january B000000000
                (meteredWorld 999) (januaryRecord 999) Hshort)
      as (p & w' & Hrun & _ & Htrace & _).
    exists p, w'. split; [exact Hrun|]. split; [exact Htrace|].
    vm_compute in Hrun. now injection Hrun as _ <-.
Defined.

Example last_call_is_counted :
  let '(res, w') := collectProductByASIN quiet metered B000000000 (meteredWorld 999) in
  res = Return None
  /\ map callsUsed (apiUsage w') = [1000]
  /\ fst (collectProductByASIN quiet metered B000000000 w') = Throws quotaExceeded.
Proof. vm_compute. repeat split. Qed.

(** The JSON null for a body: the client throws, and the call is not
    counted. *)
Example null_body_is_not_counted :
  let nulls := {| randomId := randomId quiet;
                  productEndpoint := fun _ => Return None;
                  getProductReviews := getProductReviews quiet;
                  insertFault := None;
                  uniqueViolation := uniqueViolation quiet;
                  invalidType := invalidType quiet;
                  storeReal := storeReal quiet;
                  removeJob := removeJob quiet;
                  others := others quiet |} in
  let '(res, w') := collectProductByASIN nulls metered B000000000 (meteredWorld 999) in
  res = Throws nullResponse /\ map callsUsed (apiUsage w') = [999].
Proof. vm_compute. repeat split. Qed.

(** ** The search *)

Lemma slice0_positive {A : Type} (l : list A) (e : Z) :
  0 < e -> slice0 l e = firstn (Z.to_nat e) l.
Proof.
  intros H. unfold slice0.
  replace (e <? 0) with false by (symmetry; apply Z.ltb_ge; lia).
  destruct (Z.le_gt_cases e (Z.of_nat (List.length l))) as [Hle|Hgt].
  - now rewrite Z.min_l.
  - rewrite Z.min_r by lia. rewrite Nat2Z.id.
    rewrite firstn_all. symmetry. apply firstn_all2. lia.
Qed.

Lemma slice0_negative {A : Type} (l : list A) (e : Z) :
  e < 0 -> slice0 l e = firstn (List.length l - Z.to_nat (- e)) l.
Proof.
  intros H. unfold slice0.
  replace (e <? 0) with true by (symmetry; apply Z.ltb_lt; lia).
  f_equal. lia.
Qed.

(** X14: [collectProductsBySearch].  It returns only when the usage check
    passes and the search request answers; what it returns is the validated
    products of the answer cut by [slice(0, limit)]: the first [limit] of
    them for a positive limit (so at most [limit]), all of them for no limit
    and for the limit 0, and all but the last [-limit] for a negative limit.
    It throws the quota error, or the error of the request, and then no
    usage is recorded.  No table but [api_usage] changes. *)
Theorem X14_collectProductsBySearch_limit
    (o : Outside.t) (searchEndpoint : jsstring -> jsstring -> outcome SearchBody)
    (this : AmazonCollector) (keyword : jsstring) (limit : option Z)
    (country : option jsstring) (w : World) :
  exists res w',
    collectProductsBySearch o searchEndpoint this keyword limit country w = (res, w')
    /\ untouched w w'
    /\ match res with
       | Return ps =>
           exists response,
             searchEndpoint keyword (countryOrUs country) = Return response
             /\ trace w' = trace w ++ [LimitChecked; UsageTracked 1]
             /\ let validated := sr_products (searchProductsFrom response keyword) in
                match limit with
                | None => ps = validated
                | Some l =>
                    if 0 <? l then
                      ps = firstn (Z.to_nat l) validated
                      /\ Z.of_nat (List.length ps) <= l
                    else if l =? 0 then ps = validated
                    else ps = firstn (List.length validated - Z.to_nat (- l)) validated
                end
       | Throws e =>
           trace w' = trace w ++ [LimitChecked]
           /\ (e = quotaExceeded
               \/ searchEndpoint keyword (countryOrUs country) = Throws e)
       end.
Proof.
  unfold collectProductsBySearch, bind at 1.
  destruct (checkUsageLimit_run o this w) as (res & w1 & -> & Hres & _ & Hu1 & Ht1).
  destruct Hres as [-> | ->].
  2:{ eexists. eexists. split; [reflexivity|]. split; [exact Hu1|].
      split; [exact Ht1|now left]. }
  unfold bind at 1, lift, searchProducts.
  destruct (searchEndpoint keyword (countryOrUs country)) as [response|e] eqn:E.
  2:{ eexists. eexists. split; [reflexivity|]. split; [exact Hu1|].
      split; [exact Ht1|now right]. }
  unfold bind at 1.
  destruct (trackUsage_run o this 1 w1) as (w2 & -> & Hu2 & Ht2).
  assert (Hu : untouched w w2).
  { destruct Hu1 as (A1 & A2 & A3 & A4 & A5), Hu2 as (B1 & B2 & B3 & B4 & B5).
    repeat split; congruence. }
  assert (Ht : trace w2 = trace w ++ [LimitChecked; UsageTracked 1]).
  { rewrite Ht2, Ht1, <- app_assoc. reflexivity. }
  destruct limit as [l|]; [|cbn [truthyLimit]].
  - destruct (Z.ltb_spec 0 l) as [Hpos|Hnpos].
    + assert (truthyLimit (Some l) = Some l) as -> by (destruct l; [lia|reflexivity..]).
      eexists. eexists. split; [reflexivity|]. split; [exact Hu|].
      exists response. split; [reflexivity|]. split; [exact Ht|].
      cbn zeta. rewrite slice0_positive by exact Hpos. split; [reflexivity|].
      pose proof (firstn_le_length (Z.to_nat l)
                    (sr_products (searchProductsFrom response keyword))). lia.
    + destruct (Z.eqb_spec l 0) as [->|Hnz].
      * cbn [truthyLimit].
        eexists. eexists. split; [reflexivity|]. split; [exact Hu|].
        exists response. split; [reflexivity|]. split; [exact Ht|reflexivity].
      * assert (truthyLimit (Some l) = Some l) as ->
          by (destruct l; [lia|reflexivity..]).
        eexists. eexists. split; [reflexivity|]. split; [exact Hu|].
        exists response. split; [reflexivity|]. split; [exact Ht|].
        cbn zeta. apply slice0_negative. lia.
  - eexists. eexists. split; [reflexivity|]. split; [exact Hu|].
    exists response. split; [reflexivity|]. split; [exact Ht|reflexivity].
Qed.

(** ** The ASIN of a fetched product *)





(** ** The worker: how a job ends *)

Lemma bind_ret_true {A : Type} (m : Async A) (w w' : World) :
  (m ;;; ret true)%async w <> (Return false, w').
Proof. unfold bind, ret. destruct (m w) as [[a|e] w1]; discriminate. Qed.

(** The early return of [processJob]: only for a record found suspended,
    and then nothing was written. *)
Lemma reconcile_false (o : Outside.t) (job : Job) (w w' : World) :
  reconcile o job w = (Return false, w') ->
  exists r, selectJob (id job) (scrapeJobs w) = [r] /\ status r = suspended /\ w' = w.
Proof.
  unfold reconcile, bind at 1, get.
  destruct (selectJob (id job) (scrapeJobs w)) as [|r l] eqn:Hs.
  - intros H. exfalso. revert H.
    change ((await o 1 ;;; (w1 <- Db.get ;;
               tryCatch (insertJob o (newRunningRow job (now w1)))
                        (onInsertError o (id job)) ;;; ret true))%async w
            <> (Return false, w')).
    unfold bind at 1. rewrite await_run. unfold bind at 1, get.
    apply bind_ret_true.
  - destruct (selectJob_found _ _ _ _ Hs) as (_ & _ & _ & ->).
    destruct (statusIs suspended r) eqn:E.
    + intros [= <-]. exists r. split; [reflexivity|]. split; [|reflexivity].
      now apply statusIs_eq.
    + intros H. exfalso. revert H. unfold bind at 1. rewrite await_run.
      apply bind_ret_true.
Qed.

Lemma finalize_run (dbJobId : jsstring) (p : Date -> JobPatch) (w : World) :
  dbJobId <> [] ->
  finalize dbJobId p w
  = (Return tt, withJobs (updateJobs (idIs dbJobId) (p (now w))) w).
Proof. intros H. unfold finalize. destruct dbJobId; [now contradiction H|reflexivity]. Qed.

(** What [processJob] does after the dequeue-time protocol let the job go
    on, in terms of what the handler did. *)
Lemma processJob_proceeds (o : Outside.t) (this : CollectionWorker) (job : Job)
    (w w1 w2 : World) (r : outcome unit) :
  id job <> [] ->
  reconcile o job w = (Return true, w1) ->
  dispatch o this (data job) w1 = (r, w2) ->
  processJob o this job w
  = match r with
    | Return _ =>
        (Return tt,
         withJobs (updateJobs (idIs (id job)) (completedPatch (now w2))) w2)
    | Throws e =>
        (Throws e,
         withJobs (updateJobs (idIs (id job)) (failedPatch (e_message e) (now w2))) w2)
    end.
Proof.
  intros Hid Hrec Hd. unfold processJob, tryCatch, bind at 1. rewrite Hrec.
  unfold bind at 1. rewrite Hd. destruct r as [[]|e].
  - now rewrite finalize_run.
  - unfold bind. now rewrite finalize_run.
Qed.

Lemma processJob_protocol_throws (o : Outside.t) (this : CollectionWorker) (job : Job)
    (w w1 : World) (e : JsError) :
  id job <> [] ->
  reconcile o job w = (Throws e, w1) ->
  processJob o this job w
  = (Throws e,
     withJobs (updateJobs (idIs (id job)) (failedPatch (e_message e) (now w1))) w1).
Proof.
  intros Hid Hrec. unfold processJob, tryCatch, bind at 1. rewrite Hrec.
  unfold bind. now rewrite finalize_run.
Qed.

Lemma processJob_suspended (o : Outside.t) (this : CollectionWorker) (job : Job)
    (w w1 : World) :
  reconcile o job w = (Return false, w1) ->
  processJob o this job w = (Return tt, w1).
Proof.
  intros Hrec. unfold processJob, tryCatch, bind at 1. now rewrite Hrec.
Qed.

(** X16: how [processJob] leaves the job's record, whatever the handlers
    do.  For a job with an id, [processJob] returns only when the record was
    found suspended, and then nothing changed, or when the handler returned,
    and then every record of the job is completed.  It throws exactly the
    error of the protocol or of the handler, never another one and never
    none, and then every record of the job is failed with that error's
    message. *)
Theorem X16_processJob_settles_the_record
    (o : Outside.t) (this : CollectionWorker) (job : Job) (w : World) :
  id job <> [] ->
  exists res w',
    processJob o this job w = (res, w')
    /\ match res with
       | Return _ =>
           (exists r, selectJob (id job) (scrapeJobs w) = [r]
                      /\ status r = suspended /\ w' = w)
           \/ (exists w1 w2,
                 reconcile o job w = (Return true, w1)
                 /\ dispatch o this (data job) w1 = (Return tt, w2)
                 /\ forall r, In r (scrapeJobs w') -> job_id r = id job ->
                      status r = completed /\ completedAt r = Some (now w2))
       | Throws e =>
           (exists w1, reconcile o job w = (Throws e, w1)
                       \/ (reconcile o job w = (Return true, w1)
                           /\ fst (dispatch o this (data job) w1) = Throws e))
           /\ forall r, In r (scrapeJobs w') -> job_id r = id job ->
                status r = failed /\ error r = Some (e_message e)
       end.
Proof.
  intros Hid.
  destruct (reconcile o job w) as [[[|]|e] w1] eqn:Hrec.
  - destruct (dispatch o this (data job) w1) as [[[]|e] w2] eqn:Hd.
    + rewrite (processJob_proceeds o this job w w1 w2 _ Hid Hrec Hd).
      eexists. eexists. split; [reflexivity|]. right. exists w1, w2.
      split; [reflexivity|]. split; [exact Hd|].
      cbn [scrapeJobs withJobs]. intros r Hin Hr.
      split; [now apply (updateJobs_status (id job) (completedPatch (now w2))
                           completed (scrapeJobs w2) r)|].
      unfold updateJobs in Hin. apply in_map_iff in Hin as (r0 & <- & _).
      destruct (idIs (id job) r0) eqn:E; [reflexivity|].
      apply idIs_eq in Hr. congruence.
    + rewrite (processJob_proceeds o this job w w1 w2 _ Hid Hrec Hd).
      eexists. eexists. split; [reflexivity|]. split.
      * exists w1. right. split; [reflexivity|now rewrite Hd].
      * cbn [scrapeJobs withJobs]. intros r Hin Hr.
        destruct (updateJobs_status (id job) (failedPatch (e_message e) (now w2))
                    failed (scrapeJobs w2) r eq_refl Hin Hr) as (Hs & He).
        split; [exact Hs|now apply He].
  - rewrite (processJob_suspended o this job w w1 Hrec).
    eexists. eexists. split; [reflexivity|]. left.
    destruct (reconcile_false o job w w1 Hrec) as (r & Hs & Hst & ->).
    now exists r.
  - rewrite (processJob_protocol_throws o this job w w1 e Hid Hrec).
    eexists. eexists. split; [reflexivity|]. split.
    + exists w1. now left.
    + cbn [scrapeJobs withJobs]. intros r Hin Hr.
      destruct (updateJobs_status (id job) (failedPatch (e_message e) (now w1))
                  failed (scrapeJobs w1) r eq_refl Hin Hr) as (Hs & He).
      split; [exact Hs|now apply He].
Qed.

(** The product job for B000000000 on an empty database, with an endpoint
    whose answer does not validate: it throws and the record is failed. *)
Lemma X16_witness :
  exists e w',
    processJob quiet plainWorker productJob (emptyWorld jan31) = (Throws e, w')
    /\ map status (scrapeJobs w') = [failed].
Proof.
  destruct (X16_processJob_settles_the_record quiet plainWorker productJob
              (emptyWorld jan31) ltac:(discriminate))
    as (res & w' & Hrun & _).
  destruct res as [[]|e].
  - exfalso. vm_compute in Hrun. discriminate Hrun.
  - exists e, w'. split; [exact Hrun|].
    vm_compute in Hrun. now injection Hrun as _ <-.
Defined.

(** ** Jobs the handlers refuse *)

Lemma finalize_onlyJobs (dbJobId : jsstring) (p : Date -> JobPatch) (w : World) :
  onlyJobs w (snd (finalize dbJobId p w)).
Proof. unfold finalize. destruct (truthyStr dbJobId); cbn; repeat split. Qed.

Lemma onlyJobs_trans (a b c : World) : onlyJobs a b -> onlyJobs b c -> onlyJobs a c.
Proof.
  intros (A1 & A2 & A3 & A4 & A5 & A6 & A7) (B1 & B2 & B3 & B4 & B5 & B6 & B7).
  repeat split; congruence.
Qed.

(** X17: jobs that are refused before any request.  When the dequeue-time
    protocol lets the job go on, a job of a type outside the four known
    ones, a product or price-update job without an ASIN, and a price-update job for
    an ASIN with no stored product each make [processJob] throw the error
    that names the reason; every record of the job is then failed with that
    message, and nothing but [scrape_jobs] has changed: no usage check, no
    request, no usage recorded, no row written elsewhere. *)
Theorem X17_refused_jobs_make_no_request
    (o : Outside.t) (this : CollectionWorker) (job : Job) (w : World) (e : JsError) :
  id job <> [] ->
  fst (reconcile o job w) = Return true ->
  match jd_type (data job) with
  | T_other s => e = Error (str "Unknown job type: " ++ s)
  | T_product =>
      match jd_asin (data job) with
      | Some (_ :: _) => False
      | _ => e = Error (str "ASIN is required for product job")
      end
  | T_price_update =>
      match jd_asin (data job) with
      | Some (c :: a) => ~ stored (c :: a) w /\ e = notFound (c :: a)
      | _ => e = Error (str "ASIN is required for price update job")
      end
  | _ => False
  end ->
  exists w',
    processJob o this job w = (Throws e, w')
    /\ onlyJobs w w'
    /\ forall r, In r (scrapeJobs w') -> job_id r = id job ->
         status r = failed /\ error r = Some (e_message e).
Proof.
  intros Hid Hrec He.
  destruct (reconcile o job w) as [res w1] eqn:Hr. cbn [fst] in Hrec. subst res.
  destruct (reconcile_run o job w _ _ Hr) as (Ho & _).
  assert (Hp : products w1 = products w) by (destruct Ho as (_ & H & _); exact H).
  assert (Hd : dispatch o this (data job) w1 = (Throws e, w1)).
  { unfold dispatch. destruct (jd_type (data job)) as [| | | |s];
      try contradiction.
    - unfold processProductJob, bind, requireAsin.
      destruct (jd_asin (data job)) as [[|c a]|]; try contradiction;
        subst e; reflexivity.
    - unfold processPriceUpdateJob, bind at 1, requireAsin.
      destruct (jd_asin (data job)) as [[|c a]|];
        [subst e; reflexivity| |subst e; reflexivity].
      destruct He as (Hout & ->). unfold ret at 1, bind, get.
      rewrite Hp.
      destruct (selectProduct (c :: a) (products w)) as [|row more] eqn:Hsel;
        [reflexivity|].
      contradiction Hout. apply selectProduct_stored. rewrite Hsel. discriminate.
    - subst e. reflexivity. }
  rewrite (processJob_proceeds o this job w w1 w1 _ Hid Hr Hd).
  eexists. split; [reflexivity|]. split.
  - apply (onlyJobs_trans w w1); [exact Ho|repeat split].
  - cbn [scrapeJobs withJobs]. intros r Hin Hjr.
    destruct (updateJobs_status (id job) (failedPatch (e_message e) (now w1))
                failed (scrapeJobs w1) r eq_refl Hin Hjr) as (Hs & Hm).
    split; [exact Hs|now apply Hm].
Qed.

(** A payload of the type refresh whose record a producer wrote as a
    product job: the worker updates the record, then refuses the job. *)
Lemma X17_witness :
  exists w',
    processJob quiet plainWorker strangeJob (withRows [rowOf (str "7") pending jan31])
    = (Throws (Error (str "Unknown job type: refresh")), w')
    /\ trace w' = []
    /\ map status (scrapeJobs w') = [failed].
Proof.
  destruct (X17_refused_jobs_make_no_request quiet plainWorker strangeJob
              (withRows [rowOf (str "7") pending jan31])
              (Error (str "Unknown job type: refresh"))
              ltac:(discriminate) eq_refl eq_refl)
    as (w' & Hrun & Ho & _).
  exists w'. split; [exact Hrun|].
  split; [now destruct Ho as (_ & _ & _ & _ & _ & _ & ->)|].
  vm_compute in Hrun. now injection Hrun as <-.
Defined.

(** A product job without an ASIN on an empty database: the worker
    inserts the record, then refuses the job.  With no record, a payload of
    a type outside the enumeration does not get this far: its insert is
    refused. *)
Example job_without_asin_is_refused :
  fst (processJob quiet plainWorker asinless (emptyWorld jan31))
  = Throws (Error (str "ASIN is required for product job"))
  /\ map status (scrapeJobs (snd (processJob quiet plainWorker asinless
                                    (emptyWorld jan31)))) = [failed]
  /\ fst (reconcile quiet strangeJob (emptyWorld jan31))
     = Throws (pgInvalidType (str "refresh")).
Proof. repeat split; reflexivity. Qed.

(** ** The price update *)

Lemma collectPriceHistory_run (o : Outside.t) (this : AmazonCollector)
    (asin : jsstring) (w : World) :
  exists res w', collectPriceHistory o this asin w = (res, w') /\ untouched w w'.
Proof.
  destruct (collectPriceHistory o this asin w) as [res w'] eqn:E.
  exists res, w'. split; [reflexivity|].
  now apply (collectProductByASIN_untouched o this asin w res w').
Qed.

(** X18: [processPriceUpdateJob] for a stored product.  It fetches the
    product once and writes nothing but at most one row of [prices].  When
    the fetch gives a validated product with a price that the [real]
    columns accept, exactly one price row is appended, for the stored
    product's id, holding what those columns keep of the fetched current
    and original price; when a column refuses its number the driver's error
    is thrown and nothing is appended.  When the validated product has no
    price, nothing is appended and the job still returns; when the fetch
    throws, so does the job; and when the fetch gives no validated product
    the job throws a TypeError, since the price is read from null. *)
Theorem X18_price_update_appends_one_price
    (o : Outside.t) (this : CollectionWorker) (d : JobData) (asin : jsstring)
    (row : ProductRow) (w : World) :
  jd_asin d = Some asin -> asin <> [] ->
  firstStored asin w row ->
  exists res w' fetched w1,
    processPriceUpdateJob o this d w = (res, w')
    /\ collectPriceHistory o (collector this) asin w = (fetched, w1)
    /\ untouched w w1
    /\ products w' = products w /\ reviewRows w' = reviewRows w
    /\ scrapeJobs w' = scrapeJobs w /\ apiUsage w' = apiUsage w1
    /\ trace w' = trace w1
    /\ match fetched with
       | Throws e => res = Throws e /\ prices w' = prices w
       | Return None =>
           res = Throws (typeError "Cannot read properties of null (reading 'price')")
           /\ prices w' = prices w
       | Return (Some pd) =>
           match price pd with
           | None => res = Return tt /\ prices w' = prices w
           | Some p =>
               match storeReal o (current p),
                     storeOptional o (original p),
                     storeOptional o (match seller pd with
                                      | Some s => s_rating s
                                      | None => None
                                      end) with
               | Return kept, Return keptOriginal, Return keptRating =>
                   res = Return tt
                   /\ exists added,
                        prices w' = prices w ++ [added]
                        /\ pp_id added = randomId o (drawn w1)
                        /\ pp_productId added = p_id row
                        /\ pp_price added = kept
                        /\ pp_originalPrice added = keptOriginal
                        /\ pp_sellerRating added = keptRating
                        /\ pp_currency added <> []
               | Throws e, _, _
               | Return _, Throws e, _
               | Return _, Return _, Throws e =>
                   res = Throws e /\ prices w' = prices w
               end
           end
       end.
Proof.
  intros Ha Hne Hsel. apply firstStored_select in Hsel.
  destruct (collectPriceHistory_run o (collector this) asin w)
    as (fetched & w1 & Hf & Hu).
  pose proof Hu as (U1 & U2 & U3 & U4 & U5).
  unfold processPriceUpdateJob, bind at 1, requireAsin. rewrite Ha.
  destruct asin as [|c a]; [now contradiction Hne|].
  unfold ret at 1, bind at 1, get. rewrite Hsel. unfold bind at 1. rewrite Hf.
  destruct fetched as [[pd|]|e].
  - unfold bind at 1, get. unfold processPrice.
    destruct (price pd) as [p|] eqn:Hp.
    + unfold bind, modify, insertPrice.
      cbn [pp_price pp_originalPrice pp_sellerRating pp_id pp_productId pp_currency
           pp_availability pp_sellerName pp_primeEligible].
      destruct (storeReal o (current p)) as [kept|e1] eqn:E1.
      2:{ eexists. eexists. exists (Return (Some pd)), w1.
          split; [reflexivity|]. split; [reflexivity|]. split; [exact Hu|].
          cbn [products reviewRows scrapeJobs apiUsage trace prices withDrawn].
          repeat (split; [assumption || reflexivity|]).
          rewrite Hp, E1. split; [reflexivity|exact U4]. }
      destruct (storeOptional o (original p)) as [keptOriginal|e2] eqn:E2.
      2:{ eexists. eexists. exists (Return (Some pd)), w1.
          split; [reflexivity|]. split; [reflexivity|]. split; [exact Hu|].
          cbn [products reviewRows scrapeJobs apiUsage trace prices withDrawn].
          repeat (split; [assumption || reflexivity|]).
          rewrite Hp, E1, E2. split; [reflexivity|exact U4]. }
      destruct (storeOptional o (match seller pd with
                                 | Some s => s_rating s
                                 | None => None
                                 end)) as [keptRating|e3] eqn:E3.
      2:{ eexists. eexists. exists (Return (Some pd)), w1.
          split; [reflexivity|]. split; [reflexivity|]. split; [exact Hu|].
          cbn [products reviewRows scrapeJobs apiUsage trace prices withDrawn].
          repeat (split; [assumption || reflexivity|]).
          rewrite Hp, E1, E2, E3. split; [reflexivity|exact U4]. }
      eexists. eexists. exists (Return (Some pd)), w1.
      split; [reflexivity|]. split; [reflexivity|]. split; [exact Hu|].
      cbn [products reviewRows scrapeJobs apiUsage trace prices withPrices
           withDrawn]. repeat (split; [assumption || reflexivity|]).
      rewrite Hp, E1, E2, E3. split; [reflexivity|]. eexists. rewrite U4.
      split; [reflexivity|].
      cbn [pp_id pp_productId pp_price pp_originalPrice pp_sellerRating pp_currency].
      repeat (split; [reflexivity|]).
      destruct (currency p); discriminate.
    + eexists. eexists. exists (Return (Some pd)), w1.
      split; [reflexivity|]. split; [reflexivity|]. split; [exact Hu|].
      repeat (split; [assumption || reflexivity|]).
      rewrite Hp. split; [reflexivity|exact U4].
  - eexists. eexists. exists (Return None), w1.
    split; [reflexivity|]. split; [reflexivity|]. split; [exact Hu|].
    repeat (split; [assumption || reflexivity|]). exact U4.
  - eexists. eexists. exists (Throws e), w1.
    split; [reflexivity|]. split; [reflexivity|]. split; [exact Hu|].
    repeat (split; [assumption || reflexivity|]). exact U4.
Qed.

(** The price update of the stored product B000000000, answered at 188,
    which is a single-precision value: one price row for the product p1. *)
Lemma X18_witness :
  firstStored B000000000 withStoredProduct storedProduct
  /\ exists w',
       processPriceUpdateJob pricing plainWorker priceUpdate withStoredProduct
       = (Return tt, w')
       /\ map pp_productId (prices w') = [str "p1"]
       /\ map pp_price (prices w') = [ofZ 188].
Proof.
  assert (Hin : firstStored B000000000 withStoredProduct storedProduct).
  { exists [], []. split; [reflexivity|]. split; [reflexivity|intros x []]. }
  split; [exact Hin|].
  destruct (X18_price_update_appends_one_price pricing plainWorker priceUpdate
              B000000000 storedProduct withStoredProduct
              eq_refl ltac:(discriminate) Hin)
    as (res & w' & fetched & w1 & Hrun & Hf & _ & _ & _ & _ & _ & _ & Hcase).
  vm_compute in Hf. injection Hf as <- <-.
  cbn [price] in Hcase.
  change (storeReal pricing) with (fun n : number => Return n) in Hcase.
  cbn [storeOptional current original seller] in Hcase.
  destruct Hcase as (-> & added & Hp & _ & Hid & Hprice & _).
  exists w'. split; [exact Hrun|]. rewrite Hp. cbn [prices withStoredProduct map app].
  cbn. now rewrite Hid, Hprice.
Defined.

(** ** The producers *)

(** Only a payload of one of the three manual types is queued. *)
Lemma enqueueManual_type (q : JobQueue) (data : JobData) (w w' : World)
    (jobId : jsstring) :
  enqueueManual q data w = (Return jobId, w') -> inEnum (jd_type data) = true.
Proof.
  unfold enqueueManual. destruct (jd_type data); (reflexivity || discriminate).
Qed.

(** What [enqueueManual] hands to the queue, if anything. *)
Lemma enqueueManual_run (q : JobQueue) (data : JobData) (w : World) :
  exists sent : option Enqueued,
    enqueueManual q data w
    = (match sent with
       | Some p => queueAdd q p
       | None => Throws invalidJobData
       end, w)
    /\ match sent with
       | Some p =>
           q_priority p = Some 10 /\ q_repeat p = None
           /\ q_delay p = None /\ q_attempts p = None
           /\ jd_type (q_data p) = jd_type data
           /\ match jd_type data with
              | T_product =>
                  truthyOpt (jd_asin data) = true
                  /\ q_name p = str "collect-product"
                  /\ q_data p = {| jd_asin := jd_asin data; jd_keyword := None;
                                   jd_limit := None; jd_country := None;
                                   jd_type := T_product |}
              | T_search =>
                  truthyOpt (jd_keyword data) = true
                  /\ q_name p = str "collect-search"
                  /\ q_data p = {| jd_asin := None; jd_keyword := jd_keyword data;
                                   jd_limit := jd_limit data;
                                   jd_country := jd_country data;
                                   jd_type := T_search |}
              | T_review =>
                  truthyOpt (jd_asin data) = true
                  /\ q_name p = str "collect-reviews"
                  /\ q_data p = {| jd_asin := jd_asin data; jd_keyword := None;
                                   jd_limit := jd_limit data; jd_country := None;
                                   jd_type := T_review |}
              | _ => False
              end
       | None =>
           match jd_type data with
           | T_product | T_review => truthyOpt (jd_asin data) = false
           | T_search => truthyOpt (jd_keyword data) = false
           | _ => True
           end
       end.
Proof.
  unfold enqueueManual.
  destruct (jd_type data) as [| | | |s] eqn:Ht.
  - destruct (jd_asin data) as [[|c a]|] eqn:Ha.
    + exists None. now split.
    + eexists (Some _). split; [reflexivity|]. cbn. repeat split.
    + exists None. now split.
  - destruct (jd_keyword data) as [[|c k]|] eqn:Hk.
    + exists None. now split.
    + eexists (Some _). split; [reflexivity|]. cbn. repeat split.
    + exists None. now split.
  - destruct (jd_asin data) as [[|c a]|] eqn:Ha.
    + exists None. now split.
    + eexists (Some _). split; [reflexivity|]. cbn. repeat split.
    + exists None. now split.
  - exists None. now split.
  - exists None. now split.
Qed.

Lemma triggerManualCollection_after (o : Outside.t) (q : JobQueue) (data : JobData)
    (w : World) (res : outcome jsstring) :
  enqueueManual q data w = (res, w) ->
  triggerManualCollection o q data w
  = match res with
    | Throws e => (Throws e, w)
    | Return jobId =>
        match insertFault o with
        | Some e => (Throws e, w)
        | None =>
            if hasJob jobId (scrapeJobs w) then (Throws (uniqueViolation o jobId), w)
            else (Return jobId,
                  withJobs (fun t => t ++ [pendingRow jobId (jd_type data)
                                             (InputData data) false (now w)]) w)
        end
    end.
Proof.
  intros H. unfold triggerManualCollection, bind at 1. rewrite H.
  destruct res as [jobId|e]; [|reflexivity].
  unfold bind at 1, get. unfold bind.
  rewrite insertJob_run by exact (enqueueManual_type q data w w jobId H).
  cbn [job_id pendingRow].
  destruct (insertFault o) as [e|]; [reflexivity|].
  destruct (hasJob jobId (scrapeJobs w)); reflexivity.
Qed.

(** X19: [triggerManualCollection], case by case.  A payload that is not
    a product or review job with an ASIN, or a search job with a keyword, is
    refused with the error Invalid job data before the queue is asked; this
    includes every price-update payload.  Otherwise one job is added to the
    queue with priority 10, carrying only the fields of its type; if the
    queue refuses, its error is thrown; if the insert of the record fails,
    or a record with the new job's id is already there, that error is
    thrown although the job is in the queue; in each of these cases the
    database is unchanged.  Otherwise the id is returned and exactly one
    record is appended: pending, not scheduled, with the payload as
    input. *)
Theorem X19_triggerManualCollection_cases
    (o : Outside.t) (q : JobQueue) (data : JobData) (w : World) :
  exists sent : option Enqueued,
    match sent with
    | None =>
        triggerManualCollection o q data w = (Throws invalidJobData, w)
        /\ match jd_type data with
           | T_product | T_review => truthyOpt (jd_asin data) = false
           | T_search => truthyOpt (jd_keyword data) = false
           | _ => True
           end
    | Some p =>
        q_priority p = Some 10 /\ q_repeat p = None
        /\ jd_type (q_data p) = jd_type data
        /\ match jd_type data with
           | T_product =>
               truthyOpt (jd_asin data) = true
               /\ q_data p = {| jd_asin := jd_asin data; jd_keyword := None;
                                jd_limit := None; jd_country := None;
                                jd_type := T_product |}
           | T_search =>
               truthyOpt (jd_keyword data) = true
               /\ q_data p = {| jd_asin := None; jd_keyword := jd_keyword data;
                                jd_limit := jd_limit data;
                                jd_country := jd_country data;
                                jd_type := T_search |}
           | T_review =>
               truthyOpt (jd_asin data) = true
               /\ q_data p = {| jd_asin := jd_asin data; jd_keyword := None;
                                jd_limit := jd_limit data; jd_country := None;
                                jd_type := T_review |}
           | _ => False
           end
        /\ match queueAdd q p with
           | Throws e => triggerManualCollection o q data w = (Throws e, w)
           | Return jobId =>
               match insertFault o with
               | Some e => triggerManualCollection o q data w = (Throws e, w)
               | None =>
                   if hasJob jobId (scrapeJobs w) then
                     triggerManualCollection o q data w
                     = (Throws (uniqueViolation o jobId), w)
                   else
                     triggerManualCollection o q data w
                     = (Return jobId,
                        withJobs (fun t => t ++ [pendingRow jobId (jd_type data)
                                                   (InputData data) false (now w)]) w)
               end
           end
    end.
Proof.
  destruct (enqueueManual_run q data w) as (sent & Hrun & Hsent).
  exists sent. rewrite (triggerManualCollection_after o q data w _ Hrun).
  destruct sent as [p|].
  - destruct Hsent as (H1 & H2 & _ & _ & H3 & H4).
    split; [exact H1|]. split; [exact H2|]. split; [exact H3|].
    split.
    { destruct (jd_type data); try contradiction;
        destruct H4 as (A & _ & B); now split. }
    destruct (queueAdd q p) as [jobId|e]; [|reflexivity].
    destruct (insertFault o) as [e|]; [reflexivity|].
    destruct (hasJob jobId (scrapeJobs w)); reflexivity.
  - split; [reflexivity|exact Hsent].
Qed.

(** ** From the producer to the worker *)

Lemma exec_row (id : jsstring) (s : Stmt) (t : list JobRow) (r' : JobRow) :
  hasJob id t = true -> In r' (exec s t) -> job_id r' = id ->
  exists r, In r t /\ job_id r = id /\ input r' = input r
            /\ job_type r' = job_type r /\ isScheduled r' = isScheduled r.
Proof.
  intros Hh Hin Hid. destruct s as [row|c p]; cbn [exec] in Hin.
  - destruct (hasJob (job_id row) t) eqn:E.
    + exists r'. repeat split; assumption.
    + apply in_app_or in Hin as [Hin|[<-|[]]].
      * exists r'. repeat split; assumption.
      * rewrite Hid in E. congruence.
  - unfold updateJobs in Hin. apply in_map_iff in Hin as (r & <- & Hin).
    exists r. split; [exact Hin|].
    destruct (c r); cbn in *; repeat split; assumption.
Qed.

Lemma execAll_row (id : jsstring) (l : list Stmt) :
  forall (t : list JobRow) (r' : JobRow),
    hasJob id t = true -> In r' (execAll l t) -> job_id r' = id ->
    exists r, In r t /\ job_id r = id /\ input r' = input r
              /\ job_type r' = job_type r /\ isScheduled r' = isScheduled r.
Proof.
  induction l as [|s l IH]; intros t r' Hh Hin Hid.
  - exists r'. repeat split; assumption.
  - cbn [execAll fold_left] in Hin.
    destruct (IH (exec s t) r' (exec_hasJob id s t Hh) Hin Hid)
      as (r1 & Hin1 & Hid1 & Hi1 & Ht1 & Hs1).
    destruct (exec_row id s t r1 Hh Hin1 Hid1) as (r & Hin0 & Hid0 & Hi0 & Ht0 & Hs0).
    exists r. repeat split; congruence.
Qed.

Lemma keyed_unique (t : list JobRow) (r1 r2 : JobRow) :
  keyed t -> In r1 t -> In r2 t -> job_id r1 = job_id r2 -> r1 = r2.
Proof.
  unfold keyed. induction t as [|r t IH]; intros Hk H1 H2 He; [contradiction|].
  cbn in Hk. inversion Hk as [|x l Hn Hk']; subst.
  destruct H1 as [<-|H1], H2 as [<-|H2].
  - reflexivity.
  - exfalso. apply Hn. rewrite He. now apply in_map.
  - exfalso. apply Hn. rewrite <- He. now apply in_map.
  - now apply IH.
Qed.

Lemma keyed_snoc (t : list JobRow) (row : JobRow) :
  keyed t -> hasJob (job_id row) t = false -> keyed (t ++ [row]).
Proof.
  unfold keyed. intros Hk Hh. rewrite map_app. cbn.
  assert (Hn : ~ In (job_id row) (map job_id t)).
  { intros Hin. apply hasJob_In in Hin. congruence. }
  clear Hh. induction (map job_id t) as [|x l IH]; cbn.
  - constructor; [intros []|constructor].
  - inversion Hk as [|y l' Hx Hl]; subst. constructor.
    + intros Hin. apply in_app_or in Hin as [Hin|[<-|[]]]; [now apply Hx|].
      apply Hn. now left.
    + apply IH; [exact Hl|]. intros Hin. apply Hn. now right.
Qed.

(** The update path of the dequeue-time protocol. *)
Lemma reconcile_existing (o : Outside.t) (job : Job) (w : World) (r : JobRow) :
  selectJob (id job) (scrapeJobs w) = [r] -> status r <> suspended ->
  reconcile o job w
  = (Return true,
     withJobs (fun t => updateJobs (idIs (id job)) (runningPatch (now w))
                          (execAll (others o 1) t)) w).
Proof.
  intros Hs Hst. unfold reconcile, bind at 1, get. rewrite Hs.
  destruct (statusIs suspended r) eqn:E.
  - apply statusIs_eq in E. contradiction.
  - unfold bind. rewrite await_run, markRunning_run. reflexivity.
Qed.

Lemma reconcile_suspended (o : Outside.t) (job : Job) (w : World) (r : JobRow) :
  selectJob (id job) (scrapeJobs w) = [r] -> status r = suspended ->
  reconcile o job w = (Return false, w).
Proof.
  intros Hs Hst. unfold reconcile, bind at 1, get. rewrite Hs.
  replace (statusIs suspended r) with true
    by (symmetry; now apply statusIs_eq).
  reflexivity.
Qed.

Lemma execAll_app (l1 l2 : list Stmt) (t : list JobRow) :
  execAll (l1 ++ l2) t = execAll l2 (execAll l1 t).
Proof. unfold execAll. apply fold_left_app. Qed.

(** X20: the record passes from the producer to the worker.  On a table
    with the primary key, [triggerManualCollection] has returned the id of
    the job it queued; other clients then run any statements on the table,
    before the worker dequeues the job and while it works.  The worker's
    dequeue-time protocol for a job of that id finds the producer's record
    and never inserts: the table keeps exactly one record of that id, which
    still carries the producer's payload as input.  If the record was
    suspended before the worker looked it up, the protocol stops the job
    and changes nothing; otherwise it lets the job go on and the record is
    running. *)
Theorem X20_producer_record_is_taken_over
    (o : Outside.t) (q : JobQueue) (d : JobData) (w w1 : World) (jobId : jsstring)
    (job : Job) (between : list Stmt) :
  keyed (scrapeJobs w) ->
  triggerManualCollection o q d w = (Return jobId, w1) ->
  id job = jobId ->
  let dequeued := withJobs (execAll between) w1 in
  exists proceed w2,
    reconcile o job dequeued = (Return proceed, w2)
    /\ keyed (scrapeJobs w2)
    /\ countJobs jobId (scrapeJobs w2) = 1%nat
    /\ List.length (scrapeJobs w2)
       = List.length (execAll (if proceed then others o 1 else [])
                        (scrapeJobs dequeued))
    /\ (forall r, In r (scrapeJobs w2) -> job_id r = jobId ->
          input r = Some (InputData d)
          /\ job_type r = jd_type d /\ isScheduled r = false
          /\ status r = if proceed then running else suspended)
    /\ (proceed = false -> w2 = dequeued)
    /\ (proceed = false <->
        exists r, In r (scrapeJobs dequeued) /\ job_id r = jobId
                  /\ status r = suspended).
Proof.
  intros Hk Hrun Hid dequeued.
  destruct (enqueueManual_run q d w) as (sent & He & _).
  rewrite (triggerManualCollection_after o q d w _ He) in Hrun.
  destruct sent as [p|]; [|discriminate Hrun].
  destruct (queueAdd q p) as [j|e]; [|discriminate Hrun].
  destruct (insertFault o) as [e|]; [discriminate Hrun|].
  destruct (hasJob j (scrapeJobs w)) eqn:Hh; [discriminate Hrun|].
  injection Hrun as <- <-.
  set (row := pendingRow j (jd_type d) (InputData d) false (now w)).
  set (t0 := scrapeJobs w ++ [row]).
  assert (Hk0 : keyed t0) by (apply keyed_snoc; assumption).
  assert (Hin0 : In row t0) by (apply in_or_app; right; now left).
  assert (Hh0 : hasJob j t0 = true).
  { apply hasJob_In. apply (in_map job_id) in Hin0. exact Hin0. }
  assert (Horigin : forall (l : list Stmt) (r : JobRow),
            In r (execAll l t0) -> job_id r = j ->
            input r = Some (InputData d) /\ job_type r = jd_type d
            /\ isScheduled r = false).
  { intros l r Hin Hr.
    destruct (execAll_row j l t0 r Hh0 Hin Hr) as (r0 & Hr0 & Hid0 & Hi & Ht & Hs).
    assert (r0 = row) as -> by (apply (keyed_unique _ _ _ Hk0 Hr0 Hin0); exact Hid0).
    rewrite Hi, Ht, Hs. repeat split. }
  subst dequeued. cbn [scrapeJobs withJobs]. fold t0.
  set (t1 := execAll between t0).
  assert (Hk1 : keyed t1) by (now apply execAll_keyed).
  assert (Hh1 : hasJob j t1 = true) by (now apply execAll_hasJob).
  destruct (selectJob_cons j t1 Hh1) as (r1 & Hsel & Hin1 & Hid1).
  assert (Hone : forall r, In r t1 -> job_id r = j -> r = r1).
  { intros r Hin Hr. apply (keyed_unique _ _ _ Hk1 Hin Hin1). congruence. }
  destruct (statusIs suspended r1) eqn:Hst.
  - (* suspended in between: the job is stopped *)
    apply statusIs_eq in Hst.
    exists false. eexists. split.
    { apply (reconcile_suspended o job _ r1); [|exact Hst].
      rewrite Hid. cbn [scrapeJobs withJobs]. fold t0 t1. exact Hsel. }
    cbn [scrapeJobs withJobs]. fold t0 t1.
    split; [exact Hk1|]. split; [now apply countJobs_keyed|].
    split; [reflexivity|]. split.
    { intros r Hin Hr. rewrite (Hone r Hin Hr).
      destruct (Horigin between r1 Hin1 Hid1) as (A & B & C).
      repeat split; assumption. }
    split; [reflexivity|]. split; [|reflexivity].
    intros _. exists r1. repeat split; assumption.
  - (* otherwise the record is marked running *)
    assert (Hns : status r1 <> suspended).
    { intros H. apply statusIs_eq in H. congruence. }
    exists true. eexists. split.
    { apply (reconcile_existing o job _ r1); [|exact Hns].
      rewrite Hid. cbn [scrapeJobs withJobs]. fold t0 t1. exact Hsel. }
    cbn [scrapeJobs withJobs now]. fold t0 t1. rewrite Hid.
    assert (Hk2 : keyed (updateJobs (idIs j) (runningPatch (now w))
                           (execAll (others o 1) t1))).
    { unfold keyed. rewrite updateJobs_ids. now apply execAll_keyed. }
    split; [exact Hk2|].
    split.
    { apply countJobs_keyed; [exact Hk2|]. rewrite hasJob_update.
      now apply execAll_hasJob. }
    split; [unfold updateJobs; now rewrite length_map|].
    split.
    { intros r Hin Hr.
      pose proof (proj1 (updateJobs_status j (runningPatch (now w)) running _ r
                           eq_refl Hin Hr)) as Hrunning.
      unfold updateJobs in Hin. apply in_map_iff in Hin as (r0 & Hr0 & Hin').
      assert (Hid0 : job_id r0 = j).
      { destruct (idIs j r0); subst r; exact Hr. }
      unfold t1 in Hin'. rewrite <- execAll_app in Hin'.
      destruct (Horigin _ r0 Hin' Hid0) as (A & B & C).
      assert (Hsame : input r = input r0 /\ job_type r = job_type r0
                      /\ isScheduled r = isScheduled r0).
      { destruct (idIs j r0); subst r; repeat split. }
      destruct Hsame as (S1 & S2 & S3). rewrite S1, S2, S3.
      repeat split; assumption. }
    split; [discriminate|]. split; [discriminate|].
    intros (r & Hin & Hr & Hs). rewrite (Hone r Hin Hr) in Hs. contradiction.
Qed.

(** The collect route's product job for B000000000 on an empty database:
    the worker takes the producer's record over. *)
Lemma X20_witness :
  exists w2,
    reconcile quiet productJob
      (snd (triggerManualCollection quiet oneQueue productData (emptyWorld jan31)))
    = (Return true, w2)
    /\ map status (scrapeJobs w2) = [running].
Proof.
  destruct (X20_producer_record_is_taken_over quiet oneQueue productData
              (emptyWorld jan31)
              (snd (triggerManualCollection quiet oneQueue productData
                      (emptyWorld jan31)))
              (str "1") productJob [] (NoDup_nil _) eq_refl eq_refl)
    as (proceed & w2 & Hrun & _).
  vm_compute in Hrun. injection Hrun as <- <-.
  eexists. split; reflexivity.
Defined.

(** The same, the job suspended through the route before the worker
    dequeues it: the worker stops the job. *)
Example suspended_before_dequeue :
  let queued := snd (triggerManualCollection quiet oneQueue productData
                       (emptyWorld jan31)) in
  let suspendedNow := snd (suspendRoute oneQueue (str "1") queued) in
  reconcile quiet productJob suspendedNow = (Return false, suspendedNow).
Proof. reflexivity. Qed.

(** ** Tracking a product, and stopping it *)

(** One cancellation, as a function of the world. *)
Lemma cancelScheduledJob_run (o : Outside.t) (jobId : jsstring) (w : World) :
  removeJob o jobId = Return tt ->
  cancelScheduledJob o jobId w
  = (Return tt,
     withJobs (updateJobs (statusIs pending) (cancelledPatch (now w))) w).
Proof. intros H. unfold cancelScheduledJob, bind, lift, get. now rewrite H. Qed.

Lemma cancel_twice (d d' : Date) (t : list JobRow) :
  updateJobs (statusIs pending) (cancelledPatch d')
    (updateJobs (statusIs pending) (cancelledPatch d) t)
  = updateJobs (statusIs pending) (cancelledPatch d) t.
Proof.
  unfold updateJobs. rewrite map_map. apply map_ext. intros r.
  destruct (statusIs pending r) eqn:E; [reflexivity|]. now rewrite E.
Qed.

Lemma cancelEach_run (o : Outside.t) (asin : jsstring) (jobs : list JobRow) :
  (forall id, removeJob o id = Return tt) ->
  forall w,
    cancelEach o asin jobs w
    = (Return tt,
       if existsb (inputAsinIs asin) jobs
       then withJobs (updateJobs (statusIs pending) (cancelledPatch (now w))) w
       else w)
    /\ cancelEach o asin jobs
         (withJobs (updateJobs (statusIs pending) (cancelledPatch (now w))) w)
       = (Return tt,
          withJobs (updateJobs (statusIs pending) (cancelledPatch (now w))) w).
Proof.
  intros Hrm. induction jobs as [|job jobs IH]; intros w.
  - split; reflexivity.
  - destruct (IH w) as (IH1 & IH2). cbn [cancelEach existsb].
    assert (Hagain :
      cancelScheduledJob o (job_id job)
        (withJobs (updateJobs (statusIs pending) (cancelledPatch (now w))) w)
      = (Return tt,
         withJobs (updateJobs (statusIs pending) (cancelledPatch (now w))) w)).
    { rewrite cancelScheduledJob_run by apply Hrm.
      f_equal. unfold withJobs.
      cbn [now scrapeJobs products prices reviewRows apiUsage drawn trace].
      now rewrite cancel_twice. }
    destruct (inputAsinIs asin job); cbn [orb]; unfold bind.
    + rewrite cancelScheduledJob_run by apply Hrm. rewrite IH2.
      split; [reflexivity|]. now rewrite Hagain.
    + unfold ret at 1. rewrite IH1. split; [reflexivity|].
      unfold ret at 1. exact IH2.
Qed.

Lemma existsb_filter {A : Type} (p s : A -> bool) (l : list A) :
  existsb p (filter s l) = existsb (fun a => s a && p a) l.
Proof.
  induction l as [|a l IH]; [reflexivity|]. cbn.
  destruct (s a); cbn; now rewrite IH.
Qed.

Lemma untrackRoute_run (o : Outside.t) (asin : jsstring) (w : World) :
  (forall id, removeJob o id = Return tt) ->
  untrackRoute o asin w
  = (Return (Success None (str "Product tracking stopped")),
     if existsb (fun r => scheduledPriceUpdate r && inputAsinIs asin r) (scrapeJobs w)
     then withJobs (updateJobs (statusIs pending) (cancelledPatch (now w))) w
     else w).
Proof.
  intros Hrm. unfold untrackRoute, tryCatch, bind at 1, get. unfold bind.
  rewrite (proj1 (cancelEach_run o asin _ Hrm w)). now rewrite existsb_filter.
Qed.

Lemma cancelled_rows (d : Date) (t : list JobRow) (r : JobRow) :
  In r (updateJobs (statusIs pending) (cancelledPatch d) t) ->
  status r <> pending
  /\ exists r0, In r0 t /\ job_id r = job_id r0 /\ isScheduled r = isScheduled r0
                /\ (status r0 = pending ->
                    status r = failed /\ error r = Some (str "Cancelled by user"))
                /\ (status r0 <> pending -> r = r0).
Proof.
  unfold updateJobs. intros Hin. apply in_map_iff in Hin as (r0 & <- & Hin).
  destruct (statusIs pending r0) eqn:E.
  - apply statusIs_eq in E. split; [discriminate|]. exists r0.
    split; [exact Hin|]. split; [reflexivity|]. split; [reflexivity|].
    split; [intros _; split; reflexivity|]. intros Hn. contradiction.
  - assert (Hn : status r0 <> pending).
    { intros Hp. apply statusIs_eq in Hp. congruence. }
    split; [exact Hn|]. exists r0.
    split; [exact Hin|]. split; [reflexivity|]. split; [reflexivity|].
    split; [intros Hp; contradiction|reflexivity].
Qed.

(** X21: stopping the tracking of a product cancels by status.  When the
    queue's removals succeed, [DELETE /:asin/track] answers success; if no
    scheduled price-update record carries the ASIN nothing changes;
    otherwise the table is what one [cancelScheduledJob] leaves, however
    many records matched: every record that was pending, of whatever ASIN
    and type, is failed with Cancelled by user, no record is pending any
    more, and the records that were not pending, the matching ones
    included, are unchanged. *)
Theorem X21_untrack_cancels_by_status
    (o : Outside.t) (asin : jsstring) (w : World) :
  (forall id, removeJob o id = Return tt) ->
  exists w',
    untrackRoute o asin w = (Return (Success None (str "Product tracking stopped")), w')
    /\ onlyJobs w w'
    /\ if existsb (fun r => scheduledPriceUpdate r && inputAsinIs asin r)
            (scrapeJobs w)
       then scrapeJobs w'
            = updateJobs (statusIs pending) (cancelledPatch (now w)) (scrapeJobs w)
            /\ (forall r, In r (scrapeJobs w') -> status r <> pending)
            /\ (forall r, In r (scrapeJobs w) -> status r <> pending ->
                  In r (scrapeJobs w'))
       else w' = w.
Proof.
  intros Hrm. rewrite (untrackRoute_run o asin w Hrm).
  eexists. split; [reflexivity|].
  destruct (existsb _ (scrapeJobs w)).
  - split; [repeat split|]. cbn [scrapeJobs withJobs].
    split; [reflexivity|]. split.
    + intros r Hin. exact (proj1 (cancelled_rows (now w) (scrapeJobs w) r Hin)).
    + intros r Hin Hst. unfold updateJobs. apply in_map_iff. exists r.
      split; [|exact Hin].
      destruct (statusIs pending r) eqn:E; [|reflexivity].
      apply statusIs_eq in E. contradiction.
  - split; [apply onlyJobs_refl|reflexivity].
Qed.

Lemma X21_witness :
  untrackRoute quiet B000000000 (emptyWorld jan31)
  = (Return (Success None (str "Product tracking stopped")), emptyWorld jan31).
Proof.
  destruct (X21_untrack_cancels_by_status quiet B000000000 (emptyWorld jan31)
              (fun _ => eq_refl)) as (w' & Hrun & _ & Hsame).
  cbn in Hsame. now rewrite Hrun, Hsame.
Defined.

Lemma scheduleProductUpdates_run (o : Outside.t) (q : JobQueue)
    (asin pattern : jsstring) (w : World) :
  scheduleProductUpdates o q asin pattern w
  = match addRecurringPriceJob q asin pattern with
    | Throws e => (Throws e, w)
    | Return jobId =>
        match insertFault o with
        | Some e => (Throws e, w)
        | None =>
            if hasJob jobId (scrapeJobs w) then (Throws (uniqueViolation o jobId), w)
            else (Return jobId,
                  withJobs (fun t => t ++ [pendingRow jobId T_price_update
                                             (InputSchedule asin pattern) true
                                             (now w)]) w)
        end
    end.
Proof.
  unfold scheduleProductUpdates, bind at 1, lift.
  destruct (addRecurringPriceJob q asin pattern) as [jobId|e]; [|reflexivity].
  unfold bind at 1, get. unfold bind. rewrite insertJob_run by reflexivity.
  cbn [job_id pendingRow].
  destruct (insertFault o) as [e|]; [reflexivity|].
  destruct (hasJob jobId (scrapeJobs w)); reflexivity.
Qed.

(** X22: tracking, then stopping.  When [POST /:asin/track] answers with a
    job id, the queue was given one repeating job for the ASIN, with the
    body's cron pattern or every six hours when the body has none, in UTC,
    and one record was appended: a pending, scheduled price update whose
    input is the ASIN and the pattern.  If the queue's removals succeed, a
    following [DELETE /:asin/track] for the same ASIN leaves that record
    failed with Cancelled by user, and no pending record at all. *)
Theorem X22_track_then_untrack
    (o : Outside.t) (q : JobQueue) (asin : jsstring) (cronPattern : option jsstring)
    (w w1 : World) (jobId message : jsstring) :
  (forall id, removeJob o id = Return tt) ->
  trackRoute o q asin cronPattern w = (Return (Success (Some jobId) message), w1) ->
  let pattern := match cronPattern with
                 | Some (c :: p) => c :: p
                 | _ => str "0 */6 * * *"
                 end in
  queueAdd q {| q_name := str "update-price";
                q_data := {| jd_asin := Some asin; jd_keyword := None;
                             jd_limit := None; jd_country := None;
                             jd_type := T_price_update |};
                q_priority := None; q_delay := None; q_attempts := None;
                q_repeat := Some (pattern, str "UTC") |} = Return jobId
  /\ hasJob jobId (scrapeJobs w) = false
  /\ scrapeJobs w1
     = scrapeJobs w ++ [pendingRow jobId T_price_update (InputSchedule asin pattern)
                          true (now w)]
  /\ exists w2,
       untrackRoute o asin w1 = (Return (Success None (str "Product tracking stopped")), w2)
       /\ (forall r, In r (scrapeJobs w2) -> status r <> pending)
       /\ (forall r, In r (scrapeJobs w2) -> job_id r = jobId ->
             status r = failed /\ error r = Some (str "Cancelled by user")
             /\ isScheduled r = true).
Proof.
  intros Hrm Hrun pattern.
  unfold trackRoute, tryCatch, bind in Hrun. fold pattern in Hrun.
  rewrite scheduleProductUpdates_run in Hrun. unfold addRecurringPriceJob in Hrun.
  destruct (queueAdd q _) as [j|e] eqn:Hq; [|discriminate Hrun].
  destruct (insertFault o) as [e|]; [discriminate Hrun|].
  destruct (hasJob j (scrapeJobs w)) eqn:Hh; [discriminate Hrun|].
  injection Hrun as <- _ <-.
  split; [reflexivity|]. split; [exact Hh|]. split; [reflexivity|].
  set (row := pendingRow j T_price_update (InputSchedule asin pattern) true (now w)).
  rewrite (untrackRoute_run o asin _ Hrm). cbn [scrapeJobs withJobs now].
  assert (Hex : existsb (fun r => scheduledPriceUpdate r && inputAsinIs asin r)
                  (scrapeJobs w ++ [row]) = true).
  { rewrite existsb_app. apply orb_true_iff. right. cbn. now rewrite eqb_refl. }
  rewrite Hex. eexists. split; [reflexivity|]. cbn [scrapeJobs withJobs].
  split.
  - intros r Hin. exact (proj1 (cancelled_rows (now w) _ r Hin)).
  - intros r Hin Hid.
    destruct (cancelled_rows (now w) _ r Hin) as (_ & r0 & Hin0 & Hid0 & Hs0 & Hp & _).
    assert (r0 = row) as ->.
    { apply in_app_or in Hin0 as [Hin0|[<-|[]]]; [|reflexivity].
      exfalso. assert (hasJob j (scrapeJobs w) = true); [|congruence].
      apply hasJob_In. rewrite <- Hid, Hid0. now apply in_map. }
    destruct (Hp eq_refl) as (A & B). repeat split; assumption.
Qed.

Lemma X22_witness :
  exists w2,
    untrackRoute quiet B000000000
      (snd (trackRoute quiet oneQueue B000000000 None (emptyWorld jan31)))
    = (Return (Success None (str "Product tracking stopped")), w2)
    /\ map status (scrapeJobs w2) = [failed].
Proof.
  destruct (X22_track_then_untrack quiet oneQueue B000000000 None (emptyWorld jan31)
              (snd (trackRoute quiet oneQueue B000000000 None (emptyWorld jan31)))
              (str "1") (str "Product tracking started")
              (fun _ => eq_refl) eq_refl)
    as (_ & _ & _ & w2 & Hrun & _).
  exists w2. split; [exact Hrun|].
  vm_compute in Hrun. now injection Hrun as <-.
Defined.

(** ** Suspending and resuming a job *)

Lemma updateJobs_none (c : JobRow -> bool) (p : JobPatch) (t : list JobRow) :
  filter c t = [] -> updateJobs c p t = t.
Proof.
  unfold updateJobs. induction t as [|r t IH]; [reflexivity|]. cbn.
  destruct (c r); [discriminate|]. intros H. now rewrite IH.
Qed.

Lemma withJobs_same (w : World) (f : list JobRow -> list JobRow) :
  f (scrapeJobs w) = scrapeJobs w -> withJobs f w = w.
Proof. intros H. destruct w. unfold withJobs. cbn in *. now rewrite H. Qed.

Lemma filter_hasJob (id : jsstring) (t : list JobRow) :
  filter (idIs id) t = [] <-> hasJob id t = false.
Proof.
  unfold hasJob. induction t as [|r t IH]; [now split|]. cbn.
  destruct (idIs id r); cbn; [split; discriminate|exact IH].
Qed.

Lemma suspendRoute_run (q : JobQueue) (jobId : jsstring) (w : World) :
  suspendRoute q jobId w
  = (Return (if hasJob jobId (scrapeJobs w)
             then Success None (str "Job suspended successfully")
             else Failure 404 (str "Job not found")),
     withJobs (updateJobs (idIs jobId) (suspendedPatch (now w))) w).
Proof.
  unfold suspendRoute, bind at 1, get. unfold bind at 1, modify.
  destruct (filter (idIs jobId) (scrapeJobs w)) as [|r l] eqn:E.
  - apply filter_hasJob in E. now rewrite E.
  - assert (Hh : hasJob jobId (scrapeJobs w) = true).
    { destruct (hasJob jobId (scrapeJobs w)) eqn:Hh; [reflexivity|].
      apply filter_hasJob in Hh. congruence. }
    rewrite Hh. unfold bind, tryCatch, lift.
    destruct (removeWaiting q jobId); reflexivity.
Qed.

(** X23: suspending a job, and the worker that dequeues it afterwards.
    [POST /:jobId/suspend] answers 404 and changes nothing when no record
    has the id.  Otherwise it answers success whatever the queue does, and
    every record of the id is suspended, whatever its status was, completed
    and failed included; only the status and the update time of those
    records change.  A worker that then dequeues the job returns at once:
    [processJob] changes nothing, for every handler and every outside. *)
Theorem X23_suspended_by_route_then_dequeued
    (q : JobQueue) (jobId : jsstring) (w : World) :
  exists res w1,
    suspendRoute q jobId w = (Return res, w1)
    /\ onlyJobs w w1
    /\ if hasJob jobId (scrapeJobs w) then
         res = Success None (str "Job suspended successfully")
         /\ scrapeJobs w1
            = updateJobs (idIs jobId) (suspendedPatch (now w)) (scrapeJobs w)
         /\ (forall r, In r (scrapeJobs w1) -> job_id r = jobId ->
               status r = suspended)
         /\ (forall r, In r (scrapeJobs w) -> job_id r <> jobId ->
               In r (scrapeJobs w1))
         /\ (forall (o : Outside.t) (this : CollectionWorker) (job : Job),
               id job = jobId -> processJob o this job w1 = (Return tt, w1))
       else res = Failure 404 (str "Job not found") /\ w1 = w.
Proof.
  rewrite suspendRoute_run. eexists. eexists. split; [reflexivity|].
  split; [repeat split|].
  destruct (hasJob jobId (scrapeJobs w)) eqn:Hh.
  - split; [reflexivity|]. cbn [scrapeJobs withJobs]. split; [reflexivity|].
    assert (Hall : forall r,
              In r (updateJobs (idIs jobId) (suspendedPatch (now w)) (scrapeJobs w)) ->
              job_id r = jobId -> status r = suspended).
    { intros r Hin Hid.
      exact (proj1 (updateJobs_status jobId (suspendedPatch (now w)) suspended
                      (scrapeJobs w) r eq_refl Hin Hid)). }
    split; [exact Hall|]. split.
    + intros r Hin Hid. unfold updateJobs. apply in_map_iff. exists r.
      split; [|exact Hin]. destruct (idIs jobId r) eqn:E; [|reflexivity].
      apply idIs_eq in E. contradiction.
    + intros o this job Hid. apply processJob_suspended.
      unfold reconcile, bind, get. rewrite Hid. cbn [scrapeJobs withJobs].
      assert (Hh' : hasJob jobId (updateJobs (idIs jobId) (suspendedPatch (now w))
                                     (scrapeJobs w)) = true)
        by (now rewrite hasJob_update).
      destruct (selectJob_cons jobId _ Hh') as (r & Hsel & Hin & Hidr).
      rewrite Hsel.
      replace (statusIs suspended r) with true; [reflexivity|].
      symmetry. apply statusIs_eq. now apply Hall.
  - split; [reflexivity|]. apply withJobs_same. apply updateJobs_none.
    now apply filter_hasJob.
Qed.

Lemma updateJobs_twice (c : JobRow -> bool) (p1 p2 : JobPatch) (t : list JobRow) :
  (forall r, c (applyPatch p1 r) = c r) ->
  updateJobs c p2 (updateJobs c p1 t)
  = map (fun r => if c r then applyPatch p2 (applyPatch p1 r) else r) t.
Proof.
  intros Hc. unfold updateJobs. rewrite map_map. apply map_ext. intros r.
  destruct (c r) eqn:E; [now rewrite Hc, E|now rewrite E].
Qed.

Lemma selectJob_update (id : jsstring) (c : JobRow -> bool) (p : JobPatch)
    (t : list JobRow) :
  selectJob id (updateJobs c p t)
  = map (fun r => if c r then applyPatch p r else r) (selectJob id t).
Proof.
  unfold selectJob, updateJobs. rewrite <- firstn_map. f_equal.
  induction t as [|r t IH]; [reflexivity|]. cbn [map filter].
  assert (E : idIs id (if c r then applyPatch p r else r) = idIs id r)
    by (destruct (c r); reflexivity).
  rewrite E. destruct (idIs id r); cbn [map]; now rewrite IH.
Qed.

(** X24: resuming a job.  [POST /:jobId/resume] answers 404 when no record
    has the id and 400, naming the status, when the record found is not
    suspended; in both cases nothing changes.  For a suspended record it
    answers success and sets the records of the id to pending.  The job is
    handed to the scheduler again only for a scheduled record with an input
    that is not a price update carrying an ASIN, and an error of that call
    is swallowed; for a record that is not scheduled nothing is queued.  So
    a job suspended and then resumed through the routes ends pending
    whatever its status was before, with every other column but the update
    time as before. *)
Theorem X24_resume_cases
    (retrigger : JobRow -> Async jsstring) (q : JobQueue) (jobId : jsstring)
    (w : World) :
  (exists res w',
     resumeRoute retrigger jobId w = (Return res, w')
     /\ match selectJob jobId (scrapeJobs w) with
        | [] => res = Failure 404 (str "Job not found") /\ w' = w
        | job :: _ =>
            if statusIs suspended job then
              res = Success None (str "Job resumed successfully")
              /\ let w1 := withJobs (updateJobs (idIs jobId) (pendingPatch (now w))) w in
                 match isScheduled job, input job with
                 | true, Some i =>
                     if isPriceUpdate (job_type job) && hasAsinKey i then w' = w1
                     else w' = snd (retrigger job w1)
                 | _, _ => w' = w1
                 end
            else
              res = Failure 400 (str "Job is not suspended. Current status: "
                                 ++ statusName (status job))
              /\ w' = w
        end)
  /\ (forall job,
        selectJob jobId (scrapeJobs w) = [job] -> isScheduled job = false ->
        resumeRoute retrigger jobId (snd (suspendRoute q jobId w))
        = (Return (Success None (str "Job resumed successfully")),
           withJobs (map (fun r =>
             if idIs jobId r
             then {| job_id := job_id r; job_type := job_type r; status := pending;
                     input := input r; output := output r; error := error r;
                     isScheduled := isScheduled r; apiCallsUsed := apiCallsUsed r;
                     startedAt := startedAt r; completedAt := completedAt r;
                     createdAt := createdAt r; updatedAt := now w |}
             else r)) w)).
Proof.
  split.
  - unfold resumeRoute, bind at 1, get.
    destruct (selectJob jobId (scrapeJobs w)) as [|job l] eqn:Hs.
    + eexists. eexists. split; [reflexivity|]. now split.
    + destruct (statusIs suspended job) eqn:Hst; cbn [negb].
      2:{ eexists. eexists. split; [reflexivity|]. now split. }
      unfold bind at 1, modify.
      set (w1 := withJobs (updateJobs (idIs jobId) (pendingPatch (now w))) w).
      destruct (isScheduled job).
      * destruct (input job) as [i|].
        -- destruct (isPriceUpdate (job_type job) && hasAsinKey i).
           ++ eexists. eexists. split; [reflexivity|]. now split.
           ++ unfold bind, tryCatch.
              destruct (retrigger job w1) as [[j|e] w2];
                eexists; eexists; (split; [reflexivity|]); now split.
        -- eexists. eexists. split; [reflexivity|]. now split.
      * destruct (input job); eexists; eexists; (split; [reflexivity|]); now split.
  - intros job Hs Hsched. rewrite suspendRoute_run. cbn [snd].
    destruct (selectJob_found _ _ _ _ Hs) as (Hh & Hin & Hid & _).
    set (t1 := updateJobs (idIs jobId) (suspendedPatch (now w)) (scrapeJobs w)).
    assert (Hh1 : hasJob jobId t1 = true) by (unfold t1; now rewrite hasJob_update).
    destruct (selectJob_cons jobId t1 Hh1) as (r1 & Hs1 & Hin1 & Hid1).
    assert (Hst1 : status r1 = suspended).
    { exact (proj1 (updateJobs_status jobId (suspendedPatch (now w)) suspended
                      (scrapeJobs w) r1 eq_refl Hin1 Hid1)). }
    assert (Hsc1 : isScheduled r1 = false).
    { pose proof (selectJob_update jobId (idIs jobId) (suspendedPatch (now w))
                    (scrapeJobs w)) as Hsel.
      fold t1 in Hsel. rewrite Hs1, Hs in Hsel. cbn in Hsel. injection Hsel as ->.
      destruct (idIs jobId job); exact Hsched. }
    unfold resumeRoute, bind at 1, get. cbn [scrapeJobs withJobs]. fold t1.
    rewrite Hs1. replace (statusIs suspended r1) with true
      by (symmetry; now apply statusIs_eq).
    cbn [negb]. unfold bind at 1, modify. rewrite Hsc1.
    unfold bind, ret. f_equal.
    unfold withJobs.
    cbn [now scrapeJobs products prices reviewRows apiUsage drawn trace].
    f_equal. unfold t1. rewrite updateJobs_twice by reflexivity. reflexivity.
Qed.

(** A completed job that is suspended and then resumed is pending. *)
Example resumed_job_is_pending :
  let done := withRows [rowOf (str "1") completed jan31] in
  map status (scrapeJobs done) = [completed]
  /\ map status (scrapeJobs (snd (suspendRoute oneQueue (str "1") done))) = [suspended]
  /\ map status
       (scrapeJobs (snd (resumeRoute (fun _ => throw invalidJobData) (str "1")
                           (snd (suspendRoute oneQueue (str "1") done)))))
     = [pending].
Proof. vm_compute. repeat split. Qed.

(** ** The collect route *)

(** X25: [POST /collect], case by case.  The job's type is decided by the
    ASIN alone.  With a non-empty ASIN the queue is given a product job at
    priority 10 whose payload drops the keyword, the limit and the country;
    without one but with a non-empty keyword it is given a search job with
    the keyword, the limit and the country.  If the queue gives an id, the
    insert has no fault and no record has that id, the route answers
    success with that id and Collection job queued, and one pending,
    unscheduled record of that id and type, with the body's data as input,
    was appended.  If the queue fails, the insert fails or a record of the
    id exists, the route answers 400 with the error's message; with
    neither an ASIN nor a keyword it answers 400 with Invalid job data and
    the queue is not called.  In all these cases the database is
    unchanged. *)
Theorem X25_collect_route
    (o : Outside.t) (q : JobQueue) (asin keyword : option jsstring)
    (limit : option Z) (country : option jsstring) (w : World) :
  let type := if truthyOpt asin then T_product else T_search in
  let sent :=
    {| q_name := if truthyOpt asin then str "collect-product"
                 else str "collect-search";
       q_data := if truthyOpt asin then
                   {| jd_asin := asin; jd_keyword := None; jd_limit := None;
                      jd_country := None; jd_type := T_product |}
                 else
                   {| jd_asin := None; jd_keyword := keyword; jd_limit := limit;
                      jd_country := country; jd_type := T_search |};
       q_priority := Some 10; q_delay := None; q_attempts := None;
       q_repeat := None |} in
  let record := fun j =>
    {| job_id := j;
       job_type := type;
       status := pending;
       input := Some (InputData {| jd_asin := asin; jd_keyword := keyword;
                                   jd_limit := limit; jd_country := country;
                                   jd_type := type |});
       output := None;
       error := None;
       isScheduled := false;
       apiCallsUsed := 0;
       startedAt := None;
       completedAt := None;
       createdAt := now w;
       updatedAt := now w |} in
  let refused := fun reason => (Return (Failure 400 reason), w) in
  collectRoute o q asin keyword limit country w
  = if truthyOpt asin || truthyOpt keyword then
      match queueAdd q sent with
      | Throws e => refused (e_message e)
      | Return j =>
          match insertFault o with
          | Some e => refused (e_message e)
          | None =>
              if hasJob j (scrapeJobs w)
              then refused (e_message (uniqueViolation o j))
              else (Return (Success (Some j) (str "Collection job queued")),
                    withJobs (fun t => t ++ [record j]) w)
          end
      end
    else refused (str "Invalid job data").
Proof.
  intros type sent record refused.
  set (jobData := {| jd_asin := asin; jd_keyword := keyword; jd_limit := limit;
                     jd_country := country; jd_type := type |}).
  assert (Hroute : collectRoute o q asin keyword limit country w
                   = match triggerManualCollection o q jobData w with
                     | (Return jobId, w') =>
                         (Return (Success (Some jobId) (str "Collection job queued")), w')
                     | (Throws e, w') => (Return (Failure 400 (e_message e)), w')
                     end).
  { unfold collectRoute, tryCatch, bind. fold type jobData.
    destruct (triggerManualCollection o q jobData w) as [[j|e] w']; reflexivity. }
  assert (Hsent : enqueueManual q jobData w
                  = (if truthyOpt asin || truthyOpt keyword then queueAdd q sent
                     else Throws invalidJobData, w)).
  { subst jobData sent type. unfold enqueueManual. cbn [jd_type jd_asin jd_keyword].
    destruct asin as [[|c a]|]; cbn [truthyOpt orb jd_type jd_asin jd_keyword
                                      jd_limit jd_country];
      try (destruct keyword as [[|c' k]|]; reflexivity); reflexivity. }
  rewrite Hroute, (triggerManualCollection_after o q jobData w _ Hsent).
  destruct (truthyOpt asin || truthyOpt keyword); [|reflexivity].
  destruct (queueAdd q sent) as [j|e]; [|reflexivity].
  destruct (insertFault o) as [e|]; [reflexivity|].
  destruct (hasJob j (scrapeJobs w)); reflexivity.
Qed.

(** ** Price strings *)

Lemma cleanPrice_app (a b : jsstring) : cleanPrice (a ++ b) = cleanPrice a ++ cleanPrice b.
Proof. apply filter_app. Qed.

Lemma cleanPrice_idem (s : jsstring) : cleanPrice (cleanPrice s) = cleanPrice s.
Proof.
  unfold cleanPrice. induction s as [|c s IH]; [reflexivity|]. cbn [filter].
  destruct (negb (isPriceNoise c)) eqn:E; [|exact IH].
  cbn [filter]. now rewrite E, IH.
Qed.

(** X26: [parsePriceString] on a string.  The currency signs, commas and
    white space it removes are ignored wherever they stand, between digits
    included; a string of such characters only, the empty string included,
    gives undefined; and the result is never NaN. *)
Theorem X26_parsePriceString_ignores_noise (a b : jsstring) (c : N) :
  (isPriceNoise c = true ->
   parsePriceString (UStr (a ++ c :: b)) = parsePriceString (UStr (a ++ b)))
  /\ parsePriceString (UStr (cleanPrice a)) = parsePriceString (UStr a)
  /\ (cleanPrice a = [] -> parsePriceString (UStr a) = None)
  /\ (forall n, parsePriceString (UStr a) = Some n -> isNaN n = false).
Proof.
  split; [|split; [|split]].
  - intros Hc. unfold parsePriceString.
    replace (cleanPrice (a ++ c :: b)) with (cleanPrice (a ++ b)); [reflexivity|].
    rewrite !cleanPrice_app. f_equal. unfold cleanPrice. cbn [filter].
    now rewrite Hc.
  - unfold parsePriceString. now rewrite cleanPrice_idem.
  - intros H. unfold parsePriceString. now rewrite H.
  - intros n. unfold parsePriceString.
    destruct (isNaN (parseFloat (cleanPrice a))) eqn:E; [discriminate|].
    now intros [= <-].
Qed.

Example price_with_separators :
  parsePriceString (UStr (str "$ 1,299.99")) = parsePriceString (UStr (str "1299.99"))
  /\ parsePriceString (UStr (str "$")) = None
  /\ parsePriceString (UStr (str "USD 12")) = None.
Proof. repeat split. Qed.

(** ** The error code in a driver's detail *)

(** X27: [extractPostgresErrorCode] is the leftmost match of the pattern.
    What it returns is a non-empty run of characters other than the double
    quote that stands in the detail between double quotes, after [code:]
    and optional white space; and whenever the detail holds such an
    occurrence it returns one, the quoted run itself when the occurrence is
    at the head of the detail.  An error whose cause's detail begins with
    such an occurrence of 23505, and that carries no code of its own, is
    classified as a duplicate key. *)
Theorem X27_extractPostgresErrorCode_pattern (detail : jsstring) :
  (forall g,
     extractPostgresErrorCode detail = Some g ->
     exists pre ws post,
       detail = pre ++ str "code:" ++ ws ++ 34%N :: g ++ 34%N :: post
       /\ forallb isWhiteSpace ws = true /\ g <> [] /\ forallb noQuote g = true)
  /\ (forall pre ws g post,
        detail = pre ++ str "code:" ++ ws ++ 34%N :: g ++ 34%N :: post ->
        forallb isWhiteSpace ws = true -> g <> [] -> forallb noQuote g = true ->
        extractPostgresErrorCode detail <> None
        /\ (pre = [] -> extractPostgresErrorCode detail = Some g))
  /\ (forall (e : JsError) (c : Cause),
        e_code e = None -> e_cause e = Some c -> c_code c = None ->
        c_detail c = Some detail ->
        extractPostgresErrorCode detail = Some (str "23505") ->
        isDuplicateKey e = true).
Proof.
  split; [|split].
  - induction detail as [|c d IH]; intros g H.
    + cbn in H. discriminate.
    + cbn [extractPostgresErrorCode] in H.
      destruct (matchCodeAt (c :: d)) as [g'|] eqn:Hm.
      * injection H as ->.
        destruct (matchCodeAt_sound _ _ Hm) as (ws & post & Hs & Hw & Hg & Hq).
        exists [], ws, post. now repeat split.
      * destruct (IH g H) as (pre & ws & post & Hs & Hw & Hg & Hq).
        exists (c :: pre), ws, post. split; [cbn; now f_equal|now repeat split].
  - intros pre. revert detail. induction pre as [|x pre IH];
      intros detail ws g post Hd Hw Hg Hq.
    + cbn [app] in Hd. subst detail.
      assert (H : extractPostgresErrorCode
                    (str "code:" ++ ws ++ 34%N :: g ++ 34%N :: post) = Some g).
      { change (str "code:" ++ ws ++ 34%N :: g ++ 34%N :: post)
          with (99%N :: (str "ode:" ++ ws ++ 34%N :: g ++ 34%N :: post)).
        cbn [extractPostgresErrorCode].
        change (99%N :: (str "ode:" ++ ws ++ 34%N :: g ++ 34%N :: post))
          with (str "code:" ++ ws ++ 34%N :: g ++ 34%N :: post).
        now rewrite matchCodeAt_complete. }
      split; [rewrite H; discriminate|intros _; exact H].
    + subst detail. split; [|discriminate].
      change ((x :: pre) ++ str "code:" ++ ws ++ 34%N :: g ++ 34%N :: post)
        with (x :: (pre ++ str "code:" ++ ws ++ 34%N :: g ++ 34%N :: post)).
      cbn [extractPostgresErrorCode].
      destruct (matchCodeAt _); [discriminate|].
      exact (proj1 (IH _ ws g post eq_refl Hw Hg Hq)).
  - intros e c He Hc Hcc Hd Hx. unfold isDuplicateKey.
    assert (Hcode : errorCodeOf e = Some (str "23505")).
    { unfold errorCodeOf, causeField. rewrite He, Hc, Hcc, Hd. cbn [fallback].
      destruct detail as [|y d]; [cbn in Hx; discriminate|exact Hx]. }
    rewrite Hcode. reflexivity.
Qed.

Example code_in_detail :
  extractPostgresErrorCode (str "Failed query: insert; code: ") = None
  /\ extractPostgresErrorCode
       (str "severity: ERROR, code: " ++ 34%N :: str "23505" ++ [34%N])
     = Some (str "23505").
Proof. split; reflexivity. Qed.

(** ** Reviews without a positive limit *)

(** X28: [collectReviews] when the limit is absent, zero or negative.  One
    page is fetched, in one round of usage check, request and usage
    record, and never a second one; the call throws only the quota error,
    before any request.  Without a limit and with the limit 0 the page is
    returned as the client gave it; with a negative limit the last
    [-limit] reviews of the page are dropped. *)
Theorem X28_collectReviews_without_positive_limit
    (fuel : nat) (o : Outside.t) (this : AmazonCollector) (asin : jsstring)
    (limit : option Z) (w : World) :
  match limit with Some l => l <= 0 | None => True end ->
  exists res w',
    collectReviews fuel o this asin limit w = (res, w')
    /\ untouched w w'
    /\ match res with
       | Throws e => e = quotaExceeded /\ trace w' = trace w ++ [LimitChecked]
       | Return r =>
           trace w' = trace w ++ round asin 1
           /\ let page := getProductReviews o asin 1 in
              match limit with
              | None => r = Some page
              | Some l =>
                  if l =? 0 then r = Some page
                  else r = Some {| reviews :=
                                     firstn (List.length (reviews page) - Z.to_nat (- l))
                                            (reviews page);
                                   averageRating := averageRating page;
                                   totalReviews := totalReviews page |}
              end
       end.
Proof.
  intros Hl. unfold collectReviews, bind at 1.
  destruct (checkUsageLimit_run o this w) as (r0 & w1 & -> & Hr0 & _ & Hu1 & Ht1).
  destruct Hr0 as [-> | ->].
  2:{ eexists. eexists. split; [reflexivity|]. split; [exact Hu1|]. now split. }
  unfold bind at 1, fetchReviews, bind at 1, modify, ret at 1. unfold bind at 1.
  destruct (trackUsage_run o this 1 (withEvent (Request (ReviewsCall asin 1)) w1))
    as (w2 & -> & Hu2 & Ht2).
  assert (Hu : untouched w w2).
  { destruct Hu1 as (A1 & A2 & A3 & A4 & A5), Hu2 as (B1 & B2 & B3 & B4 & B5).
    cbn in B1, B2, B3, B4, B5. repeat split; congruence. }
  assert (Ht : trace w2 = trace w ++ round asin 1).
  { rewrite Ht2. cbn [trace withEvent]. rewrite Ht1. unfold round.
    now rewrite <- !app_assoc. }
  destruct limit as [l|].
  - destruct (Z.eqb_spec l 0) as [->|Hnz].
    + cbn [truthyLimit]. eexists. eexists. split; [reflexivity|].
      split; [exact Hu|]. split; [exact Ht|reflexivity].
    + assert (truthyLimit (Some l) = Some l) as ->
        by (destruct l; [lia|reflexivity..]).
      replace (Z.of_nat (List.length (reviews (getProductReviews o asin 1))) <? l)
        with false by (symmetry; apply Z.ltb_ge; lia).
      eexists. eexists. split; [reflexivity|].
      split; [exact Hu|]. split; [exact Ht|]. cbn zeta.
      rewrite slice0_negative by lia. reflexivity.
  - cbn [truthyLimit]. eexists. eexists. split; [reflexivity|].
    split; [exact Hu|]. split; [exact Ht|reflexivity].
Qed.

Lemma X28_witness :
  collectReviews 0 onePage noTracker B000000000 (Some (-1)) (emptyWorld jan31)
  = (Return (Some {| reviews := []; averageRating := ofZ 5; totalReviews := ofZ 1 |}),
     snd (collectReviews 0 onePage noTracker B000000000 (Some (-1))
            (emptyWorld jan31))).
Proof.
  destruct (X28_collectReviews_without_positive_limit 0 onePage noTracker B000000000
              (Some (-1)) (emptyWorld jan31) ltac:(cbn; lia))
    as (res & w' & Hrun & _ & Hcase).
  rewrite Hrun. cbn [snd]. destruct res as [r|e].
  - destruct Hcase as (_ & Hr). cbn in Hr. now rewrite Hr.
  - destruct Hcase as (-> & _). vm_compute in Hrun. discriminate Hrun.
Defined.
